(** * notion_watch: a shallow embedding of [.github/scripts/notion_watch.py]

    The script polls the Notion API for new database pages and new page
    blocks, posts one Slack message per new item and keeps a JSON
    checkpoint on disk.  This development embeds the script's functions in
    Gallina, with Python's values, exceptions and effects written out, and
    proves the properties its specification states about them.

    Conventions.
    - A Python [str] is a list of Unicode code points ([len], slicing and
      [join] count code points, not bytes).
    - The values the script handles all come from JSON documents
      ([json.load], [resp.json()]) or are built from literals, so they are
      modelled by the type [json].  JSON numbers are restricted to integers:
      floating-point payloads are outside the model, and the decoder reports
      them with a marker exception.
    - A pure function that can raise returns a [result]; code with effects
      (HTTP, clock, disk) runs in the monad [M] of the section [Script]. *)

From Stdlib Require Import Strings.String Strings.Ascii.
From Stdlib Require Import List ZArith NArith Lia Bool.
Import ListNotations.

Set Warnings "-register-all".

Local Open Scope list_scope.
Local Open Scope N_scope.

(* ================================================================== *)
(** ** Python strings *)

Definition char := N.
Definition str := list char.

Fixpoint str_eqb (a b : str) : bool :=
  match a, b with
  | [], [] => true
  | x :: a', y :: b' => N.eqb x y && str_eqb a' b'
  | _, _ => false
  end.

(** Source literals are written as Rocq strings, which hold the UTF-8
    bytes of the text; [u8] decodes them into code points. *)
Fixpoint utf8_decode (bs : list N) : str :=
  match bs with
  | [] => []
  | b :: r =>
    if b <? 128 then b :: utf8_decode r
    else if b <? 224 then
      match r with
      | b1 :: r1 => ((b mod 32) * 64 + b1 mod 64) :: utf8_decode r1
      | _ => []
      end
    else if b <? 240 then
      match r with
      | b1 :: b2 :: r2 =>
        ((b mod 16) * 4096 + (b1 mod 64) * 64 + b2 mod 64) :: utf8_decode r2
      | _ => []
      end
    else
      match r with
      | b1 :: b2 :: b3 :: r3 =>
        ((b mod 8) * 262144 + (b1 mod 64) * 4096 + (b2 mod 64) * 64 + b3 mod 64)
          :: utf8_decode r3
      | _ => []
      end
  end.

Definition u8 (s : string) : str :=
  utf8_decode (map N_of_ascii (list_ascii_of_string s)).
Arguments u8 s%_string.

Definition LF : char := 10.
Definition QUOTE : char := 34.
Definition BACKSLASH : char := 92.

(** [int.__repr__]: decimal digits, with a minus sign for negatives. *)
Fixpoint uint_chars (u : Decimal.uint) : str :=
  match u with
  | Decimal.Nil => []
  | Decimal.D0 u => 48 :: uint_chars u
  | Decimal.D1 u => 49 :: uint_chars u
  | Decimal.D2 u => 50 :: uint_chars u
  | Decimal.D3 u => 51 :: uint_chars u
  | Decimal.D4 u => 52 :: uint_chars u
  | Decimal.D5 u => 53 :: uint_chars u
  | Decimal.D6 u => 54 :: uint_chars u
  | Decimal.D7 u => 55 :: uint_chars u
  | Decimal.D8 u => 56 :: uint_chars u
  | Decimal.D9 u => 57 :: uint_chars u
  end.

Definition int_repr (z : Z) : str :=
  match z with
  | Z0 => [48]
  | Zpos p => uint_chars (Pos.to_uint p)
  | Zneg p => 45 :: uint_chars (Pos.to_uint p)
  end.

(* ================================================================== *)
(** ** Exceptions and results *)

Inductive exn : Type :=
| AttributeError        (* [.get] / [.values] on a value that is not a dict *)
| TypeError             (* not iterable, unhashable, join of a non-str, ... *)
| KeyError
| HTTPError             (* [raise_for_status] on a 4xx or 5xx response *)
| TransportError        (* [requests]: connection failure, timeout *)
| JSONDecodeError
| RecursionError
| UnicodeEncodeError
| ParserError           (* [dateutil.parser.parse] on unparsable text *)
| FloatOutsideModel.    (* marker: a JSON number with fraction or exponent *)

Inductive result (A : Type) : Type :=
| Ok (a : A)
| Raise (e : exn).
Arguments Ok {A} a.
Arguments Raise {A} e.

Definition rbind {A B} (r : result A) (f : A -> result B) : result B :=
  match r with
  | Ok a => f a
  | Raise e => Raise e
  end.

Declare Scope result_scope.
Delimit Scope result_scope with result.
Notation "x <- r ;; k" := (rbind r (fun x => k))
  (at level 61, r at next level, right associativity) : result_scope.
Notation "' pat <- r ;; k" := (rbind r (fun pat => k))
  (at level 61, pat pattern, r at next level, right associativity) : result_scope.

Fixpoint mapR {A B} (f : A -> result B) (l : list A) : result (list B) :=
  match l with
  | [] => Ok []
  | x :: l' =>
    (y <- f x ;; ys <- mapR f l' ;; Ok (y :: ys))%result
  end.

(* ================================================================== *)
(** ** Python values *)

Inductive json : Type :=
| JNull
| JBool (b : bool)
| JInt (z : Z)
| JStr (s : str)
| JArr (l : list json)
| JObj (kvs : list (str * json)).

(** A dict is an association list in insertion order with distinct keys. *)
Definition pydict := list (str * json).

Fixpoint dict_get (k : str) (d : pydict) : option json :=
  match d with
  | [] => None
  | (k', v) :: d' => if str_eqb k k' then Some v else dict_get k d'
  end.

(** [d[k] = v]: replaces in place, or appends a new key. *)
Fixpoint dict_set (k : str) (v : json) (d : pydict) : pydict :=
  match d with
  | [] => [(k, v)]
  | (k', v') :: d' =>
    if str_eqb k k' then (k', v) :: d' else (k', v') :: dict_set k v d'
  end.

(** [bool(v)]. *)
Definition truthy (v : json) : bool :=
  match v with
  | JNull => false
  | JBool b => b
  | JInt z => negb (Z.eqb z 0)
  | JStr s => match s with [] => false | _ => true end
  | JArr l => match l with [] => false | _ => true end
  | JObj d => match d with [] => false | _ => true end
  end.

(** [v.get(k, default)] with a string key: only dicts have [get]. *)
Definition py_get (v : json) (k : str) (default : json) : result json :=
  match v with
  | JObj d => Ok match dict_get k d with Some x => x | None => default end
  | _ => Raise AttributeError
  end.

(** [v.get(key, default)] with a key computed at run time.  Keys of a dict
    decoded from JSON are strings, so a hashable key of another type is
    never found; an unhashable one raises. *)
Definition py_get_dyn (v : json) (key : json) (default : json) : result json :=
  match v with
  | JObj d =>
    match key with
    | JStr k => Ok match dict_get k d with Some x => x | None => default end
    | JNull | JBool _ | JInt _ => Ok default
    | JArr _ | JObj _ => Raise TypeError
    end
  | _ => Raise AttributeError
  end.

(** [for x in v]: lists give their items, dicts their keys, strings their
    characters; nothing else is iterable. *)
Definition py_iter (v : json) : result (list json) :=
  match v with
  | JArr l => Ok l
  | JObj d => Ok (map (fun kv => JStr (fst kv)) d)
  | JStr s => Ok (map (fun c => JStr [c]) s)
  | _ => Raise TypeError
  end.

(** [d.values()]. *)
Definition py_values (v : json) : result (list json) :=
  match v with
  | JObj d => Ok (map snd d)
  | _ => Raise AttributeError
  end.

(** [sep.join(items)] with the empty separator: every item must be a str. *)
Fixpoint py_join (items : list json) : result str :=
  match items with
  | [] => Ok []
  | JStr s :: r => (t <- py_join r ;; Ok (s ++ t))%result
  | _ :: _ => Raise TypeError
  end.

(** [v == "literal"]. *)
Definition py_eq_str (v : json) (s : str) : bool :=
  match v with
  | JStr t => str_eqb t s
  | _ => false
  end.

Section Formatting.

(** [repr] of a list or dict (CPython's quoting and escaping rules for the
    strings inside depend on the Unicode database); a parameter. *)
Variable py_repr : json -> str.

(** What an f-string puts in place of [{v}]. *)
Definition py_format (v : json) : str :=
  match v with
  | JStr s => s
  | JNull => u8 "None"
  | JBool true => u8 "True"
  | JBool false => u8 "False"
  | JInt z => int_repr z
  | JArr _ | JObj _ => py_repr v
  end.

(* ================================================================== *)
(** ** The formatter *)

Definition NO_TITLE : str := u8 "(제목 없음)".
Definition NO_TEXT : str := u8 "(텍스트 없음)".

(** The list comprehension [[r.get("plain_text", "") for r in rich]]
    followed by ["".join(...)]. *)
Definition plain_texts (rich : json) : result str :=
  (runs <- py_iter rich ;;
   texts <- mapR (fun r => py_get r (u8 "plain_text") (JStr [])) runs ;;
   py_join texts)%result.

(** The loop of [page_title] over [props.values()]. *)
Fixpoint page_title_scan (vs : list json) : result str :=
  match vs with
  | [] => Ok NO_TITLE
  | v :: vs' =>
    (ty <- py_get v (u8 "type") JNull ;;
     if py_eq_str ty (u8 "title") then
       rich <- py_get v (u8 "title") (JArr []) ;;
       if truthy rich then
         s <- plain_texts rich ;;
         match firstn 120 s with
         | [] => Ok NO_TITLE
         | t => Ok t
         end
       else page_title_scan vs'
     else page_title_scan vs')%result
  end.

Definition page_title (page : json) : result str :=
  (props <- py_get page (u8 "properties") (JObj []) ;;
   vs <- py_values props ;;
   page_title_scan vs)%result.

Definition DEFAULT_URL : str := u8 "https://www.notion.so".

Definition page_url (page : json) : result json :=
  py_get page (u8 "url") (JStr DEFAULT_URL).

Definition obj (kvs : list (string * json)) : json :=
  JObj (map (fun kv => (u8 (fst kv), snd kv)) kvs).

Definition mrkdwn (text : str) : json :=
  obj [("type"%string, JStr (u8 "mrkdwn")); ("text"%string, JStr text)].

Definition divider : json := obj [("type"%string, JStr (u8 "divider"))].

Definition section_text (text : str) : json :=
  obj [("type"%string, JStr (u8 "section")); ("text"%string, mrkdwn text)].

Definition section_fields (fields : list json) : json :=
  obj [("type"%string, JStr (u8 "section")); ("fields"%string, JArr fields)].

Definition page_blocks (url created : json) (title : str) : list json :=
  [ section_text (u8 "*새 페이지가 생성되었습니다*");
    section_fields
      [ mrkdwn (u8 "*제목:*" ++ [LF] ++ u8 "<" ++ py_format url ++ u8 "|"
                  ++ title ++ u8 ">");
        mrkdwn (u8 "*생성시각 (UTC):*" ++ [LF] ++ py_format created) ];
    divider ].

Definition format_page_block (page : json) : result (list json) :=
  (title <- page_title page ;;
   url <- page_url page ;;
   created <- py_get page (u8 "created_time") (JStr []) ;;
   Ok (page_blocks url created title))%result.

(** ["k" in data and data["k"]]: the second operand is only evaluated when
    the key is present. *)
Definition in_and_truthy (k : str) (d : pydict) : bool :=
  match dict_get k d with
  | Some v => truthy v
  | None => false
  end.

(** [data["k"]]. *)
Definition py_item (d : pydict) (k : str) : result json :=
  match dict_get k d with
  | Some v => Ok v
  | None => Raise KeyError
  end.

(** The preview text of [format_block_item]: the value of [txt] after the
    [isinstance(data, dict)] block. *)
Definition block_txt (data : json) : result str :=
  match data with
  | JObj d =>
    if in_and_truthy (u8 "rich_text") d then
      (rt <- py_item d (u8 "rich_text") ;;
       s <- plain_texts rt ;;
       Ok (firstn 200 s))%result
    else if in_and_truthy (u8 "text") d then
      (t <- py_item d (u8 "text") ;;
       s <- plain_texts t ;;
       Ok (firstn 200 s))%result
    else Ok []
  | _ => Ok []
  end.

(** [txt or '(텍스트 없음)']. *)
Definition preview (txt : str) : str :=
  match txt with
  | [] => NO_TEXT
  | _ => txt
  end.

Definition block_blocks (btype created : json) (txt : str) : list json :=
  [ section_text (u8 "*페이지 내 새 블록 추가*");
    section_fields
      [ mrkdwn (u8 "*블록 타입:*" ++ [LF] ++ u8 "`" ++ py_format btype ++ u8 "`");
        mrkdwn (u8 "*생성시각 (UTC):*" ++ [LF] ++ py_format created) ];
    section_text (u8 "*내용 미리보기:*" ++ [LF] ++ preview txt);
    divider ].

Definition format_block_item (block : json) : result (list json) :=
  (btype <- py_get block (u8 "type") JNull ;;
   created <- py_get block (u8 "created_time") (JStr []) ;;
   data <- py_get_dyn block btype (JObj []) ;;
   txt <- block_txt data ;;
   Ok (block_blocks btype created txt))%result.

End Formatting.

(* ================================================================== *)
(** ** [json.dump(state, f, ensure_ascii=False, indent=2)]

    The encoder is CPython's [json.encoder._make_iterencode], which yields
    the document as a sequence of chunks; [json.dump] writes them to the
    file one by one. *)

Definition hex_digit (n : N) : char := if n <? 10 then 48 + n else 87 + n.

(** [ESCAPE_DCT]: the characters matched by [ESCAPE] and their
    replacements.  With [ensure_ascii=False] nothing else is escaped. *)
Definition escape_char (c : char) : str :=
  if c =? 34 then [92; 34]
  else if c =? 92 then [92; 92]
  else if c =? 8 then [92; 98]
  else if c =? 12 then [92; 102]
  else if c =? 10 then [92; 110]
  else if c =? 13 then [92; 114]
  else if c =? 9 then [92; 116]
  else if c <? 32 then [92; 117; 48; 48; hex_digit (c / 16); hex_digit (c mod 16)]
  else [c].

Definition encode_basestring (s : str) : str :=
  QUOTE :: flat_map escape_char s ++ [QUOTE].

Definition newline_indent (level : nat) : str :=
  LF :: repeat 32 (2 * level)%nat.

(** The values the encoder renders in one piece. *)
Definition scalar_text (v : json) : option str :=
  match v with
  | JStr s => Some (encode_basestring s)
  | JNull => Some (u8 "null")
  | JBool true => Some (u8 "true")
  | JBool false => Some (u8 "false")
  | JInt z => Some (int_repr z)
  | JArr _ | JObj _ => None
  end.

(** The loop of [_iterencode_list]: [buf] is what precedes the next
    item, the opening bracket for the first and [sep] for the others. *)
Fixpoint encode_items (enc : json -> list str) (sep : str)
    (lst : list json) (buf : str) : list str :=
  match lst with
  | [] => []
  | value :: rest =>
    match scalar_text value with
    | Some t => [buf ++ t]
    | None => buf :: enc value
    end ++ encode_items enc sep rest sep
  end.

(** The loop of [_iterencode_dict]. *)
Fixpoint encode_members (enc : json -> list str) (sep : str)
    (items : pydict) (first : bool) : list str :=
  match items with
  | [] => []
  | (key, value) :: rest =>
    (if first then [] else [sep])
    ++ [encode_basestring key; u8 ": "]
    ++ match scalar_text value with
       | Some t => [t]
       | None => enc value
       end
    ++ encode_members enc sep rest false
  end.

Fixpoint iterencode (o : json) (level : nat) {struct o} : list str :=
  match o with
  | JStr _ | JNull | JBool _ | JInt _ =>
    match scalar_text o with Some t => [t] | None => [] end
  | JArr [] => [u8 "[]"]
  | JArr lst =>
    encode_items (fun v => iterencode v (S level))
                 (u8 "," ++ newline_indent (S level))
                 lst (u8 "[" ++ newline_indent (S level))
    ++ [newline_indent level; u8 "]"]
  | JObj [] => [u8 "{}"]
  | JObj dct =>
    u8 "{" :: newline_indent (S level) ::
    encode_members (fun v => iterencode v (S level))
                   (u8 "," ++ newline_indent (S level))
                   dct true
    ++ [newline_indent level; u8 "}"]
  end.

(** [json.dumps]: the chunks joined. *)
Definition json_dumps (o : json) : str := concat (iterencode o 0).

(** A text file opened with [encoding="utf-8"] cannot take a lone
    surrogate: [write] raises [UnicodeEncodeError] for the whole chunk. *)
Definition is_surrogate (c : char) : bool := (55296 <=? c) && (c <=? 57343).

Definition encodable (s : str) : bool :=
  forallb (fun c => negb (is_surrogate c)) s.

(** [for chunk in iterable: fp.write(chunk)], from a file holding
    [written]; returns what the file holds when it is closed. *)
Fixpoint write_chunks (chunks : list str) (written : str) : str * result unit :=
  match chunks with
  | [] => (written, Ok tt)
  | c :: r =>
    if encodable c then write_chunks r (written ++ c)
    else (written, Raise UnicodeEncodeError)
  end.

(* ================================================================== *)
(** ** [json.load(f)]

    The decoder follows CPython's scanner ([json.scanner], [json.decoder]
    and their C accelerators). *)

Definition is_ws (c : char) : bool :=
  (c =? 32) || (c =? 9) || (c =? 10) || (c =? 13).

Fixpoint skip_ws (s : str) : str :=
  match s with
  | c :: r => if is_ws c then skip_ws r else s
  | [] => []
  end.

Definition is_digit (c : char) : bool := (48 <=? c) && (c <=? 57).

Definition hex_val (c : char) : option N :=
  if (48 <=? c) && (c <=? 57) then Some (c - 48)
  else if (97 <=? c) && (c <=? 102) then Some (c - 87)
  else if (65 <=? c) && (c <=? 70) then Some (c - 55)
  else None.

Definition hex4 (a b c d : char) : option N :=
  match hex_val a, hex_val b, hex_val c, hex_val d with
  | Some x, Some y, Some z, Some w => Some (((x * 16 + y) * 16 + z) * 16 + w)
  | _, _, _, _ => None
  end.

Definition is_high_surrogate (c : N) : bool := (55296 <=? c) && (c <=? 56319).
Definition is_low_surrogate (c : N) : bool := (56320 <=? c) && (c <=? 57343).
Definition join_surrogates (hi lo : N) : N :=
  65536 + ((hi - 55296) * 1024 + (lo - 56320)).

(** The one-character escapes of [BACKSLASH]. *)
Definition unescape (c : char) : option char :=
  if c =? 34 then Some 34
  else if c =? 92 then Some 92
  else if c =? 47 then Some 47
  else if c =? 98 then Some 8
  else if c =? 102 then Some 12
  else if c =? 110 then Some 10
  else if c =? 114 then Some 13
  else if c =? 116 then Some 9
  else None.

Definition push (c : char) (r : result (str * str)) : result (str * str) :=
  match r with
  | Ok (s, rest) => Ok (c :: s, rest)
  | Raise e => Raise e
  end.

(** [scanstring] in strict mode, from just after the opening quote: the
    decoded string and the text after the closing quote. *)
Fixpoint scanstring (s : str) : result (str * str) :=
  match s with
  | [] => Raise JSONDecodeError
  | c :: r =>
    if c =? 34 then Ok ([], r)
    else if c =? 92 then
      match r with
      | [] => Raise JSONDecodeError
      | e :: r1 =>
        if e =? 117 then
          match r1 with
          | h1 :: h2 :: h3 :: h4 :: r2 =>
            match hex4 h1 h2 h3 h4 with
            | None => Raise JSONDecodeError
            | Some u =>
              if is_high_surrogate u then
                match r2 with
                | b :: e' :: g1 :: g2 :: g3 :: g4 :: r3 =>
                  if (b =? 92) && (e' =? 117) then
                    match hex4 g1 g2 g3 g4 with
                    | Some u2 =>
                      if is_low_surrogate u2
                      then push (join_surrogates u u2) (scanstring r3)
                      else push u (scanstring r2)
                    | None => push u (scanstring r2)
                    end
                  else push u (scanstring r2)
                | _ => push u (scanstring r2)
                end
              else push u (scanstring r2)
            end
          | _ => Raise JSONDecodeError
          end
        else
          match unescape e with
          | Some x => push x (scanstring r1)
          | None => Raise JSONDecodeError
          end
      end
    else if c <? 32 then Raise JSONDecodeError
    else push c (scanstring r)
  end.

Fixpoint strip_prefix (p s : str) : option str :=
  match p, s with
  | [], _ => Some s
  | x :: p', y :: s' => if x =? y then strip_prefix p' s' else None
  | _ :: _, [] => None
  end.

(** The digits at the head of [s], as a number, and the rest. *)
Fixpoint scan_digits (s : str) (acc : Z) : Z * str :=
  match s with
  | c :: r =>
    if is_digit c then scan_digits r (10 * acc + Z.of_N (c - 48))%Z
    else (acc, s)
  | [] => (acc, [])
  end.

(** Whether a fraction or an exponent follows the integer part. *)
Definition float_follows (s : str) : bool :=
  match s with
  | c :: d :: r =>
    if c =? 46 then is_digit d
    else if (c =? 101) || (c =? 69) then
      is_digit d ||
      (((d =? 43) || (d =? 45)) &&
       match r with d' :: _ => is_digit d' | [] => false end)
    else false
  | _ => false
  end.

(** [NUMBER_RE] on the text after an optional minus sign. *)
Definition scan_number (negative : bool) (s : str) : result (json * str) :=
  match s with
  | c :: r =>
    if c =? 48 then
      if float_follows r then Raise FloatOutsideModel else Ok (JInt 0, r)
    else if is_digit c then
      let '(n, rest) := scan_digits s 0%Z in
      if float_follows rest then Raise FloatOutsideModel
      else Ok (JInt (if negative then - n else n)%Z, rest)
    else Raise JSONDecodeError
  | [] => Raise JSONDecodeError
  end.

Definition expect (lit : str) (v : json) (s : str) : result (json * str) :=
  match strip_prefix lit s with
  | Some rest => Ok (v, rest)
  | None => Raise JSONDecodeError
  end.

(** [scan_once], [JSONObject] and [JSONArray].  [fuel] bounds the chain
    of calls; [json_loads] passes enough of it for any text, so the marker
    [RecursionError] of an exhausted budget is never seen (the recursion
    limit of CPython is not modelled). *)
Fixpoint scan_once (fuel : nat) (s : str) {struct fuel} : result (json * str) :=
  match fuel with
  | O => Raise RecursionError
  | S fuel' =>
    match s with
    | [] => Raise JSONDecodeError
    | c :: r =>
      if c =? 34 then
        match scanstring r with
        | Ok (x, rest) => Ok (JStr x, rest)
        | Raise e => Raise e
        end
      else if c =? 123 then
        let r0 := skip_ws r in
        match r0 with
        | c0 :: r1 =>
          if c0 =? 125 then Ok (JObj [], r1) else parse_members fuel' r0 []
        | [] => Raise JSONDecodeError
        end
      else if c =? 91 then
        let r0 := skip_ws r in
        match r0 with
        | c0 :: r1 =>
          if c0 =? 93 then Ok (JArr [], r1) else parse_elements fuel' r0 []
        | [] => Raise JSONDecodeError
        end
      else if c =? 110 then expect (u8 "ull") JNull r
      else if c =? 116 then expect (u8 "rue") (JBool true) r
      else if c =? 102 then expect (u8 "alse") (JBool false) r
      else if c =? 78 then
        match strip_prefix (u8 "aN") r with
        | Some _ => Raise FloatOutsideModel
        | None => Raise JSONDecodeError
        end
      else if c =? 73 then
        match strip_prefix (u8 "nfinity") r with
        | Some _ => Raise FloatOutsideModel
        | None => Raise JSONDecodeError
        end
      else if c =? 45 then
        match strip_prefix (u8 "Infinity") r with
        | Some _ => Raise FloatOutsideModel
        | None => scan_number true r
        end
      else scan_number false s
    end
  end

(** The loop of [JSONObject], at a property name; [acc] holds the pairs
    read so far. *)
with parse_members (fuel : nat) (s : str) (acc : pydict) {struct fuel}
  : result (json * str) :=
  match fuel with
  | O => Raise RecursionError
  | S fuel' =>
    match s with
    | c :: r =>
      if c =? 34 then
        match scanstring r with
        | Raise e => Raise e
        | Ok (key, r1) =>
          match skip_ws r1 with
          | c1 :: r2 =>
            if c1 =? 58 then
              match scan_once fuel' (skip_ws r2) with
              | Raise e => Raise e
              | Ok (value, r3) =>
                let acc' := dict_set key value acc in
                match skip_ws r3 with
                | c3 :: r4 =>
                  if c3 =? 125 then Ok (JObj acc', r4)
                  else if c3 =? 44 then parse_members fuel' (skip_ws r4) acc'
                  else Raise JSONDecodeError
                | [] => Raise JSONDecodeError
                end
              end
            else Raise JSONDecodeError
          | [] => Raise JSONDecodeError
          end
        end
      else Raise JSONDecodeError
    | [] => Raise JSONDecodeError
    end
  end

(** The loop of [JSONArray], at a value; [acc] holds the values read so
    far, last first. *)
with parse_elements (fuel : nat) (s : str) (acc : list json) {struct fuel}
  : result (json * str) :=
  match fuel with
  | O => Raise RecursionError
  | S fuel' =>
    match scan_once fuel' s with
    | Raise e => Raise e
    | Ok (value, r1) =>
      match skip_ws r1 with
      | c1 :: r2 =>
        if c1 =? 93 then Ok (JArr (rev (value :: acc)), r2)
        else if c1 =? 44 then parse_elements fuel' (skip_ws r2) (value :: acc)
        else Raise JSONDecodeError
      | [] => Raise JSONDecodeError
      end
    end
  end.

Definition starts_with_bom (s : str) : bool :=
  match s with
  | c :: _ => c =? 65279
  | [] => false
  end.

(** [json.loads]: no byte-order mark, one value, nothing but white space
    around it. *)
Definition json_loads (s : str) : result json :=
  if starts_with_bom s then Raise JSONDecodeError
  else
    match scan_once (2 * length s + 2) (skip_ws s) with
    | Raise e => Raise e
    | Ok (v, rest) =>
      match skip_ws rest with
      | [] => Ok v
      | _ :: _ => Raise JSONDecodeError
      end
    end.

(** Reading a text file opened with the default [newline=None] turns
    [\r\n] and [\r] into [\n]. *)
Fixpoint universal_newlines (s : str) : str :=
  match s with
  | [] => []
  | c :: r =>
    if c =? 13 then
      match r with
      | d :: r' => if d =? 10 then 10 :: universal_newlines r'
                   else 10 :: universal_newlines r
      | [] => [10]
      end
    else c :: universal_newlines r
  end.

(* ================================================================== *)
(** ** The outside world *)

Inductive http_method : Type := GET | POST.

(** The arguments of [requests.get] / [requests.post]. *)
Record request : Type := {
  rq_method : http_method;
  rq_url : str;
  rq_headers : list (str * str);
  rq_json : option json;
  rq_timeout : Z
}.

(** What the script reads of a [requests.Response]: the status code and
    the value (or the exception) of [resp.json()]. *)
Record response : Type := {
  status_code : Z;
  resp_json : result json
}.

(** [Response.raise_for_status] of [requests]: a 4xx status is a client
    error, a 5xx status a server error, and only those raise. *)
Definition raise_for_status (r : response) : result unit :=
  if ((400 <=? status_code r) && (status_code r <? 600))%Z
  then Raise HTTPError else Ok tt.

(** A [datetime]: wall-clock microseconds, and the UTC offset of an aware
    value ([None] for a naive one). *)
Record datetime : Type := {
  wall : Z;
  utcoffset : option Z
}.

Definition utc (t : Z) : datetime := {| wall := t; utcoffset := Some 0%Z |}.

(** [a > b] on datetimes: instants are compared; mixing naive and aware
    values raises. *)
Definition dt_gt (a b : datetime) : result bool :=
  match utcoffset a, utcoffset b with
  | Some oa, Some ob => Ok (wall b - ob <? wall a - oa)%Z
  | None, None => Ok (wall b <? wall a)%Z
  | _, _ => Raise TypeError
  end.

(** Everything the script takes from its environment: the network, the
    clock, library functions whose code is not the script's, and the
    configuration read from environment variables at import time. *)
Class Platform : Type := {
  world : Type;
  (** [requests.get] / [requests.post]: the remote end answers, or the
      transport raises. *)
  http_send : world -> request -> world * result response;
  (** [datetime.now(timezone.utc)], in microseconds. *)
  clock : world -> world * Z;
  (** [datetime.isoformat]. *)
  isoformat : datetime -> str;
  (** [dateutil.parser.parse]. *)
  dtparse : json -> result datetime;
  (** [repr] of a list or dict, for f-strings. *)
  py_repr : json -> str;
  (** The order in which a set holding these items enumerates them. *)
  set_order : list json -> list json;
  NOTION_API_KEY : str;
  SLACK_WEBHOOK_URL : str;
  DB_IDS : list str;
  PAGE_IDS : list str
}.

(** Where a request comes from, and which phase of the run an item
    belongs to. *)
Inductive endpoint : Type := Slack | Notion.
Inductive phase : Type := Pages | Blocks.

(** The observable history of a run.  [EvFetched], [EvFormat] and
    [EvSave] record calls inside the script: what a source-client function
    returned, which item was handed to the formatter, and the call of
    [save_state]. *)
Inductive event : Type :=
| EvClock (t : Z)
| EvHttp (ep : endpoint) (rq : request) (rs : result response)
| EvFetched (ph : phase) (items : list json)
| EvFormat (ph : phase) (item : json)
| EvSave (state : json).

(* ================================================================== *)
(** ** Hashable values and sets *)

Inductive hkey : Type :=
| KNone
| KNum (z : Z)
| KStr (s : str).

(** The hash key of a value: [True == 1] and [False == 0] as set members;
    lists and dicts are unhashable. *)
Definition key_of (v : json) : option hkey :=
  match v with
  | JNull => Some KNone
  | JBool b => Some (KNum (if b then 1 else 0))
  | JInt z => Some (KNum z)
  | JStr s => Some (KStr s)
  | JArr _ | JObj _ => None
  end.

Definition hkey_eqb (a b : hkey) : bool :=
  match a, b with
  | KNone, KNone => true
  | KNum x, KNum y => Z.eqb x y
  | KStr s, KStr t => str_eqb s t
  | _, _ => false
  end.

(** A set is the list of its members in insertion order. *)
Definition pyset := list json.

Definition set_keys (s : pyset) : list hkey :=
  flat_map (fun v => match key_of v with Some k => [k] | None => [] end) s.

Definition key_in (k : hkey) (s : pyset) : bool :=
  existsb (hkey_eqb k) (set_keys s).

(** [v in s]. *)
Definition set_contains (v : json) (s : pyset) : result bool :=
  match key_of v with
  | Some k => Ok (key_in k s)
  | None => Raise TypeError
  end.

(** [s.add(v)]. *)
Definition set_add (v : json) (s : pyset) : result pyset :=
  match key_of v with
  | Some k => Ok (if key_in k s then s else s ++ [v])
  | None => Raise TypeError
  end.

Fixpoint set_add_all (items : list json) (s : pyset) : result pyset :=
  match items with
  | [] => Ok s
  | v :: r => (s' <- set_add v s ;; set_add_all r s')%result
  end.

(** [set(v)]. *)
Definition py_set (v : json) : result pyset :=
  (items <- py_iter v ;; set_add_all items [])%result.

(** [d[k] = v] on a value. *)
Definition py_setitem (d : json) (k : str) (v : json) : result json :=
  match d with
  | JObj kvs => Ok (JObj (dict_set k v kvs))
  | _ => Raise TypeError
  end.

(* ================================================================== *)
(** ** The monad of the script *)

Inductive outcome (A : Type) : Type :=
| Done (a : A)
| Threw (e : exn)
| Running.      (* a [while True] loop that outlives its budget *)
Arguments Done {A} a.
Arguments Threw {A} e.
Arguments Running {A}.

Section Script.

Context `{Platform}.

(** The state a run threads: the world, the text of the checkpoint file
    ([None] when [STATE_PATH] does not exist) and the history so far. *)
Record pstate : Type := {
  st_world : world;
  st_disk : option str;
  st_log : list event
}.

Definition M (A : Type) : Type := pstate -> pstate * outcome A.

Definition ret {A} (a : A) : M A := fun s => (s, Done a).

Definition bind {A B} (m : M A) (f : A -> M B) : M B :=
  fun s =>
    match m s with
    | (s', Done a) => f a s'
    | (s', Threw e) => (s', Threw e)
    | (s', Running) => (s', Running)
    end.

Definition lift {A} (r : result A) : M A :=
  fun s => (s, match r with Ok a => Done a | Raise e => Threw e end).

Definition spin {A} : M A := fun s => (s, Running).

Definition emit (ev : event) : M unit :=
  fun s => ({| st_world := st_world s; st_disk := st_disk s;
               st_log := st_log s ++ [ev] |}, Done tt).

End Script.

Declare Scope script_scope.
Delimit Scope script_scope with script.
Notation "x <- m ;; k" := (bind m (fun x => k))
  (at level 61, m at next level, right associativity) : script_scope.
Notation "m ;; k" := (bind m (fun _ => k))
  (at level 61, right associativity) : script_scope.

Section Script.

Context `{Platform}.
Local Open Scope script_scope.

Fixpoint foldM {A B} (f : B -> A -> M B) (l : list A) (b : B) : M B :=
  match l with
  | [] => ret b
  | x :: l' => b' <- f b x ;; foldM f l' b'
  end.

(** One HTTP exchange; a transport failure raises in the caller. *)
Definition http (ep : endpoint) (rq : request) : M response :=
  fun s =>
    let '(w, rs) := http_send (st_world s) rq in
    ({| st_world := w; st_disk := st_disk s;
        st_log := st_log s ++ [EvHttp ep rq rs] |},
     match rs with Ok r => Done r | Raise e => Threw e end).

Definition now : M datetime :=
  fun s =>
    let '(w, t) := clock (st_world s) in
    ({| st_world := w; st_disk := st_disk s;
        st_log := st_log s ++ [EvClock t] |}, Done (utc t)).

(* ================================================================== *)
(** ** The script *)

(** The checkpoint file; [st_disk] is its content. *)
Definition STATE_PATH : str := u8 "state/notion_state.json".

Definition NOTION_BASE : str := u8 "https://api.notion.com/v1".

Definition NOTION_HEADERS : list (str * str) :=
  [ (u8 "Authorization", u8 "Bearer " ++ NOTION_API_KEY);
    (u8 "Notion-Version", u8 "2022-06-28");
    (u8 "Content-Type", u8 "application/json") ].

Definition EMPTY_STATE : json :=
  obj [("last_checked"%string, JNull); ("seen_ids"%string, JArr [])].

(** What [load_state] returns for a given content of the disk. *)
Definition read_state (disk : option str) : result json :=
  match disk with
  | None => Ok EMPTY_STATE
  | Some text => json_loads (universal_newlines text)
  end.

Definition load_state : M json :=
  fun s => lift (read_state (st_disk s)) s.

(** [open(STATE_PATH, "w")] truncates the file, then the chunks of the
    document are written (on POSIX, writing does not translate newlines). *)
Definition save_state (state : json) : M unit :=
  fun s =>
    let '(written, r) := write_chunks (iterencode state 0) [] in
    lift r {| st_world := st_world s; st_disk := Some written;
              st_log := st_log s ++ [EvSave state] |}.

Definition now_iso : M str :=
  t <- now ;; ret (isoformat t).

Definition slack_payload (text : str) (blocks : list json) : json :=
  let payload := [(u8 "text", JStr text)] in
  JObj (if truthy (JArr blocks)
        then dict_set (u8 "blocks") (JArr blocks) payload
        else payload).

Definition slack_request (text : str) (blocks : list json) : request :=
  {| rq_method := POST; rq_url := SLACK_WEBHOOK_URL; rq_headers := [];
     rq_json := Some (slack_payload text blocks); rq_timeout := 15 |}.

Definition slack_post (text : str) (blocks : list json) : M unit :=
  resp <- http Slack (slack_request text blocks) ;;
  lift (raise_for_status resp).

Definition created_filter (after_iso : json) : json :=
  obj [("timestamp"%string, JStr (u8 "created_time"));
       ("created_time"%string, obj [("after"%string, after_iso)])].

Definition query_payload (after_iso : json) : pydict :=
  let payload :=
    [(u8 "page_size", JInt 50);
     (u8 "sorts",
      JArr [obj [("timestamp"%string, JStr (u8 "created_time"));
                 ("direction"%string, JStr (u8 "ascending"))]])] in
  if truthy after_iso
  then dict_set (u8 "filter") (created_filter after_iso) payload
  else payload.

Definition query_request (url : str) (payload : pydict) : request :=
  {| rq_method := POST; rq_url := url; rq_headers := NOTION_HEADERS;
     rq_json := Some (JObj payload); rq_timeout := 30 |}.

(** The [while True] loop of [query_new_db_pages]; [fuel] bounds the
    number of requests. *)
Fixpoint query_loop (fuel : nat) (url : str) (payload : pydict)
    (results : list json) : M (list json) :=
  match fuel with
  | O => spin
  | S fuel' =>
    resp <- http Notion (query_request url payload) ;;
    lift (raise_for_status resp) ;;
    data <- lift (resp_json resp) ;;
    r <- lift (py_get data (u8 "results") (JArr [])) ;;
    items <- lift (py_iter r) ;;
    has_more <- lift (py_get data (u8 "has_more") JNull) ;;
    if negb (truthy has_more) then ret (results ++ items)
    else
      next_cursor <- lift (py_get data (u8 "next_cursor") JNull) ;;
      query_loop fuel' url (dict_set (u8 "start_cursor") next_cursor payload)
                 (results ++ items)
  end.

Definition query_url (db_id : str) : str :=
  NOTION_BASE ++ u8 "/databases/" ++ db_id ++ u8 "/query".

Definition query_new_db_pages (fuel : nat) (db_id : str) (after_iso : json)
  : M (list json) :=
  results <- query_loop fuel (query_url db_id) (query_payload after_iso) [] ;;
  emit (EvFetched Pages results) ;;
  ret results.

Definition list_request (url : str) : request :=
  {| rq_method := GET; rq_url := url; rq_headers := NOTION_HEADERS;
     rq_json := None; rq_timeout := 30 |}.

(** [after_dt is None or ctime > after_dt] for one block. *)
Definition is_new_block (after_dt : option datetime) (blk : json) : result bool :=
  (created <- py_get blk (u8 "created_time") JNull ;;
   ctime <- dtparse created ;;
   match after_dt with
   | None => Ok true
   | Some a => dt_gt ctime a
   end)%result.

(** The [for blk in ...] loop of [list_new_blocks]. *)
Fixpoint keep_new_blocks (after_dt : option datetime) (blks out : list json)
  : result (list json) :=
  match blks with
  | [] => Ok out
  | blk :: r =>
    (keep <- is_new_block after_dt blk ;;
     keep_new_blocks after_dt r (if keep then out ++ [blk] else out))%result
  end.

Definition blocks_url (page_id : str) : str :=
  NOTION_BASE ++ u8 "/blocks/" ++ page_id ++ u8 "/children?page_size=100".

Definition blocks_url_from (page_id : str) (next_cursor : json) : str :=
  NOTION_BASE ++ u8 "/blocks/" ++ page_id ++ u8 "/children?start_cursor="
    ++ py_format py_repr next_cursor ++ u8 "&page_size=100".

(** The [while True] loop of [list_new_blocks]. *)
Fixpoint list_loop (fuel : nat) (page_id url : str)
    (after_dt : option datetime) (out : list json) : M (list json) :=
  match fuel with
  | O => spin
  | S fuel' =>
    resp <- http Notion (list_request url) ;;
    lift (raise_for_status resp) ;;
    data <- lift (resp_json resp) ;;
    r <- lift (py_get data (u8 "results") (JArr [])) ;;
    blks <- lift (py_iter r) ;;
    out' <- lift (keep_new_blocks after_dt blks out) ;;
    has_more <- lift (py_get data (u8 "has_more") JNull) ;;
    if negb (truthy has_more) then ret out'
    else
      next_cursor <- lift (py_get data (u8 "next_cursor") JNull) ;;
      list_loop fuel' page_id (blocks_url_from page_id next_cursor)
                after_dt out'
  end.

Definition list_new_blocks (fuel : nat) (page_id : str)
    (after_dt : option datetime) : M (list json) :=
  out <- list_loop fuel page_id (blocks_url page_id) after_dt [] ;;
  emit (EvFetched Blocks out) ;;
  ret out.

Definition format_item (ph : phase) (item : json) : result (list json) :=
  match ph with
  | Pages => format_page_block py_repr item
  | Blocks => format_block_item py_repr item
  end.

Definition post_text (ph : phase) : str :=
  match ph with
  | Pages => u8 "Notion 새 페이지"
  | Blocks => u8 "Notion 새 블록"
  end.

(** The body of the two [for] loops of [main] over fetched items: skip a
    seen identifier, otherwise format, post and mark as seen. *)
Definition notify (ph : phase) (seen_ids : pyset) (item : json) : M pyset :=
  id <- lift (py_get item (u8 "id") JNull) ;;
  seen <- lift (set_contains id seen_ids) ;;
  if seen then ret seen_ids
  else
    emit (EvFormat ph item) ;;
    blocks <- lift (format_item ph item) ;;
    slack_post (post_text ph) blocks ;;
    lift (set_add id seen_ids).

Definition scan_databases (fuel : nat) (last_checked_iso : json)
    (seen_ids : pyset) : M pyset :=
  foldM (fun seen dbid =>
           pages <- query_new_db_pages fuel dbid last_checked_iso ;;
           foldM (notify Pages) pages seen)
        DB_IDS seen_ids.

Definition scan_pages (fuel : nat) (last_checked_iso : json)
    (seen_ids : pyset) : M pyset :=
  match PAGE_IDS with
  | [] => ret seen_ids
  | _ :: _ =>
    after_dt <- (if truthy last_checked_iso
                 then dt <- lift (dtparse last_checked_iso) ;; ret (Some dt)
                 else ret None) ;;
    foldM (fun seen pgid =>
             blks <- list_new_blocks fuel pgid after_dt ;;
             foldM (notify Blocks) blks seen)
          PAGE_IDS seen_ids
  end.

(** [main] up to, and without, the state update: everything that can
    fetch or post.  The flag [any_posted] is written and never read. *)
Definition poll (fuel : nat) (state : json) : M pyset :=
  last_checked <- lift (py_get state (u8 "last_checked") JNull) ;;
  ids <- lift (py_get state (u8 "seen_ids") (JArr [])) ;;
  seen_ids <- lift (py_set ids) ;;
  last_checked_iso <-
    (if negb (truthy last_checked)
     then t <- now ;; ret (JStr (isoformat t))
     else ret last_checked) ;;
  seen_ids <- scan_databases fuel last_checked_iso seen_ids ;;
  scan_pages fuel last_checked_iso seen_ids.

Definition update_state (state : json) (seen_ids : pyset) : M json :=
  t <- now_iso ;;
  state <- lift (py_setitem state (u8 "last_checked") (JStr t)) ;;
  lift (py_setitem state (u8 "seen_ids") (JArr (set_order seen_ids))).

Definition main (fuel : nat) : M unit :=
  state <- load_state ;;
  seen_ids <- poll fuel state ;;
  state <- update_state state seen_ids ;;
  save_state state.

(** A run of the script from a world and a checkpoint file. *)
Definition run (fuel : nat) (w : world) (disk : option str)
  : pstate * outcome unit :=
  main fuel {| st_world := w; st_disk := disk; st_log := [] |}.

End Script.

(* ================================================================== *)
(** ** Vocabulary of the specification: records and content units *)

Definition is_dict (v : json) : bool :=
  match v with JObj _ => true | _ => false end.

(** A property whose ["type"] is ["title"]. *)
Definition is_title_prop (v : json) : bool :=
  match py_get v (u8 "type") JNull with
  | Ok ty => py_eq_str ty (u8 "title")
  | Raise _ => false
  end.

Definition plain_prop (kv : str * json) : Prop :=
  is_dict (snd kv) = true /\ is_title_prop (snd kv) = false.

(** A rich-text run whose plain text is [t]. *)
Definition run_text (r : json) (t : str) : Prop :=
  py_get r (u8 "plain_text") (JStr []) = Ok (JStr t).

(** The record's only title-type property has the rich-text runs
    [texts]. *)
Definition title_runs (page : json) (texts : list str) : Prop :=
  exists kvs props before name v after runs,
    page = JObj kvs /\
    dict_get (u8 "properties") kvs = Some (JObj props) /\
    props = before ++ (name, v) :: after /\
    Forall plain_prop (before ++ after) /\
    is_title_prop v = true /\
    py_get v (u8 "title") (JArr []) = Ok (JArr runs) /\
    Forall2 run_text runs texts.

(** The record has no title-type property at all. *)
Definition no_title_prop (page : json) : Prop :=
  exists props,
    py_get page (u8 "properties") (JObj []) = Ok (JObj props) /\
    Forall plain_prop props.

(** The title shown for a concatenated title text. *)
Definition shown_title (s : str) : str :=
  match firstn 120 s with
  | [] => NO_TITLE
  | t => t
  end.

(** A record as the API delivers it, as far as [page_title] looks: the
    properties are dicts, and a title is a list of runs whose plain text,
    when present, is a string. *)
Definition wf_run (r : json) : bool :=
  match r with
  | JObj d =>
    match dict_get (u8 "plain_text") d with
    | Some (JStr _) | None => true
    | Some _ => false
    end
  | _ => false
  end.

Definition wf_prop (v : json) : bool :=
  match v with
  | JObj d =>
    if is_title_prop v then
      match dict_get (u8 "title") d with
      | Some (JArr runs) => forallb wf_run runs
      | Some rich => negb (truthy rich)
      | None => true
      end
    else true
  | _ => false
  end.

Definition wf_record (page : json) : bool :=
  match page with
  | JObj kvs =>
    match dict_get (u8 "properties") kvs with
    | Some (JObj props) => forallb wf_prop (map snd props)
    | Some _ => false
    | None => true
    end
  | _ => false
  end.

(** The record (a dict) has no field [k]. *)
Definition lacks_field (k : str) (page : json) : Prop :=
  exists kvs, page = JObj kvs /\ dict_get k kvs = None.

(** The type-specific payload of a content unit. *)
Definition block_data (block : json) (d : pydict) : Prop :=
  exists kvs ty,
    block = JObj kvs /\
    dict_get (u8 "type") kvs = Some (JStr ty) /\
    dict_get ty kvs = Some (JObj d).

Definition field_empty (k : str) (d : pydict) : Prop :=
  in_and_truthy k d = false.

(** The third block of a content-unit payload shows the preview. *)
Definition preview_section (shown : str) : json :=
  section_text (u8 "*내용 미리보기:*" ++ [LF] ++ shown).

Definition payload_preview (blocks : list json) : option json :=
  nth_error blocks 2.

(** The title field of a record payload, with its link target. *)
Definition title_field (url title : str) : json :=
  mrkdwn (u8 "*제목:*" ++ [LF] ++ u8 "<" ++ url ++ u8 "|" ++ title ++ u8 ">").

Definition payload_title_field (blocks : list json) : option json :=
  match nth_error blocks 1 with
  | Some (JObj d) =>
    match dict_get (u8 "fields") d with
    | Some (JArr (f :: _)) => Some f
    | _ => None
    end
  | _ => None
  end.

(* ------------------------------------------------------------------ *)
(** *** Sample data *)

Definition sample_repr (v : json) : str := u8 "[...]".

Definition text_run (t : str) : json :=
  obj [("type"%string, JStr (u8 "text")); ("plain_text"%string, JStr t)].

Definition title_property (runs : list str) : json :=
  obj [("id"%string, JStr (u8 "title"));
       ("type"%string, JStr (u8 "title"));
       ("title"%string, JArr (map text_run runs))].

Definition select_property : json :=
  obj [("id"%string, JStr (u8 "s1")); ("type"%string, JStr (u8 "select"));
       ("select"%string, JNull)].

Definition hello_page : json :=
  obj [("id"%string, JStr (u8 "p-1"));
       ("created_time"%string, JStr (u8 "2024-05-01T10:00:00.000Z"));
       ("url"%string, JStr (u8 "https://www.notion.so/p-1"));
       ("properties"%string,
        JObj [(u8 "Status", select_property);
              (u8 "Name", title_property [u8 "Hello "; u8 "World"])])].

Definition untitled_page : json :=
  obj [("id"%string, JStr (u8 "p-2"));
       ("created_time"%string, JStr (u8 "2024-05-01T10:05:00.000Z"));
       ("properties"%string, JObj [(u8 "Status", select_property)])].

Definition long_page : json :=
  obj [("id"%string, JStr (u8 "p-3"));
       ("created_time"%string, JStr (u8 "2024-05-01T10:06:00.000Z"));
       ("url"%string, JStr (u8 "https://www.notion.so/p-3"));
       ("properties"%string,
        JObj [(u8 "Name", title_property [repeat 97 65%nat; repeat 98 65%nat])])].

Definition both_fields_block : json :=
  obj [("id"%string, JStr (u8 "b-1"));
       ("type"%string, JStr (u8 "paragraph"));
       ("created_time"%string, JStr (u8 "2024-05-01T10:07:00.000Z"));
       ("paragraph"%string,
        obj [("rich_text"%string, JArr [text_run (u8 "from rich_text")]);
             ("text"%string, JArr [text_run (u8 "from text")])])].

Definition bare_block : json :=
  obj [("id"%string, JStr (u8 "b-2"));
       ("type"%string, JStr (u8 "divider"));
       ("created_time"%string, JStr (u8 "2024-05-01T10:08:00.000Z"));
       ("divider"%string, JObj [])].

(* ================================================================== *)
(** ** Vocabulary of the specification: checkpoints *)

(** A checkpoint: the last-checked timestamp, if any, and the seen
    identifiers. *)
Record checkpoint : Type := {
  last_checked : option str;
  seen_ids : list str
}.

(** The dict the script keeps for a checkpoint. *)
Definition checkpoint_state (c : checkpoint) : json :=
  JObj [(u8 "last_checked",
         match last_checked c with Some t => JStr t | None => JNull end);
        (u8 "seen_ids", JArr (map JStr (seen_ids c)))].

(** Every string of the checkpoint can be written to a UTF-8 file. *)
Definition encodable_checkpoint (c : checkpoint) : Prop :=
  match last_checked c with Some t => encodable t = true | None => True end
  /\ Forall (fun id => encodable id = true) (seen_ids c).

(** What the script reads back from a state: the checkpoint it stands
    for, when it has the shape of one. *)
Fixpoint strings_of (items : list json) : option (list str) :=
  match items with
  | [] => Some []
  | JStr s :: r =>
    match strings_of r with Some l => Some (s :: l) | None => None end
  | _ :: _ => None
  end.

Definition state_checkpoint (state : json) : option checkpoint :=
  match py_get state (u8 "last_checked") JNull,
        py_get state (u8 "seen_ids") (JArr []) with
  | Ok ts, Ok (JArr items) =>
    match strings_of items with
    | Some ids =>
      match ts with
      | JNull => Some {| last_checked := None; seen_ids := ids |}
      | JStr t => Some {| last_checked := Some t; seen_ids := ids |}
      | _ => None
      end
    | None => None
    end
  | _, _ => None
  end.

(** The text of an encoded checkpoint, chunk by chunk. *)
(** The identifiers after the first, each behind its separator. *)
Definition more_ids (ids : list str) : str :=
  concat (map (fun id => (u8 "," ++ newline_indent 2) ++ encode_basestring id) ids).

Definition timestamp_json (c : checkpoint) : json :=
  match last_checked c with Some t => JStr t | None => JNull end.

Definition timestamp_text (c : checkpoint) : str :=
  match last_checked c with Some t => encode_basestring t | None => u8 "null" end.

Definition ids_chunks (ids : list str) : list str :=
  match ids with
  | [] => [u8 "[]"]
  | id :: rest =>
    ((u8 "[" ++ newline_indent 2) ++ encode_basestring id)
      :: map (fun i => (u8 "," ++ newline_indent 2) ++ encode_basestring i) rest
      ++ [newline_indent 1; u8 "]"]
  end.

Definition checkpoint_chunks (c : checkpoint) : list str :=
  [u8 "{"; newline_indent 1;
   encode_basestring (u8 "last_checked"); u8 ": "; timestamp_text c;
   u8 "," ++ newline_indent 1;
   encode_basestring (u8 "seen_ids"); u8 ": "]
  ++ ids_chunks (seen_ids c)
  ++ [newline_indent 0; u8 "}"].

Definition clean_char (c : char) : bool := negb (is_surrogate c) && negb (c =? 13).

(** A scanning function that, when it succeeds, has read at least one
    character. *)
Definition consumes (f : str -> result (json * str)) : Prop :=
  forall s v rest, f s = Ok (v, rest) -> (length rest < length s)%nat.

(* ================================================================== *)
(** ** A sample platform

    A small Notion-and-Slack simulator, used to run the script on
    concrete inputs.  Timestamps are ISO-8601 as Python and Notion print
    them; the server keeps records per database and blocks per page,
    honours the [created_time] filter and serves two records a page. *)

Definition pad (width : nat) (z : Z) : str :=
  let digits := int_repr z in
  repeat 48 (width - length digits)%nat ++ digits.

Definition civil_from_days (z : Z) : Z * Z * Z :=
  (let z := z + 719468 in
   let era := z / 146097 in
   let doe := z - era * 146097 in
   let yoe := (doe - doe / 1460 + doe / 36524 - doe / 146096) / 365 in
   let doy := doe - (365 * yoe + yoe / 4 - yoe / 100) in
   let mp := (5 * doy + 2) / 153 in
   let d := doy - (153 * mp + 2) / 5 + 1 in
   let m := if mp <? 10 then mp + 3 else mp - 9 in
   let y := yoe + era * 400 in
   (if m <=? 2 then y + 1 else y, m, d))%Z.

Definition days_from_civil (y m d : Z) : Z :=
  (let y := if m <=? 2 then y - 1 else y in
   let era := y / 400 in
   let yoe := y - era * 400 in
   let doy := (153 * (if 2 <? m then m - 3 else m + 9) + 2) / 5 + d - 1 in
   let doe := yoe * 365 + yoe / 4 - yoe / 100 + doy in
   era * 146097 + doe - 719468)%Z.

Definition offset_text (off : Z) : str :=
  (let mins := Z.abs off / 60000000 in
   (if off <? 0 then u8 "-" else u8 "+")
   ++ pad 2 (mins / 60) ++ u8 ":" ++ pad 2 (mins mod 60))%Z.

Definition sample_isoformat (d : datetime) : str :=
  (let days := wall d / 86400000000 in
   let rem := wall d mod 86400000000 in
   let '(y, m, dd) := civil_from_days days in
   let secs := rem / 1000000 in
   let micro := rem mod 1000000 in
   pad 4 y ++ u8 "-" ++ pad 2 m ++ u8 "-" ++ pad 2 dd ++ u8 "T"
   ++ pad 2 (secs / 3600) ++ u8 ":" ++ pad 2 (secs / 60 mod 60) ++ u8 ":"
   ++ pad 2 (secs mod 60)
   ++ (if micro =? 0 then [] else u8 "." ++ pad 6 micro)
   ++ match utcoffset d with
      | Some off => offset_text off
      | None => []
      end)%Z.

Fixpoint take_digits (n : nat) (s : str) (acc : Z) : option (Z * str) :=
  match n with
  | O => Some (acc, s)
  | S n' =>
    match s with
    | c :: r =>
      if is_digit c then take_digits n' r (10 * acc + Z.of_N (c - 48))%Z
      else None
    | [] => None
    end
  end.

Definition take_char (c : char) (s : str) : option str :=
  match s with
  | x :: r => if x =? c then Some r else None
  | [] => None
  end.

(** Up to six digits of a fraction, as microseconds; further digits are
    dropped. *)
Fixpoint take_fraction (s : str) (scale : Z) (acc : Z) : Z * str :=
  match s with
  | c :: r =>
    if is_digit c
    then take_fraction r (scale / 10) (acc + scale * Z.of_N (c - 48))%Z
    else (acc, s)
  | [] => (acc, [])
  end.

Definition take_offset (s : str) : option (option Z) :=
  match s with
  | [] => Some None
  | c :: r =>
    if c =? 90 then match r with [] => Some (Some 0%Z) | _ => None end
    else if (c =? 43) || (c =? 45) then
      match take_digits 2 r 0%Z with
      | Some (hh, r1) =>
        match take_char 58 r1 with
        | Some r2 =>
          match take_digits 2 r2 0%Z with
          | Some (mm, []) =>
            let off := ((hh * 3600 + mm * 60) * 1000000)%Z in
            Some (Some (if c =? 45 then (- off)%Z else off))
          | _ => None
          end
        | None => None
        end
      | None => None
      end
    else None
  end.

Definition opt_bind {A B} (o : option A) (f : A -> option B) : option B :=
  match o with Some a => f a | None => None end.

Definition parse_iso (s : str) : option datetime :=
  opt_bind (take_digits 4 s 0%Z) (fun '(y, s) =>
  opt_bind (take_char 45 s) (fun s =>
  opt_bind (take_digits 2 s 0%Z) (fun '(m, s) =>
  opt_bind (take_char 45 s) (fun s =>
  opt_bind (take_digits 2 s 0%Z) (fun '(d, s) =>
  opt_bind (take_char 84 s) (fun s =>
  opt_bind (take_digits 2 s 0%Z) (fun '(hh, s) =>
  opt_bind (take_char 58 s) (fun s =>
  opt_bind (take_digits 2 s 0%Z) (fun '(mi, s) =>
  opt_bind (take_char 58 s) (fun s =>
  opt_bind (take_digits 2 s 0%Z) (fun '(ss, s) =>
  let '(micro, s) :=
    match take_char 46 s with
    | Some s' => take_fraction s' 100000%Z 0%Z
    | None => (0%Z, s)
    end in
  opt_bind (take_offset s) (fun off =>
  Some {| wall := ((days_from_civil y m d * 86400 + hh * 3600 + mi * 60 + ss)
                   * 1000000 + micro)%Z;
          utcoffset := off |})))))))))))).

Definition sample_dtparse (v : json) : result datetime :=
  match v with
  | JStr s =>
    match parse_iso s with
    | Some d => Ok d
    | None => Raise ParserError
    end
  | _ => Raise TypeError
  end.

(** The state of the simulator. *)
Record sim : Type := {
  sim_time : Z;                          (* the clock, in microseconds *)
  sim_dbs : list (str * list json);      (* records of each database *)
  sim_docs : list (str * list json);     (* blocks of each page *)
  sim_slack_status : Z                   (* what the webhook answers *)
}.

Definition SAMPLE_WEBHOOK : str :=
  u8 "https://hooks.slack.com/services/T000/B000/XXXX".

Definition created_after_b (x item : json) : bool :=
  match py_get item (u8 "created_time") JNull with
  | Ok ct =>
    match sample_dtparse ct, sample_dtparse x with
    | Ok c, Ok a =>
      match dt_gt c a with
      | Ok b => b
      | Raise _ => false
      end
    | _, _ => false
    end
  | Raise _ => false
  end.

Definition payload_after (payload : json) : option json :=
  match payload with
  | JObj d =>
    match dict_get (u8 "filter") d with
    | Some (JObj f) =>
      match dict_get (u8 "created_time") f with
      | Some (JObj g) => dict_get (u8 "after") g
      | _ => None
      end
    | _ => None
    end
  | _ => None
  end.

Definition payload_cursor (payload : json) : nat :=
  match payload with
  | JObj d =>
    match dict_get (u8 "start_cursor") d with
    | Some (JStr s) => Z.to_nat (fst (scan_digits s 0%Z))
    | _ => O
    end
  | _ => O
  end.

Definition list_response (items : list json) (more : bool) (next : json)
  : response :=
  {| status_code := 200;
     resp_json := Ok (obj [("object"%string, JStr (u8 "list"));
                           ("results"%string, JArr items);
                           ("has_more"%string, JBool more);
                           ("next_cursor"%string, next)]) |}.

Definition sim_query (records : list json) (payload : json) : response :=
  let matching :=
    match payload_after payload with
    | Some x => filter (created_after_b x) records
    | None => records
    end in
  let start := payload_cursor payload in
  let rest := skipn start matching in
  let more := (2 <? length rest)%nat in
  list_response (firstn 2 rest) more
    (if more then JStr (int_repr (Z.of_nat (start + 2))) else JNull).

Fixpoint find_by_url (mk : str -> str) (url : str)
    (table : list (str * list json)) : option (list json) :=
  match table with
  | [] => None
  | (id, items) :: r =>
    if str_eqb url (mk id) then Some items else find_by_url mk url r
  end.

Definition not_found : response :=
  {| status_code := 404;
     resp_json := Ok (obj [("object"%string, JStr (u8 "error"))]) |}.

Definition sim_send (w : sim) (rq : request) : sim * result response :=
  (w,
   Ok match rq_method rq with
      | POST =>
        if str_eqb (rq_url rq) SAMPLE_WEBHOOK then
          {| status_code := sim_slack_status w;
             resp_json := Raise JSONDecodeError |}
        else
          match find_by_url query_url (rq_url rq) (sim_dbs w), rq_json rq with
          | Some records, Some payload => sim_query records payload
          | _, _ => not_found
          end
      | GET =>
        match find_by_url blocks_url (rq_url rq) (sim_docs w) with
        | Some blocks => list_response blocks false JNull
        | None => not_found
        end
      end).

(** Each reading of the clock takes a second. *)
Definition sim_clock (w : sim) : sim * Z :=
  ({| sim_time := sim_time w + 1000000; sim_dbs := sim_dbs w;
      sim_docs := sim_docs w; sim_slack_status := sim_slack_status w |},
   sim_time w).

Definition sample_platform : Platform :=
  {| world := sim;
     http_send := sim_send;
     clock := sim_clock;
     isoformat := sample_isoformat;
     dtparse := sample_dtparse;
     py_repr := sample_repr;
     set_order := fun items => items;
     NOTION_API_KEY := u8 "secret_sample";
     SLACK_WEBHOOK_URL := SAMPLE_WEBHOOK;
     DB_IDS := [u8 "db-1"; u8 "db-2"];
     PAGE_IDS := [u8 "doc-1"] |}.

(** 2024-05-01T10:03:00 UTC. *)
Definition T0 : Z := 1714557780000000.

Definition record (id created : string) : json :=
  obj [("object"%string, JStr (u8 "page"));
       ("id"%string, JStr (u8 id));
       ("created_time"%string, JStr (u8 created));
       ("properties"%string,
        JObj [(u8 "Name", title_property [u8 "Page "; u8 id])])].

Definition paragraph (id created text : string) : json :=
  obj [("object"%string, JStr (u8 "block"));
       ("id"%string, JStr (u8 id));
       ("type"%string, JStr (u8 "paragraph"));
       ("created_time"%string, JStr (u8 created));
       ("paragraph"%string,
        obj [("rich_text"%string, JArr [text_run (u8 text)])])].

(** Database db-1 holds one old record and five new ones; db-2 lists one
    of them again; the page doc-1 has an old block, a new one, and a block
    that carries the identifier of a record. *)
Definition sample_world (slack_status : Z) : sim :=
  {| sim_time := T0;
     sim_dbs :=
       [(u8 "db-1",
         [record "r-0" "2024-05-01T09:00:00.000Z";
          record "r-1" "2024-05-01T10:04:00.000Z";
          record "r-2" "2024-05-01T10:05:00.000Z";
          record "r-3" "2024-05-01T10:06:00.000Z";
          record "r-4" "2024-05-01T10:07:00.000Z";
          record "r-5" "2024-05-01T10:08:00.000Z"]);
        (u8 "db-2",
         [record "r-2" "2024-05-01T10:05:00.000Z";
          record "r-6" "2024-05-01T10:09:00.000Z"])];
     sim_docs :=
       [(u8 "doc-1",
         [paragraph "b-0" "2024-05-01T08:00:00.000Z" "old";
          paragraph "b-1" "2024-05-01T10:10:00.000Z" "new";
          paragraph "r-1" "2024-05-01T10:11:00.000Z" "again"])];
     sim_slack_status := slack_status |}.

(** The state a run starts from. *)
Definition start (w : sim) (disk : option str) : @pstate sample_platform :=
  @Build_pstate sample_platform w disk [].

Definition empty_disk : @pstate sample_platform := start (sample_world 200) None.

Definition sample_checkpoint : checkpoint :=
  {| last_checked := Some (u8 "2024-05-01T10:03:00+00:00");
     seen_ids := [u8 "r-1"; u8 "b-1"; u8 "회의록 \ 1"] |}.

(** A checkpoint with the identifier decoded from the JSON string
    ["\ud800"], a lone surrogate. *)
Definition surrogate_checkpoint : checkpoint :=
  {| last_checked := None; seen_ids := [[55296]] |}.

(* ================================================================== *)
(** ** Vocabulary of the specification: runs *)

Section RunVocabulary.

Context `{Platform}.

(** [wp m Q E s]: from [s], the computation [m] ends in a state that
    satisfies [Q] with its value, or stops (with an exception, or out of
    budget) in a state that satisfies [E]. *)
Definition wp {A} (m : M A) (Q : A -> pstate -> Prop)
    (E : option exn -> pstate -> Prop) (s : pstate) : Prop :=
  match m s with
  | (s', Done a) => Q a s'
  | (s', Threw e) => E (Some e) s'
  | (s', Running) => E None s'
  end.

(** An exchange that raises in the script: the transport failed, or
    [raise_for_status] rejects the status. *)
Definition failed (rs : result response) : bool :=
  match rs with
  | Raise _ => true
  | Ok r => match raise_for_status r with Ok _ => false | Raise _ => true end
  end.

Definition failed_event (ev : event) : bool :=
  match ev with
  | EvHttp _ _ rs => failed rs
  | _ => false
  end.

Definition clean (log : list event) : Prop :=
  Forall (fun ev => failed_event ev = false) log.

(** A history in which a failed exchange, if any, is the last event and
    ended the run with an exception. *)
Definition stopped (o : option exn) (log : list event) : Prop :=
  clean log \/
  exists pre ev e,
    log = pre ++ [ev] /\ clean pre /\ failed_event ev = true /\ o = Some e.

Definition saves (log : list event) : list json :=
  flat_map (fun ev => match ev with EvSave st => [st] | _ => [] end) log.

(** The identifier of an item, as a set member. *)
Definition item_key (item : json) : option hkey :=
  match py_get item (u8 "id") JNull with
  | Ok id => key_of id
  | Raise _ => None
  end.

Definition formatted_items (log : list event) : list json :=
  flat_map (fun ev => match ev with EvFormat _ item => [item] | _ => [] end) log.

Definition fetched_items (log : list event) : list json :=
  flat_map (fun ev => match ev with EvFetched _ items => items | _ => [] end) log.

(** The identifiers of the items handed to the formatter, in order. *)
Definition notified_keys (log : list event) : list hkey :=
  flat_map (fun item => match item_key item with Some k => [k] | None => [] end)
           (formatted_items log).

(** The requests sent to the webhook, in order. *)
Definition posted_requests (log : list event) : list request :=
  flat_map (fun ev => match ev with EvHttp Slack rq _ => [rq] | _ => [] end) log.

(** The webhook requests the formatted items call for, in order. *)
Definition expected_requests (log : list event) : list request :=
  flat_map (fun ev =>
              match ev with
              | EvFormat ph item =>
                match format_item ph item with
                | Ok blocks => [slack_request (post_text ph) blocks]
                | Raise _ => []
                end
              | _ => []
              end) log.

Definition http_requests (log : list event) : list request :=
  flat_map (fun ev => match ev with EvHttp _ rq _ => [rq] | _ => [] end) log.

(** The in-memory [seen_ids] a run starts with. *)
Definition loaded_seen (disk : option str) : result pyset :=
  (state <- read_state disk ;;
   ids <- py_get state (u8 "seen_ids") (JArr []) ;;
   py_set ids)%result.

(** The item was created after the instant [a]. *)
Definition created_after (a : datetime) (item : json) : Prop :=
  exists ct c,
    py_get item (u8 "created_time") JNull = Ok ct
    /\ dtparse ct = Ok c
    /\ dt_gt c a = Ok true.

Definition request_after (rq : request) : option json :=
  match rq_json rq with
  | Some payload => payload_after payload
  | None => None
  end.

(** The remote end honours the [created_time] filter of a query: every
    result of a filtered request was created after the given instant. *)
Definition filter_honoured : Prop :=
  forall w rq w' rs x a data r items,
    http_send w rq = (w', Ok rs) ->
    rq_method rq = POST ->
    request_after rq = Some x ->
    dtparse x = Ok a ->
    resp_json rs = Ok data ->
    py_get data (u8 "results") (JArr []) = Ok r ->
    py_iter r = Ok items ->
    Forall (created_after a) items.

(** A page of a paged response: its results and its continuation
    token. *)
Definition page := (list json * json)%type.

(** The response [rs] carries the page: a status that does not raise, and
    a body with these results, this token and [has_more] as told. *)
Definition carries (rs : response) (pg : page) (more : bool) : Prop :=
  raise_for_status rs = Ok tt /\
  exists data has_more,
    resp_json rs = Ok data
    /\ py_get data (u8 "results") (JArr []) = Ok (JArr (fst pg))
    /\ py_get data (u8 "has_more") JNull = Ok has_more
    /\ truthy has_more = more
    /\ py_get data (u8 "next_cursor") JNull = Ok (snd pg).

(** From the world [w], the queries for the successive pages are
    answered with [pages], every page but the last with [has_more]. *)
Fixpoint serves (w : world) (url : str) (payload : pydict) (pages : list page)
  : Prop :=
  match pages with
  | [] => True
  | pg :: rest =>
    exists w' rs,
      http_send w (query_request url payload) = (w', Ok rs)
      /\ carries rs pg (match rest with [] => false | _ => true end)
      /\ serves w' url (dict_set (u8 "start_cursor") (snd pg) payload) rest
  end.

(** The requests that follow the continuation tokens of [pages]. *)
Fixpoint cursor_requests (url : str) (payload : pydict) (pages : list page)
  : list request :=
  match pages with
  | [] => []
  | pg :: rest =>
    query_request url payload
      :: cursor_requests url (dict_set (u8 "start_cursor") (snd pg) payload) rest
  end.



End RunVocabulary.

(* ================================================================== *)
(** ** Invariants of a run *)

(** Events that neither notify nor save: readings of the clock,
    exchanges with Notion, results of the source client. *)
Definition neutral (ev : event) : bool :=
  match ev with
  | EvClock _ | EvHttp Notion _ _ | EvFetched _ _ => true
  | _ => false
  end.

Definition outcome_exn {A} (o : outcome A) : option exn :=
  match o with Threw e => Some e | _ => None end.

Section RunInvariants.

Context `{Platform}.

(** The state [s] after the events [evs], in the world [w]. *)
Definition logged (s : pstate) (evs : list event) (w : world) : pstate :=
  {| st_world := w; st_disk := st_disk s; st_log := st_log s ++ evs |}.

(** [s'] extends [s] by neutral events that satisfy [P], leaving the
    disk alone. *)
Definition extends (P : list event -> Prop) (s s' : pstate) : Prop :=
  st_disk s' = st_disk s /\
  exists delta,
    st_log s' = st_log s ++ delta
    /\ forallb neutral delta = true
    /\ P delta.

(** What holds of the state all along a run that has not saved yet: the
    disk is as it was ([d]), every formatted item has an identifier, these
    identifiers are pairwise distinct and none was seen before the run
    ([seen0]), and the webhook requests sent are the first of those the
    formatted items call for. *)
Definition tidy (d : option str) (seen0 : list hkey) (s : pstate) : Prop :=
  st_disk s = d
  /\ saves (st_log s) = []
  /\ map item_key (formatted_items (st_log s))
     = map Some (notified_keys (st_log s))
  /\ NoDup (notified_keys (st_log s))
  /\ (forall k, In k (notified_keys (st_log s)) -> ~ In k seen0)
  /\ exists rest,
       expected_requests (st_log s) = posted_requests (st_log s) ++ rest.

(** Between two items: nothing failed, every formatted item was posted
    and its identifier is in [seen_ids]. *)
Definition settled (d : option str) (seen0 : list hkey)
    (seen : pyset) (s : pstate) : Prop :=
  tidy d seen0 s
  /\ clean (st_log s)
  /\ expected_requests (st_log s) = posted_requests (st_log s)
  /\ incl seen0 (set_keys seen)
  /\ incl (notified_keys (st_log s)) (set_keys seen).

Definition halted (d : option str) (seen0 : list hkey)
    (o : option exn) (s : pstate) : Prop :=
  tidy d seen0 s /\ stopped o (st_log s).

(** What a whole run guarantees, whatever its outcome [o]. *)
Definition verdict (disk0 : option str) (seen0 : list hkey)
    (o : option exn) (s : pstate) : Prop :=
  map item_key (formatted_items (st_log s)) = map Some (notified_keys (st_log s))
  /\ NoDup (notified_keys (st_log s))
  /\ (forall k, In k (notified_keys (st_log s)) -> ~ In k seen0)
  /\ (exists rest,
        expected_requests (st_log s) = posted_requests (st_log s) ++ rest)
  /\ stopped o (st_log s)
  /\ (~ clean (st_log s) -> st_disk s = disk0 /\ saves (st_log s) = []).

(** Every item an event carries was created after [a]. *)
Definition event_after (a : datetime) (ev : event) : Prop :=
  match ev with
  | EvFetched _ items => Forall (created_after a) items
  | EvFormat _ item => created_after a item
  | _ => True
  end.

(** The history starts with the reading [t0] of the clock, and every
    item in it was created after that instant. *)
Definition all_after (t0 : Z) (s : pstate) : Prop :=
  (exists rest, st_log s = EvClock t0 :: rest)
  /\ Forall (event_after (utc t0)) (st_log s).

End RunInvariants.

(* ------------------------------------------------------------------ *)
(** *** Sample runs *)

(** A checkpoint file left by an earlier run that notified [r-1]. *)
Definition seen_disk : option str :=
  Some (json_dumps (checkpoint_state
          {| last_checked := Some (u8 "2024-05-01T10:03:00+00:00");
             seen_ids := [u8 "r-1"] |})).

Definition BOUNDARY : json := JStr (u8 "2024-05-01T10:03:00+00:00").

(** The three pages the simulator serves for db-1 after [BOUNDARY]. *)
Definition sample_pages : list page :=
  [ ([record "r-1" "2024-05-01T10:04:00.000Z";
      record "r-2" "2024-05-01T10:05:00.000Z"], JStr (u8 "2"));
    ([record "r-3" "2024-05-01T10:06:00.000Z";
      record "r-4" "2024-05-01T10:07:00.000Z"], JStr (u8 "4"));
    ([record "r-5" "2024-05-01T10:08:00.000Z"], JNull) ].
(* ================================================================== *)
(** * Further vocabulary: edge cases, configuration, completed runs *)

(* ------------------------------------------------------------------ *)
(** ** Records and content units at the edges *)

(** A property that [page_title] passes over: a dict that is not of type
    title, or whose ["title"] is missing, empty or otherwise falsy. *)
Definition skipped_prop (v : json) : Prop :=
  is_dict v = true /\
  (is_title_prop v = false
   \/ exists rich, py_get v (u8 "title") (JArr []) = Ok rich
                   /\ truthy rich = false).

(** A content unit as the API delivers it, as far as [format_block_item]
    looks: a dict whose type is not a list or dict; when its type-specific
    payload is a dict, the field the preview is taken from is a list of
    well-formed runs. *)
Definition wf_runs_field (k : str) (d : pydict) : bool :=
  match dict_get k d with
  | Some (JArr runs) => forallb wf_run runs
  | _ => false
  end.

Definition wf_payload (data : json) : bool :=
  match data with
  | JObj d =>
    if in_and_truthy (u8 "rich_text") d then wf_runs_field (u8 "rich_text") d
    else if in_and_truthy (u8 "text") d then wf_runs_field (u8 "text") d
    else true
  | _ => true
  end.

Definition wf_unit (block : json) : bool :=
  match block with
  | JObj kvs =>
    match py_get_dyn block
            (match dict_get (u8 "type") kvs with Some t => t | None => JNull end)
            (JObj []) with
    | Ok data => wf_payload data
    | Raise _ => false
    end
  | _ => false
  end.

Definition empty_title_page : json :=
  obj [("id"%string, JStr (u8 "p-4"));
       ("created_time"%string, JStr (u8 "2024-05-01T10:09:00.000Z"));
       ("properties"%string,
        JObj [(u8 "Old name", title_property []);
              (u8 "Name", title_property [u8 "Second"]);
              (u8 "Broken", JNull)])].

Definition blank_title_page : json :=
  obj [("id"%string, JStr (u8 "p-5"));
       ("created_time"%string, JStr (u8 "2024-05-01T10:09:00.000Z"));
       ("properties"%string,
        JObj [(u8 "Status", select_property);
              (u8 "Name", title_property [])])].

Definition broken_page : json :=
  obj [("id"%string, JStr (u8 "p-6"));
       ("properties"%string,
        JObj [(u8 "Status", select_property); (u8 "Broken", JNull);
              (u8 "Name", title_property [u8 "Late"])])].

Definition text_block : json :=
  obj [("id"%string, JStr (u8 "b-3"));
       ("type"%string, JStr (u8 "paragraph"));
       ("created_time"%string, JStr (u8 "2024-05-01T10:09:00.000Z"));
       ("paragraph"%string,
        obj [("rich_text"%string, JArr []);
             ("text"%string, JArr [text_run (u8 "from text")])])].

Definition null_payload_block : json :=
  obj [("id"%string, JStr (u8 "b-4"));
       ("type"%string, JStr (u8 "unsupported"));
       ("unsupported"%string, JNull)].

(* ================================================================== *)
(** ** The identifier lists of the configuration *)

Definition COMMA : char := 44.

(** [c.isspace()]: the code points of the Unicode database of CPython
    3.11 that are whitespace. *)
Definition py_isspace (c : char) : bool :=
  existsb (N.eqb c)
    [9; 10; 11; 12; 13; 28; 29; 30; 31; 32; 133; 160; 5760;
     8192; 8193; 8194; 8195; 8196; 8197; 8198; 8199; 8200; 8201; 8202;
     8232; 8233; 8239; 8287; 12288].

(** [s.split(sep)] with a one-character separator: every occurrence
    splits, and the empty string gives one empty part. *)
Fixpoint py_split (sep : char) (s : str) : list str :=
  match s with
  | [] => [[]]
  | c :: r =>
    if c =? sep then [] :: py_split sep r
    else match py_split sep r with
         | h :: t => (c :: h) :: t
         | [] => [[c]]
         end
  end.

(** [s.lstrip()]. *)
Fixpoint py_lstrip (s : str) : str :=
  match s with
  | [] => []
  | c :: r => if py_isspace c then py_lstrip r else s
  end.

(** [s.strip()]. *)
Definition py_strip (s : str) : str :=
  rev (py_lstrip (rev (py_lstrip s))).

(** [os.environ.get(name, "")] for the value [value] of the variable
    ([None] when it is not set). *)
Definition environ_get (value : option str) (default : str) : str :=
  match value with
  | Some v => v
  | None => default
  end.

(** [[s.strip() for s in os.environ.get(NAME, "").split(",") if s.strip()]]:
    the value of [DB_IDS] and of [PAGE_IDS]. *)
Definition id_list (value : option str) : list str :=
  map py_strip
      (filter (fun s => truthy (JStr (py_strip s)))
              (py_split COMMA (environ_get value []))).

(** An identifier as the configuration can hold one: not empty, without
    comma, and without whitespace at either end. *)
Definition starts_space (s : str) : bool :=
  match s with
  | c :: _ => py_isspace c
  | [] => false
  end.

Definition is_id (s : str) : bool :=
  truthy (JStr s)
  && negb (existsb (N.eqb COMMA) s)
  && negb (starts_space s)
  && negb (starts_space (rev s)).

(** An entry of the variable: an identifier between two runs of
    whitespace, or whitespace alone. *)
Inductive entry : Type :=
| Blank (pad : str)
| Named (before id after : str).

Definition entry_text (e : entry) : str :=
  match e with
  | Blank pad => pad
  | Named before id after => before ++ id ++ after
  end.

Definition entry_ids (e : entry) : list str :=
  match e with
  | Blank _ => []
  | Named _ id _ => [id]
  end.

Definition wf_entry (e : entry) : bool :=
  match e with
  | Blank pad => forallb py_isspace pad
  | Named before id after =>
    forallb py_isspace before && is_id id && forallb py_isspace after
  end.

(** [",".join(parts)]. *)
Fixpoint join_comma (parts : list str) : str :=
  match parts with
  | [] => []
  | [p] => p
  | p :: r => p ++ COMMA :: join_comma r
  end.

(* ================================================================== *)
(** ** Vocabulary of completed runs *)

(** The identifiers of a list of items, in order. *)
Definition item_keys (items : list json) : list hkey :=
  flat_map (fun item => match item_key item with Some k => [k] | None => [] end)
           items.

(** The items of [items] to notify when the identifiers [seen] are
    known: those whose identifier is not in [seen] and is not carried by
    an earlier item of the list either. *)
Fixpoint fresh_items (seen : list hkey) (items : list json) : list json :=
  match items with
  | [] => []
  | item :: rest =>
    match item_key item with
    | Some k =>
      if existsb (hkey_eqb k) seen then fresh_items seen rest
      else item :: fresh_items (seen ++ [k]) rest
    | None => fresh_items seen rest
    end
  end.

(** The identifier is a string. *)
Definition string_key (k : hkey) : bool :=
  match k with
  | KStr _ => true
  | _ => false
  end.

(** An exchange with Notion. *)
Definition exchange (ev : event) : bool :=
  match ev with
  | EvHttp Notion _ _ => true
  | _ => false
  end.

Section CompletedRuns.

Context `{Platform}.

(** The webhook request [rq] is the one the item calls for. *)
Definition posted_for (item : json) (rq : request) : Prop :=
  exists ph blocks,
    format_item ph item = Ok blocks
    /\ rq = slack_request (post_text ph) blocks.

(** [s'] extends [s] by events that satisfy [R], leaving the disk
    alone. *)
Definition grows (R : event -> Prop) (s s' : pstate) : Prop :=
  st_disk s' = st_disk s /\
  exists delta, st_log s' = st_log s ++ delta /\ Forall R delta.

(** The payloads of the successive queries of one database: the first,
    [base], then the same with the continuation token of the page
    before. *)
Definition paged (base payload : pydict) : Prop :=
  payload = base
  \/ exists cursor, payload = dict_set (u8 "start_cursor") cursor base.

(** A query sent to [url] with a payload paged from [base]. *)
Definition query_exchange (url : str) (base : pydict) (ev : event) : Prop :=
  exists payload rs,
    ev = EvHttp Notion (query_request url payload) rs
    /\ paged base payload.

(** A listing of the children of the page [page_id]: the first, or a
    later one from a continuation token. *)
Definition listing_url (page_id url : str) : Prop :=
  url = blocks_url page_id
  \/ exists cursor, url = blocks_url_from page_id cursor.

Definition listing_exchange (page_id : str) (ev : event) : Prop :=
  exists url rs,
    ev = EvHttp Notion (list_request url) rs
    /\ listing_url page_id url.

(** The books of a run between two items, when nothing has failed:
    [fetched] is what the source client has returned so far and [done]
    the part of it the loops of [main] have gone through. *)
Definition ledger (d : option str) (seen0 : list hkey)
    (fetched done : list json) (seen : pyset) (s : pstate) : Prop :=
  st_disk s = d
  /\ saves (st_log s) = []
  /\ fetched_items (st_log s) = fetched
  /\ set_keys seen = seen0 ++ notified_keys (st_log s)
  /\ formatted_items (st_log s) = fresh_items seen0 done
  /\ Forall2 posted_for (formatted_items (st_log s)) (posted_requests (st_log s))
  /\ Forall (fun item => item_key item <> None) done
  /\ Forall (fun v => key_of v <> None) seen.

(** The books are balanced: everything fetched has been gone through. *)
Definition balanced (d : option str) (seen0 : list hkey)
    (seen : pyset) (s : pstate) : Prop :=
  ledger d seen0 (fetched_items (st_log s)) (fetched_items (st_log s)) seen s.

(** The state [save_state] is called with, from the loaded dict [d0],
    the last reading [t] of the clock and the final [seen_ids]. *)
Definition saved_state (d0 : pydict) (t : Z) (seen : pyset) : json :=
  JObj (dict_set (u8 "seen_ids") (JArr (set_order seen))
          (dict_set (u8 "last_checked") (JStr (isoformat (utc t))) d0)).

(** How a completed run ends: the clock is read, the state is saved (all
    its chunks could be written), and the books are balanced. *)
Definition closing (d0 : pydict) (seen0 : list hkey) (s : pstate) : Prop :=
  exists log t seen,
    st_log s = log ++ [EvClock t; EvSave (saved_state d0 t seen)]
    /\ saves log = []
    /\ set_keys seen = seen0 ++ notified_keys log
    /\ formatted_items log = fresh_items seen0 (fetched_items log)
    /\ Forall2 posted_for (formatted_items log) (posted_requests log)
    /\ Forall (fun item => item_key item <> None) (fetched_items log)
    /\ Forall (fun v => key_of v <> None) seen
    /\ Forall (fun chunk => encodable chunk = true)
              (iterencode (saved_state d0 t seen) 0)
    /\ st_disk s = Some (json_dumps (saved_state d0 t seen)).

End CompletedRuns.

Section Requests.

Context `{Platform}.

(** The boundary of a run: the stored ["last_checked"], or the first
    reading of the clock when there is none. *)
Definition run_boundary (w : world) (disk : option str) : json :=
  match read_state disk with
  | Ok state =>
    match py_get state (u8 "last_checked") JNull with
    | Ok last_checked =>
      if truthy last_checked then last_checked
      else JStr (isoformat (utc (snd (clock w))))
    | Raise _ => JNull
    end
  | Raise _ => JNull
  end.

(** What a request of a run may be.  To Notion: a query of a configured
    database with the payload of [query_new_db_pages] for the boundary
    (and a continuation token from the second page on), or a listing of
    the children of a configured page.  To the webhook: the payload of a
    formatted item. *)
Definition addressed (boundary : json) (ev : event) : Prop :=
  match ev with
  | EvHttp Notion rq _ =>
    (exists db_id,
       In db_id DB_IDS
       /\ query_exchange (query_url db_id) (query_payload boundary) ev)
    \/ (exists page_id, In page_id PAGE_IDS /\ listing_exchange page_id ev)
  | EvHttp Slack rq _ =>
    exists ph item blocks,
      format_item ph item = Ok blocks
      /\ rq = slack_request (post_text ph) blocks
  | _ => True
  end.

End Requests.

Section Listing.

Context `{Platform}.



(** Where a request goes and what it carries with it. *)
Definition routed (ep : endpoint) (rq : request) : Prop :=
  match ep with
  | Notion =>
    rq_headers rq = NOTION_HEADERS
    /\ rq_timeout rq = 30%Z
    /\ exists path, rq_url rq = NOTION_BASE ++ path
  | Slack =>
    rq_headers rq = []
    /\ rq_timeout rq = 15%Z
    /\ rq_url rq = SLACK_WEBHOOK_URL
    /\ rq_method rq = POST
  end.

End Listing.



(* ================================================================== *)
(** * Properties of the formatter *)

Section FormatterFacts.

#[local] Arguments firstn : simpl never.

Variable py_repr : json -> str.

Lemma str_eqb_refl (a : str) : str_eqb a a = true.
Proof.
  induction a as [|x a IH]; simpl; [reflexivity|].
  now rewrite N.eqb_refl, IH.
Qed.

Lemma str_eqb_eq (a b : str) : str_eqb a b = true <-> a = b.
Proof.
  split; [|intros ->; apply str_eqb_refl].
  revert b; induction a as [|x a IH]; intros [|y b]; simpl; try discriminate; auto.
  intros E. apply andb_true_iff in E as [E1 E2].
  apply N.eqb_eq in E1. apply IH in E2. now subst.
Qed.

Lemma py_join_strings (texts : list str) :
  py_join (map JStr texts) = Ok (concat texts).
Proof.
  induction texts as [|t texts IH]; simpl; [reflexivity|].
  now rewrite IH.
Qed.

Lemma mapR_run_texts (runs : list json) (texts : list str) :
  Forall2 run_text runs texts ->
  mapR (fun r => py_get r (u8 "plain_text") (JStr [])) runs
  = Ok (map JStr texts).
Proof.
  induction 1 as [|r t runs texts Hr _ IH]; simpl; [reflexivity|].
  unfold run_text in Hr. rewrite Hr. simpl. now rewrite IH.
Qed.

Lemma plain_texts_runs (runs : list json) (texts : list str) :
  Forall2 run_text runs texts ->
  plain_texts (JArr runs) = Ok (concat texts).
Proof.
  intros Hruns. unfold plain_texts. simpl.
  rewrite (mapR_run_texts _ _ Hruns). simpl. apply py_join_strings.
Qed.

Lemma page_title_scan_plain (vs : list (str * json)) (rest : list json) :
  Forall plain_prop vs ->
  page_title_scan (map snd vs ++ rest) = page_title_scan rest.
Proof.
  induction 1 as [|[k v] vs [Hd Ht] _ IH]; simpl; [reflexivity|].
  simpl in Hd, Ht. destruct v; try discriminate Hd.
  unfold is_title_prop in Ht. simpl in Ht |- *.
  destruct (py_eq_str _ _); [discriminate|]. exact IH.
Qed.

Lemma page_title_scan_title (v : json) (runs rest : list json) (texts : list str) :
  is_title_prop v = true ->
  py_get v (u8 "title") (JArr []) = Ok (JArr runs) ->
  Forall2 run_text runs texts ->
  Forall plain_prop (map (fun x => ([], x)) rest) ->
  page_title_scan (v :: rest) = Ok (shown_title (concat texts)).
Proof.
  intros Ht Hg Hruns Hrest. simpl.
  unfold is_title_prop in Ht.
  destruct (py_get v (u8 "type") JNull) as [ty|]; [|discriminate].
  simpl. rewrite Ht, Hg. simpl.
  destruct runs as [|r runs].
  - inversion Hruns; subst. simpl.
    pose proof (page_title_scan_plain _ [] Hrest) as E.
    rewrite app_nil_r, map_map in E. simpl in E. rewrite map_id in E.
    rewrite E. reflexivity.
  - rewrite (plain_texts_runs _ _ Hruns). unfold shown_title. cbn [rbind].
    destruct (firstn 120 (concat texts)); reflexivity.
Qed.

Lemma plain_prop_retag (l : list (str * json)) :
  Forall plain_prop l -> Forall plain_prop (map (fun x => ([], x)) (map snd l)).
Proof.
  induction 1 as [|[k v] l Hp _ IH]; simpl; constructor; auto.
Qed.

Lemma page_title_of_runs (page : json) (texts : list str) :
  title_runs page texts ->
  page_title page = Ok (shown_title (concat texts)).
Proof.
  intros (kvs & props & before & name & v & after & runs
          & -> & Hprops & -> & Hplain & Ht & Hg & Hruns).
  apply Forall_app in Hplain as [Hb Ha].
  unfold page_title. simpl. rewrite Hprops. simpl.
  rewrite map_app. simpl.
  rewrite (page_title_scan_plain _ _ Hb).
  apply (page_title_scan_title v runs _ texts Ht Hg Hruns).
  now apply plain_prop_retag.
Qed.

Lemma page_title_no_title (page : json) :
  no_title_prop page -> page_title page = Ok NO_TITLE.
Proof.
  intros (props & Hprops & Hplain).
  unfold page_title. rewrite Hprops. simpl.
  pose proof (page_title_scan_plain _ [] Hplain) as E.
  rewrite app_nil_r in E. rewrite E. reflexivity.
Qed.

(** C5 (as amended). Title extraction takes the record's title-type
    property and concatenates its rich-text runs in order, capped at 120
    characters; a record with no title-type property, or whose title text
    is empty, gets the placeholder of the source, ["(제목 없음)"]. *)
Theorem page_title_extraction (page : json) (texts : list str) :
  title_runs page texts \/ (no_title_prop page /\ texts = []) ->
  page_title page = Ok (shown_title (concat texts))
  /\ shown_title [] = u8 "(제목 없음)".
Proof.
  intros [Hruns | [Hnone ->]]; split; try reflexivity.
  - now apply page_title_of_runs.
  - now apply page_title_no_title.
Qed.

Lemma hello_page_runs : title_runs hello_page [u8 "Hello "; u8 "World"].
Proof.
  exists (match hello_page with JObj d => d | _ => [] end).
  exists [(u8 "Status", select_property);
          (u8 "Name", title_property [u8 "Hello "; u8 "World"])].
  exists [(u8 "Status", select_property)], (u8 "Name").
  exists (title_property [u8 "Hello "; u8 "World"]), [].
  exists (map text_run [u8 "Hello "; u8 "World"]).
  repeat split; try reflexivity.
  - repeat constructor.
  - repeat constructor.
Defined.

Lemma untitled_page_has_no_title : no_title_prop untitled_page.
Proof.
  exists [(u8 "Status", select_property)].
  split; [reflexivity|]. repeat constructor.
Defined.


(** C6. A title text of 130 characters reaches the payload cut to its
    first 120 characters; the cut is made once, on the concatenation of
    the runs. *)
Theorem title_truncation (page : json) (texts : list str) :
  title_runs page texts ->
  length (concat texts) = 130%nat ->
  exists url created title blocks,
    page_title page = Ok title
    /\ title = firstn 120 (concat texts)
    /\ length title = 120%nat
    /\ format_page_block py_repr page = Ok blocks
    /\ blocks = page_blocks py_repr url created title
    /\ payload_title_field blocks
       = Some (title_field (py_format py_repr url) title).
Proof.
  intros Hruns Hlen.
  pose proof (page_title_of_runs _ _ Hruns) as Ht.
  assert (Hcut : length (firstn 120 (concat texts)) = 120%nat)
    by (rewrite length_firstn, Hlen; reflexivity).
  assert (Hshown : shown_title (concat texts) = firstn 120 (concat texts)).
  { unfold shown_title. destruct (firstn 120 (concat texts)); [discriminate|reflexivity]. }
  rewrite Hshown in Ht.
  destruct Hruns as (kvs & _ & _ & _ & _ & _ & _ & -> & _).
  exists (match dict_get (u8 "url") kvs with Some x => x | None => JStr DEFAULT_URL end).
  exists (match dict_get (u8 "created_time") kvs with Some x => x | None => JStr [] end).
  exists (firstn 120 (concat texts)). eexists.
  split; [exact Ht|]. split; [reflexivity|]. split; [exact Hcut|].
  unfold format_page_block. rewrite Ht. cbn [rbind page_url py_get].
  split; [reflexivity|]. split; reflexivity.
Qed.

Lemma block_txt_rich (d : pydict) (runs : list json) (texts : list str) :
  dict_get (u8 "rich_text") d = Some (JArr runs) ->
  runs <> [] ->
  Forall2 run_text runs texts ->
  block_txt (JObj d) = Ok (firstn 200 (concat texts)).
Proof.
  intros Hget Hne Hruns. unfold block_txt, in_and_truthy, py_item.
  rewrite Hget. destruct runs as [|r runs]; [congruence|].
  cbn [truthy rbind]. rewrite (plain_texts_runs _ _ Hruns). reflexivity.
Qed.

Lemma block_txt_empty (d : pydict) :
  field_empty (u8 "rich_text") d -> field_empty (u8 "text") d ->
  block_txt (JObj d) = Ok [].
Proof.
  unfold field_empty, block_txt. now intros -> ->.
Qed.

(** C7 (as amended). When the type-specific payload has a non-empty
    ["rich_text"], the preview is its runs concatenated and capped at 200
    characters, whatever ["text"] holds; when both fields are missing or
    empty, and also when that text is empty, the preview is the
    placeholder of the source, ["(텍스트 없음)"]. *)
Theorem preview_prefers_rich_text
    (block : json) (d : pydict) (runs : list json) (texts : list str) :
  block_data block d ->
  (dict_get (u8 "rich_text") d = Some (JArr runs) /\ runs <> []
   /\ Forall2 run_text runs texts)
  \/ (field_empty (u8 "rich_text") d /\ field_empty (u8 "text") d /\ texts = []) ->
  exists blocks,
    format_block_item py_repr block = Ok blocks
    /\ payload_preview blocks
       = Some (preview_section (preview (firstn 200 (concat texts))))
    /\ preview [] = u8 "(텍스트 없음)".
Proof.
  intros (kvs & ty & -> & Hty & Hdata) Hcase.
  assert (Htxt : block_txt (JObj d) = Ok (firstn 200 (concat texts))).
  { destruct Hcase as [(Hget & Hne & Hruns) | (Hr & Ht & ->)].
    - now apply (block_txt_rich d runs).
    - now apply block_txt_empty. }
  unfold format_block_item. cbn [py_get rbind]. rewrite Hty.
  cbn [py_get_dyn rbind]. rewrite Hdata. cbn [rbind]. rewrite Htxt.
  cbn [rbind]. eexists. split; [reflexivity|]. split; reflexivity.
Qed.

Lemma wf_runs_texts (runs : list json) :
  forallb wf_run runs = true -> exists texts, Forall2 run_text runs texts.
Proof.
  induction runs as [|r runs IH]; simpl; intros Hwf.
  - exists []. constructor.
  - apply andb_true_iff in Hwf as [Hr Hrs].
    destruct (IH Hrs) as [texts Htexts].
    destruct r as [| | | | |d]; try discriminate Hr. simpl in Hr.
    destruct (dict_get (u8 "plain_text") d) as [v|] eqn:E.
    + destruct v; try discriminate Hr.
      exists (s :: texts). constructor; [|assumption].
      unfold run_text. simpl. now rewrite E.
    + exists ([] :: texts). constructor; [|assumption].
      unfold run_text. simpl. now rewrite E.
Qed.

Lemma page_title_scan_total (vs : list json) :
  forallb wf_prop vs = true -> exists t, page_title_scan vs = Ok t.
Proof.
  induction vs as [|v vs IH]; intros Hwf.
  - now exists NO_TITLE.
  - simpl in Hwf. apply andb_true_iff in Hwf as [Hv Hvs].
    destruct (IH Hvs) as [t Ht].
    destruct v as [| | | | |d]; try discriminate Hv.
    unfold wf_prop, is_title_prop in Hv.
    cbn [page_title_scan py_get rbind] in *.
    destruct (py_eq_str _ (u8 "title")); [|now exists t].
    destruct (dict_get (u8 "title") d) as [rich|].
    + destruct rich as [| | | |runs|]; cbn [negb] in Hv;
        try (apply negb_true_iff in Hv; rewrite Hv; now exists t).
      destruct runs as [|r runs]; [now exists t|].
      destruct (wf_runs_texts _ Hv) as [texts Htexts].
      cbn [truthy]. rewrite (plain_texts_runs _ _ Htexts). cbn [rbind].
      destruct (firstn 120 (concat texts)); eauto.
    + cbn [truthy]. now exists t.
Qed.

Lemma page_title_total (page : json) :
  wf_record page = true -> exists t, page_title page = Ok t.
Proof.
  destruct page as [| | | | |kvs]; try discriminate. unfold wf_record, page_title.
  cbn [py_get rbind].
  destruct (dict_get (u8 "properties") kvs) as [props|].
  - destruct props as [| | | | |props]; try discriminate.
    intros Hwf. cbn [py_values rbind]. now apply page_title_scan_total.
  - intros _. now exists NO_TITLE.
Qed.

(** C10. A record without a ["url"] field is formatted all the same: the
    link target of its payload is ["https://www.notion.so"], and title
    and creation time are produced as for any record. *)
Theorem missing_url_fallback (page : json) :
  wf_record page = true ->
  lacks_field (u8 "url") page ->
  exists title created blocks,
    page_title page = Ok title
    /\ py_get page (u8 "created_time") (JStr []) = Ok created
    /\ page_url page = Ok (JStr (u8 "https://www.notion.so"))
    /\ format_page_block py_repr page = Ok blocks
    /\ blocks = page_blocks py_repr (JStr (u8 "https://www.notion.so"))
                            created title
    /\ payload_title_field blocks
       = Some (title_field (u8 "https://www.notion.so") title).
Proof.
  intros Hwf (kvs & -> & Hurl).
  destruct (page_title_total _ Hwf) as [title Ht].
  exists title. eexists. eexists.
  split; [exact Ht|]. split; [reflexivity|].
  unfold format_page_block, page_url. rewrite Ht.
  cbn [py_get rbind]. rewrite Hurl.
  split; [reflexivity|]. split; [reflexivity|]. split; reflexivity.
Qed.

Lemma long_page_runs : title_runs long_page [repeat 97 65%nat; repeat 98 65%nat].
Proof.
  exists (match long_page with JObj d => d | _ => [] end).
  exists [(u8 "Name", title_property [repeat 97 65%nat; repeat 98 65%nat])].
  exists [], (u8 "Name").
  exists (title_property [repeat 97 65%nat; repeat 98 65%nat]), [].
  exists (map text_run [repeat 97 65%nat; repeat 98 65%nat]).
  repeat split; try reflexivity.
  - constructor.
  - repeat constructor.
Defined.

Lemma both_fields_block_data :
  block_data both_fields_block
    [(u8 "rich_text", JArr [text_run (u8 "from rich_text")]);
     (u8 "text", JArr [text_run (u8 "from text")])].
Proof.
  exists (match both_fields_block with JObj d => d | _ => [] end), (u8 "paragraph").
  repeat split; reflexivity.
Defined.

Lemma bare_block_data : block_data bare_block [].
Proof.
  exists (match bare_block with JObj d => d | _ => [] end), (u8 "divider").
  repeat split; reflexivity.
Defined.

End FormatterFacts.

(** The example of the specification: runs ["Hello "] and ["World"]. *)
Lemma page_title_extraction_witness :
  (title_runs hello_page [u8 "Hello "; u8 "World"]
   \/ (no_title_prop hello_page /\ [u8 "Hello "; u8 "World"] = []))
  /\ page_title hello_page = Ok (u8 "Hello World").
Proof.
  split; [left; exact hello_page_runs|].
  exact (proj1 (page_title_extraction hello_page [u8 "Hello "; u8 "World"]
                  (or_introl hello_page_runs))).
Defined.

(** C5, as stated, fails: without a title-type property the title is not
    the string ["(no title)"]. *)
Lemma page_title_placeholder_counterexample :
  no_title_prop untitled_page /\
  page_title untitled_page <> Ok (u8 "(no title)").
Proof.
  split; [exact untitled_page_has_no_title|].
  vm_compute. discriminate.
Qed.

(** Two runs of 65 characters: capped run by run they would stay 130
    characters long; the payload holds 120. *)
Lemma title_truncation_witness :
  title_runs long_page [repeat 97 65%nat; repeat 98 65%nat]
  /\ length (concat [repeat 97 65%nat; repeat 98 65%nat]) = 130%nat
  /\ exists url created title blocks,
       page_title long_page = Ok title
       /\ title = firstn 120 (concat [repeat 97 65%nat; repeat 98 65%nat])
       /\ length title = 120%nat
       /\ format_page_block sample_repr long_page = Ok blocks
       /\ blocks = page_blocks sample_repr url created title
       /\ payload_title_field blocks
          = Some (title_field (py_format sample_repr url) title).
Proof.
  split; [exact long_page_runs|]. split; [reflexivity|].
  exact (title_truncation sample_repr long_page _ long_page_runs eq_refl).
Defined.

Lemma preview_prefers_rich_text_witness :
  block_data both_fields_block
    [(u8 "rich_text", JArr [text_run (u8 "from rich_text")]);
     (u8 "text", JArr [text_run (u8 "from text")])]
  /\ exists blocks,
       format_block_item sample_repr both_fields_block = Ok blocks
       /\ payload_preview blocks = Some (preview_section (u8 "from rich_text"))
       /\ preview [] = u8 "(텍스트 없음)".
Proof.
  split; [exact both_fields_block_data|].
  refine (preview_prefers_rich_text sample_repr both_fields_block _
            [text_run (u8 "from rich_text")] [u8 "from rich_text"]
            both_fields_block_data (or_introl _)).
  split; [reflexivity|]. split; [discriminate|]. repeat constructor.
Defined.

(** C7, as stated, fails: with neither field present the preview is not
    the string ["(no text)"]. *)
Lemma preview_placeholder_counterexample :
  block_data bare_block []
  /\ field_empty (u8 "rich_text") [] /\ field_empty (u8 "text") []
  /\ rbind (format_block_item sample_repr bare_block)
           (fun blocks => Ok (payload_preview blocks))
     <> Ok (Some (preview_section (u8 "(no text)"))).
Proof.
  split; [exact bare_block_data|]. split; [reflexivity|]. split; [reflexivity|].
  vm_compute. discriminate.
Qed.

Lemma missing_url_fallback_witness :
  wf_record untitled_page = true
  /\ lacks_field (u8 "url") untitled_page
  /\ exists title created blocks,
       page_title untitled_page = Ok title
       /\ py_get untitled_page (u8 "created_time") (JStr []) = Ok created
       /\ page_url untitled_page = Ok (JStr (u8 "https://www.notion.so"))
       /\ format_page_block sample_repr untitled_page = Ok blocks
       /\ blocks = page_blocks sample_repr (JStr (u8 "https://www.notion.so"))
                               created title
       /\ payload_title_field blocks
          = Some (title_field (u8 "https://www.notion.so") title).
Proof.
  assert (Hlack : lacks_field (u8 "url") untitled_page).
  { exists (match untitled_page with JObj d => d | _ => [] end).
    split; reflexivity. }
  split; [reflexivity|]. split; [exact Hlack|].
  exact (missing_url_fallback sample_repr untitled_page eq_refl Hlack).
Defined.

(* ================================================================== *)
(** * The checkpoint file: encoding and decoding *)

Lemma char_below_32 (P : char -> Prop) :
  (forall n, In n (map N.of_nat (seq 0 32)) -> P n) ->
  forall c, c < 32 -> P c.
Proof.
  intros HP c Hc. apply HP.
  apply in_map_iff. exists (N.to_nat c). split; [apply N2Nat.id|].
  apply in_seq. lia.
Qed.

Lemma scanstring_escape_char (c : char) (tail : str) :
  scanstring (escape_char c ++ tail) = push c (scanstring tail).
Proof.
  destruct (N.ltb_spec c 32) as [Hlt|Hge].
  - revert c Hlt. apply char_below_32. cbn [map seq N.of_nat Pos.of_succ_nat Pos.succ].
    intros n Hn. cbn [In] in Hn.
    repeat (destruct Hn as [<-|Hn]; [reflexivity|]). contradiction.
  - unfold escape_char.
    destruct (N.eqb_spec c 34) as [->|H34]; [reflexivity|].
    destruct (N.eqb_spec c 92) as [->|H92]; [reflexivity|].
    destruct (N.eqb_spec c 8); [lia|]. destruct (N.eqb_spec c 12); [lia|].
    destruct (N.eqb_spec c 10); [lia|]. destruct (N.eqb_spec c 13); [lia|].
    destruct (N.eqb_spec c 9); [lia|].
    destruct (N.ltb_spec c 32); [lia|].
    cbn [app scanstring].
    destruct (N.eqb_spec c 34); [lia|]. destruct (N.eqb_spec c 92); [lia|].
    destruct (N.ltb_spec c 32); [lia|]. reflexivity.
Qed.

Lemma scanstring_escaped (s rest : str) :
  scanstring (flat_map escape_char s ++ QUOTE :: rest) = Ok (s, rest).
Proof.
  induction s as [|c s IH]; [reflexivity|].
  cbn [flat_map]. rewrite <- app_assoc, scanstring_escape_char, IH. reflexivity.
Qed.

Lemma scan_once_string (fuel : nat) (s rest : str) :
  (1 <= fuel)%nat ->
  scan_once fuel (encode_basestring s ++ rest) = Ok (JStr s, rest).
Proof.
  intros Hfuel. destruct fuel as [|fuel]; [lia|].
  unfold encode_basestring. rewrite <- app_comm_cons, <- app_assoc.
  cbn [scan_once QUOTE N.eqb Pos.eqb app].
  change (34 :: rest) with (QUOTE :: rest).
  now rewrite scanstring_escaped.
Qed.

Lemma skip_ws_spaces (n : nat) (tail : str) :
  skip_ws (repeat 32 n ++ tail) = skip_ws tail.
Proof. induction n as [|n IH]; [reflexivity|exact IH]. Qed.

Lemma skip_ws_newline_indent (level : nat) (tail : str) :
  skip_ws (newline_indent level ++ tail) = skip_ws tail.
Proof. unfold newline_indent. cbn [app skip_ws is_ws LF N.eqb Pos.eqb orb]. apply skip_ws_spaces. Qed.

Lemma skip_ws_quote_app (s tail : str) :
  skip_ws (encode_basestring s ++ tail) = encode_basestring s ++ tail.
Proof. reflexivity. Qed.

Lemma parse_elements_step (fuel : nat) (s : str) (acc : list json) :
  parse_elements (S fuel) s acc =
  match scan_once fuel s with
  | Raise e => Raise e
  | Ok (value, r1) =>
    match skip_ws r1 with
    | c1 :: r2 =>
      if c1 =? 93 then Ok (JArr (rev (value :: acc)), r2)
      else if c1 =? 44 then parse_elements fuel (skip_ws r2) (value :: acc)
      else Raise JSONDecodeError
    | [] => Raise JSONDecodeError
    end
  end.
Proof. reflexivity. Qed.

Lemma parse_elements_ids (ids : list str) :
  forall (fuel : nat) (id : str) (acc : list json) (tail : str),
    (length ids + 2 <= fuel)%nat ->
    parse_elements fuel
      (encode_basestring id ++ more_ids ids ++ newline_indent 1 ++ u8 "]" ++ tail) acc
    = Ok (JArr (rev acc ++ map JStr (id :: ids)), tail).
Proof.
  induction ids as [|id' ids IH]; intros fuel id acc tail Hfuel;
    (destruct fuel as [|fuel]; [simpl in Hfuel; lia|]);
    rewrite parse_elements_step, scan_once_string by (simpl in Hfuel; lia).
  - cbn [more_ids map concat app]. rewrite skip_ws_newline_indent.
    cbn. reflexivity.
  - unfold more_ids. cbn [map concat]. fold (more_ids ids).
    rewrite <- !app_assoc. change (u8 ",") with [44].
    cbn [app skip_ws is_ws N.eqb Pos.eqb orb].
    rewrite skip_ws_newline_indent, skip_ws_quote_app.
    rewrite IH by (simpl in Hfuel; lia).
    cbn [rev map]. now rewrite <- app_assoc.
Qed.

Lemma encode_items_strings (enc : json -> list str) (sep : str) (ids : list str) (buf : str) :
  encode_items enc sep (map JStr ids) buf =
  match ids with
  | [] => []
  | id :: rest =>
    (buf ++ encode_basestring id) :: map (fun i => sep ++ encode_basestring i) rest
  end.
Proof.
  revert buf. induction ids as [|id ids IH]; intros buf; [reflexivity|].
  cbn [map encode_items scalar_text app]. rewrite IH.
  destruct ids; reflexivity.
Qed.

Lemma iterencode_checkpoint (c : checkpoint) :
  iterencode (checkpoint_state c) 0 = checkpoint_chunks c.
Proof.
  unfold checkpoint_state, checkpoint_chunks, timestamp_text.
  cbn [iterencode encode_members].
  assert (Hts : scalar_text (match last_checked c with Some t => JStr t | None => JNull end)
                = Some (match last_checked c with Some t => encode_basestring t | None => u8 "null" end))
    by (destruct (last_checked c); reflexivity).
  rewrite Hts. cbn [scalar_text app].
  do 8 f_equal.
  destruct (seen_ids c) as [|id rest]; [reflexivity|].
  cbn [map iterencode ids_chunks]. rewrite <- map_cons, encode_items_strings.
  now rewrite app_nil_r.
Qed.

Lemma escape_char_clean (c : char) :
  is_surrogate c = false -> forallb clean_char (escape_char c) = true.
Proof.
  intros Hs. destruct (N.ltb_spec c 32) as [Hlt|Hge].
  - clear Hs. revert c Hlt. apply char_below_32.
    cbn [map seq N.of_nat Pos.of_succ_nat Pos.succ].
    intros n Hn. cbn [In] in Hn.
    repeat (destruct Hn as [<-|Hn]; [reflexivity|]). contradiction.
  - unfold escape_char.
    destruct (N.eqb_spec c 34) as [->|H34]; [reflexivity|].
    destruct (N.eqb_spec c 92) as [->|H92]; [reflexivity|].
    destruct (N.eqb_spec c 8); [lia|]. destruct (N.eqb_spec c 12); [lia|].
    destruct (N.eqb_spec c 10); [lia|]. destruct (N.eqb_spec c 13); [lia|].
    destruct (N.eqb_spec c 9); [lia|].
    destruct (N.ltb_spec c 32); [lia|].
    cbn [forallb]. unfold clean_char. rewrite Hs.
    destruct (N.eqb_spec c 13); [lia|]. reflexivity.
Qed.

Lemma encode_basestring_clean (s : str) :
  encodable s = true -> forallb clean_char (encode_basestring s) = true.
Proof.
  intros Hs. unfold encode_basestring. cbn [forallb]. rewrite forallb_app.
  cbn. rewrite andb_true_r.
  induction s as [|c s IH]; [reflexivity|].
  cbn [encodable forallb] in Hs. apply andb_true_iff in Hs as [Hc Hs].
  cbn [flat_map]. rewrite forallb_app, IH by exact Hs.
  rewrite escape_char_clean; [reflexivity|]. now apply negb_true_iff.
Qed.

Lemma newline_indent_clean (level : nat) : forallb clean_char (newline_indent level) = true.
Proof.
  unfold newline_indent. cbn [forallb]. 
  induction (2 * level)%nat as [|n IH]; [reflexivity|exact IH].
Qed.

Lemma checkpoint_chunks_clean (c : checkpoint) :
  encodable_checkpoint c ->
  Forall (fun chunk => forallb clean_char chunk = true) (checkpoint_chunks c).
Proof.
  intros [Hts Hids]. unfold checkpoint_chunks.
  repeat apply Forall_cons; try reflexivity.
  - unfold timestamp_text. destruct (last_checked c); [|reflexivity].
    now apply encode_basestring_clean.
  - apply Forall_app. split; [|repeat constructor].
    destruct Hids as [|id rest Hid Hrest]; [repeat constructor|].
    cbn [ids_chunks]. constructor.
    + rewrite forallb_app, encode_basestring_clean by exact Hid. reflexivity.
    + apply Forall_app. split; [|repeat constructor].
      apply Forall_map. induction Hrest as [|i rest Hi _ IH]; constructor; [|exact IH].
      rewrite forallb_app, encode_basestring_clean by exact Hi. reflexivity.
Qed.

Lemma clean_encodable (s : str) : forallb clean_char s = true -> encodable s = true.
Proof.
  unfold encodable. induction s as [|c s IH]; [reflexivity|].
  cbn [forallb]. unfold clean_char at 1. intros H.
  apply andb_true_iff in H as [H1 H2]. apply andb_true_iff in H1 as [H1 _].
  now rewrite H1, IH.
Qed.

Lemma write_chunks_clean (chunks : list str) (written : str) :
  Forall (fun chunk => forallb clean_char chunk = true) chunks ->
  write_chunks chunks written = (written ++ concat chunks, Ok tt).
Proof.
  intros H. revert written. induction H as [|chunk chunks Hc _ IH]; intros written.
  - cbn. now rewrite app_nil_r.
  - cbn [write_chunks concat]. rewrite (clean_encodable _ Hc), IH.
    now rewrite app_assoc.
Qed.

Lemma universal_newlines_clean (s : str) :
  forallb clean_char s = true -> universal_newlines s = s.
Proof.
  induction s as [|c s IH]; [reflexivity|].
  cbn [forallb]. unfold clean_char at 1. intros H.
  apply andb_true_iff in H as [H1 H2]. apply andb_true_iff in H1 as [_ H1].
  apply negb_true_iff in H1. cbn [universal_newlines]. rewrite H1.
  now rewrite IH.
Qed.

Lemma concat_clean (chunks : list str) :
  Forall (fun chunk => forallb clean_char chunk = true) chunks ->
  forallb clean_char (concat chunks) = true.
Proof.
  induction 1 as [|chunk chunks Hc _ IH]; [reflexivity|].
  cbn [concat]. now rewrite forallb_app, Hc, IH.
Qed.

Lemma scan_once_object_step (fuel : nat) (r : str) :
  scan_once (S fuel) (123 :: r) =
  match skip_ws r with
  | c0 :: r1 => if c0 =? 125 then Ok (JObj [], r1) else parse_members fuel (skip_ws r) []
  | [] => Raise JSONDecodeError
  end.
Proof. reflexivity. Qed.

Lemma scan_once_array_step (fuel : nat) (r : str) :
  scan_once (S fuel) (91 :: r) =
  match skip_ws r with
  | c0 :: r1 => if c0 =? 93 then Ok (JArr [], r1) else parse_elements fuel (skip_ws r) []
  | [] => Raise JSONDecodeError
  end.
Proof. reflexivity. Qed.

Lemma parse_members_step (fuel : nat) (r : str) (acc : pydict) :
  parse_members (S fuel) (QUOTE :: r) acc =
  match scanstring r with
  | Raise e => Raise e
  | Ok (key, r1) =>
    match skip_ws r1 with
    | c1 :: r2 =>
      if c1 =? 58 then
        match scan_once fuel (skip_ws r2) with
        | Raise e => Raise e
        | Ok (value, r3) =>
          match skip_ws r3 with
          | c3 :: r4 =>
            if c3 =? 125 then Ok (JObj (dict_set key value acc), r4)
            else if c3 =? 44
                 then parse_members fuel (skip_ws r4) (dict_set key value acc)
                 else Raise JSONDecodeError
          | [] => Raise JSONDecodeError
          end
        end
      else Raise JSONDecodeError
    | [] => Raise JSONDecodeError
    end
  end.
Proof. reflexivity. Qed.

Lemma scan_once_timestamp (fuel : nat) (c : checkpoint) (rest : str) :
  (1 <= fuel)%nat ->
  scan_once fuel (timestamp_text c ++ rest) = Ok (timestamp_json c, rest).
Proof.
  intros Hfuel. unfold timestamp_text, timestamp_json.
  destruct (last_checked c) as [t|].
  - now apply scan_once_string.
  - destruct fuel; [lia|]. reflexivity.
Qed.

Lemma scan_once_ids (fuel : nat) (ids : list str) (rest : str) :
  (length ids + 3 <= fuel)%nat ->
  scan_once fuel (concat (ids_chunks ids) ++ rest) = Ok (JArr (map JStr ids), rest).
Proof.
  intros Hfuel. destruct fuel as [|fuel]; [lia|].
  destruct ids as [|id ids]; [reflexivity|].
  cbn [ids_chunks concat]. rewrite concat_app. cbn [concat].
  rewrite <- !app_assoc. change (u8 "[") with [91]. cbn [app].
  rewrite scan_once_array_step, skip_ws_newline_indent, skip_ws_quote_app.
  unfold encode_basestring at 1. cbn [app QUOTE N.eqb Pos.eqb].
  fold QUOTE. change (QUOTE :: (flat_map escape_char id ++ [QUOTE]) ++ ?x) with (encode_basestring id ++ x).
  apply (parse_elements_ids ids fuel id [] rest). simpl in Hfuel. lia.
Qed.

Lemma parse_members_key (fuel : nat) (key rest : str) (acc : pydict) :
  parse_members (S fuel) (encode_basestring key ++ rest) acc =
  match skip_ws rest with
  | c1 :: r2 =>
    if c1 =? 58 then
      match scan_once fuel (skip_ws r2) with
      | Raise e => Raise e
      | Ok (value, r3) =>
        match skip_ws r3 with
        | c3 :: r4 =>
          if c3 =? 125 then Ok (JObj (dict_set key value acc), r4)
          else if c3 =? 44
               then parse_members fuel (skip_ws r4) (dict_set key value acc)
               else Raise JSONDecodeError
        | [] => Raise JSONDecodeError
        end
      end
    else Raise JSONDecodeError
  | [] => Raise JSONDecodeError
  end.
Proof.
  unfold encode_basestring. rewrite <- app_comm_cons, <- app_assoc.
  rewrite parse_members_step. cbn [app]. now rewrite scanstring_escaped.
Qed.

Lemma skip_ws_timestamp (c : checkpoint) (rest : str) :
  skip_ws (timestamp_text c ++ rest) = timestamp_text c ++ rest.
Proof. unfold timestamp_text. destruct (last_checked c); reflexivity. Qed.

Lemma skip_ws_ids (ids : list str) (rest : str) :
  skip_ws (concat (ids_chunks ids) ++ rest) = concat (ids_chunks ids) ++ rest.
Proof. destruct ids; reflexivity. Qed.

Lemma scan_checkpoint (fuel : nat) (c : checkpoint) :
  (length (seen_ids c) + 8 <= fuel)%nat ->
  scan_once fuel (concat (checkpoint_chunks c)) = Ok (checkpoint_state c, []).
Proof.
  intros Hfuel. destruct fuel as [|[|[|fuel]]]; [lia..|].
  unfold checkpoint_chunks. rewrite !concat_app. cbn [concat app].
  rewrite <- !app_assoc. change (u8 "{") with [123]. cbn [app].
  rewrite scan_once_object_step, skip_ws_newline_indent, skip_ws_quote_app.
  unfold encode_basestring at 1. cbn [app QUOTE N.eqb Pos.eqb].
  change (34 :: (flat_map escape_char (u8 "last_checked") ++ [34]) ++ ?x)
    with (encode_basestring (u8 "last_checked") ++ x).
  rewrite parse_members_key.
  change (u8 ": ") with [58; 32]. change (u8 ",") with [44].
  cbn [app skip_ws is_ws N.eqb Pos.eqb orb].
  rewrite skip_ws_timestamp, scan_once_timestamp by lia.
  cbn [app skip_ws is_ws N.eqb Pos.eqb orb].
  rewrite skip_ws_newline_indent, skip_ws_quote_app, parse_members_key.
  cbn [app skip_ws is_ws N.eqb Pos.eqb orb].
  rewrite skip_ws_ids, scan_once_ids by lia.
  rewrite skip_ws_newline_indent.
  reflexivity.
Qed.

Lemma length_encode_basestring (s : str) : (2 <= length (encode_basestring s))%nat.
Proof. unfold encode_basestring. cbn [length]. rewrite length_app. cbn [length]. lia. Qed.

Lemma length_more_ids (ids : list str) : (length ids <= length (more_ids ids))%nat.
Proof.
  induction ids as [|id ids IH]; [apply le_n|].
  unfold more_ids in *. cbn [map concat]. rewrite !length_app.
  pose proof (length_encode_basestring id). cbn [length]. lia.
Qed.

Lemma length_ids_chunks (ids : list str) :
  (length ids <= length (concat (ids_chunks ids)))%nat.
Proof.
  destruct ids as [|id ids]; [apply Nat.le_0_l|].
  cbn [ids_chunks concat]. rewrite concat_app, !length_app.
  fold (more_ids ids). pose proof (length_more_ids ids).
  pose proof (length_encode_basestring id). cbn [length]. lia.
Qed.

Lemma length_checkpoint_text (c : checkpoint) :
  (length (seen_ids c) + 8 <= length (concat (checkpoint_chunks c)))%nat.
Proof.
  unfold checkpoint_chunks. rewrite !concat_app. cbn [concat].
  rewrite !length_app. pose proof (length_ids_chunks (seen_ids c)).
  pose proof (length_encode_basestring (u8 "last_checked")).
  pose proof (length_encode_basestring (u8 "seen_ids")).
  change (length (u8 "{")) with 1%nat. change (length (u8 ": ")) with 2%nat.
  change (length (u8 "}")) with 1%nat. cbn [length]. lia.
Qed.

Lemma json_loads_checkpoint (c : checkpoint) :
  json_loads (concat (checkpoint_chunks c)) = Ok (checkpoint_state c).
Proof.
  unfold json_loads.
  pose proof (length_checkpoint_text c) as Hlen.
  assert (Hbom : starts_with_bom (concat (checkpoint_chunks c)) = false) by reflexivity.
  assert (Hws : skip_ws (concat (checkpoint_chunks c)) = concat (checkpoint_chunks c))
    by reflexivity.
  rewrite Hbom, Hws, scan_checkpoint by lia. reflexivity.
Qed.

Lemma state_checkpoint_state (c : checkpoint) :
  state_checkpoint (checkpoint_state c) = Some c.
Proof.
  destruct c as [ts ids]. unfold state_checkpoint, checkpoint_state.
  cbn [py_get dict_get last_checked seen_ids].
  change (str_eqb (u8 "last_checked") (u8 "last_checked")) with true.
  change (str_eqb (u8 "seen_ids") (u8 "last_checked")) with false.
  change (str_eqb (u8 "seen_ids") (u8 "seen_ids")) with true.
  cbn iota.
  assert (Hs : strings_of (map JStr ids) = Some ids).
  { induction ids as [|id ids IH]; [reflexivity|]. cbn [map strings_of]. now rewrite IH. }
  rewrite Hs. destruct ts; reflexivity.
Qed.

(** ** The decoder terminates within its budget *)

Lemma skip_ws_length (s : str) : (length (skip_ws s) <= length s)%nat.
Proof.
  induction s as [|c s IH]; [apply le_n|].
  cbn [skip_ws]. destruct (is_ws c); cbn [length]; lia.
Qed.

Lemma push_shorter (c : char) (r : result (str * str)) (x rest : str) (n : nat) :
  push c r = Ok (x, rest) ->
  (forall x' rest', r = Ok (x', rest') -> (length rest' < n)%nat) ->
  (length rest < n)%nat.
Proof.
  destruct r as [[x' rest']|e]; cbn [push]; [|discriminate].
  intros [= _ <-] Hr. now apply (Hr x').
Qed.

Lemma scanstring_shorter (n : nat) :
  forall s x rest,
    (length s <= n)%nat ->
    scanstring s = Ok (x, rest) -> (length rest < length s)%nat.
Proof.
  induction n as [|n IH]; intros s x rest Hlen.
  - destruct s; [discriminate|cbn in Hlen; lia].
  - destruct s as [|c r]; [discriminate|]. cbn [length] in Hlen.
    assert (Hrec : forall t x' rest', (length t <= n)%nat ->
                     scanstring t = Ok (x', rest') -> (length rest' < S (length t))%nat).
    { intros t x' rest' Ht Hs. specialize (IH t x' rest' Ht Hs). lia. }
    cbn [scanstring].
    destruct (c =? 34); [intros [= _ <-]; cbn; lia|].
    destruct (c =? 92).
    2:{ destruct (c <? 32); [discriminate|]. intros Hp. cbn [length].
        apply (push_shorter _ _ _ _ _ Hp). intros x' rest' Hs.
        apply Hrec in Hs; lia. }
    destruct r as [|e r1]; [discriminate|].
    destruct (e =? 117).
    2:{ destruct (unescape e); [|discriminate]. intros Hp. cbn [length].
        apply (push_shorter _ _ _ _ _ Hp). intros x' rest' Hs.
        apply Hrec in Hs; cbn [length] in *; lia. }
    destruct r1 as [|h1 [|h2 [|h3 [|h4 r2]]]]; try discriminate.
    destruct (hex4 h1 h2 h3 h4) as [u|]; [|discriminate].
    cbn [length] in *.
    assert (Hr2 : forall c0 x0 rest0, push c0 (scanstring r2) = Ok (x0, rest0) ->
                    (length rest0 < S (S (S (S (S (S (length r2)))))))%nat).
    { intros c0 x0 rest0 Hp. apply (push_shorter _ _ _ _ _ Hp). intros x' rest' Hs.
      apply Hrec in Hs; lia. }
    destruct (is_high_surrogate u); [|apply Hr2].
    destruct r2 as [|b [|e' [|g1 [|g2 [|g3 [|g4 r3]]]]]]; try apply Hr2.
    destruct ((b =? 92) && (e' =? 117)); [|apply Hr2].
    destruct (hex4 g1 g2 g3 g4) as [u2|]; [|apply Hr2].
    destruct (is_low_surrogate u2); [|apply Hr2].
    intros Hp. apply (push_shorter _ _ _ _ _ Hp). intros x' rest' Hs.
    apply Hrec in Hs; cbn [length] in *; lia.
Qed.

Lemma strip_prefix_length (p s rest : str) :
  strip_prefix p s = Some rest -> (length rest <= length s)%nat.
Proof.
  revert s. induction p as [|x p IH]; intros [|y s]; cbn [strip_prefix];
    try discriminate; try (intros [= <-]; apply le_n).
  destruct (x =? y); [|discriminate]. intros Hs. apply IH in Hs. cbn [length]. lia.
Qed.

Lemma expect_shorter (lit : str) (v v' : json) (s rest : str) :
  expect lit v s = Ok (v', rest) -> (length rest <= length s)%nat.
Proof.
  unfold expect. destruct (strip_prefix lit s) eqn:Hs; [|discriminate].
  intros [= _ <-]. now apply strip_prefix_length in Hs.
Qed.

Lemma scan_digits_length (s : str) :
  forall acc, (length (snd (scan_digits s acc)) <= length s)%nat.
Proof.
  induction s as [|c s IH]; intros acc; [apply le_n|].
  cbn [scan_digits]. destruct (is_digit c); [|apply le_n].
  specialize (IH (10 * acc + Z.of_N (c - 48))%Z). cbn [length]. lia.
Qed.

Lemma scan_number_shorter (neg : bool) (s : str) (v : json) (rest : str) :
  scan_number neg s = Ok (v, rest) -> (length rest < length s)%nat.
Proof.
  unfold scan_number. destruct s as [|c r]; [discriminate|].
  destruct (c =? 48).
  { destruct (float_follows r); [discriminate|]. intros [= _ <-]. cbn; lia. }
  destruct (is_digit c) eqn:Hd; [|discriminate].
  pose proof (scan_digits_length r (10 * 0 + Z.of_N (c - 48))%Z) as Hlen.
  cbn [scan_digits]. rewrite Hd.
  destruct (scan_digits r _) as [n rest']. cbn [snd] in Hlen.
  destruct (float_follows rest'); [discriminate|]. intros [= _ <-]. cbn [length]. lia.
Qed.

Lemma decoder_consumes (fuel : nat) :
  consumes (scan_once fuel)
  /\ (forall acc, consumes (fun s => parse_members fuel s acc))
  /\ (forall acc, consumes (fun s => parse_elements fuel s acc)).
Proof.
  induction fuel as [|fuel (IHs & IHm & IHe)];
    [repeat split; intros; intros s v rest; discriminate|].
  split; [|split].
  - intros s v rest. destruct s as [|c r]; [discriminate|]. cbn [scan_once length].
    destruct (c =? 34).
    { destruct (scanstring r) as [[x rest']|e] eqn:Hs; [|discriminate].
      intros [= _ <-]. apply (scanstring_shorter (length r)) in Hs; lia. }
    destruct (c =? 123).
    { pose proof (skip_ws_length r) as Hws.
      destruct (skip_ws r) as [|c0 r1] eqn:Hr0; [discriminate|].
      destruct (c0 =? 125); [intros [= _ <-]; cbn [length] in Hws; lia|].
      intros Hm. apply IHm in Hm. lia. }
    destruct (c =? 91).
    { pose proof (skip_ws_length r) as Hws.
      destruct (skip_ws r) as [|c0 r1] eqn:Hr0; [discriminate|].
      destruct (c0 =? 93); [intros [= _ <-]; cbn [length] in Hws; lia|].
      intros Hm. apply IHe in Hm. lia. }
    destruct (c =? 110); [intros He; apply expect_shorter in He; lia|].
    destruct (c =? 116); [intros He; apply expect_shorter in He; lia|].
    destruct (c =? 102); [intros He; apply expect_shorter in He; lia|].
    destruct (c =? 78); [destruct (strip_prefix _ r); discriminate|].
    destruct (c =? 73); [destruct (strip_prefix _ r); discriminate|].
    destruct (c =? 45).
    { destruct (strip_prefix _ r); [discriminate|].
      intros Hn. apply scan_number_shorter in Hn. lia. }
    intros Hn. apply scan_number_shorter in Hn. cbn [length] in Hn. lia.
  - intros acc s v rest. cbn beta. destruct s as [|c r]; [discriminate|].
    cbn [parse_members length]. destruct (c =? 34); [|discriminate].
    destruct (scanstring r) as [[key r1]|e] eqn:Hs; [|discriminate].
    apply (scanstring_shorter (length r)) in Hs; [|apply le_n].
    pose proof (skip_ws_length r1) as Hw1.
    destruct (skip_ws r1) as [|c1 r2]; [discriminate|].
    destruct (c1 =? 58); [|discriminate].
    pose proof (skip_ws_length r2) as Hw2.
    destruct (scan_once fuel (skip_ws r2)) as [[value r3]|e] eqn:Hv; [|discriminate].
    apply IHs in Hv.
    pose proof (skip_ws_length r3) as Hw3.
    destruct (skip_ws r3) as [|c3 r4]; [discriminate|].
    cbn [length] in *.
    destruct (c3 =? 125); [intros [= _ <-]; lia|].
    destruct (c3 =? 44); [|discriminate].
    intros Hm. apply IHm in Hm. pose proof (skip_ws_length r4). lia.
  - intros acc s v rest. cbn beta. cbn [parse_elements].
    destruct (scan_once fuel s) as [[value r1]|e] eqn:Hv; [|discriminate].
    apply IHs in Hv.
    pose proof (skip_ws_length r1) as Hw1.
    destruct (skip_ws r1) as [|c1 r2]; [discriminate|].
    cbn [length] in *.
    destruct (c1 =? 93); [intros [= _ <-]; lia|].
    destruct (c1 =? 44); [|discriminate].
    intros Hm. apply IHe in Hm. pose proof (skip_ws_length r2). lia.
Qed.

Lemma push_not_recursion (c : char) (r : result (str * str)) :
  r <> Raise RecursionError -> push c r <> Raise RecursionError.
Proof. destruct r as [[x rest]|e]; cbn; congruence. Qed.

Lemma scanstring_not_recursion (n : nat) :
  forall s, (length s <= n)%nat -> scanstring s <> Raise RecursionError.
Proof.
  induction n as [|n IH]; intros s Hlen.
  - destruct s; [discriminate|cbn in Hlen; lia].
  - destruct s as [|c r]; [discriminate|]. cbn [length] in Hlen. cbn [scanstring].
    destruct (c =? 34); [discriminate|].
    destruct (c =? 92).
    2:{ destruct (c <? 32); [discriminate|]. apply push_not_recursion, IH. lia. }
    destruct r as [|e r1]; [discriminate|].
    destruct (e =? 117).
    2:{ destruct (unescape e); [|discriminate].
        apply push_not_recursion, IH. cbn [length] in Hlen. lia. }
    destruct r1 as [|h1 [|h2 [|h3 [|h4 r2]]]]; try discriminate.
    destruct (hex4 h1 h2 h3 h4) as [u|]; [|discriminate].
    cbn [length] in Hlen.
    assert (Hr2 : forall c0, push c0 (scanstring r2) <> Raise RecursionError)
      by (intros c0; apply push_not_recursion, IH; lia).
    destruct (is_high_surrogate u); [|apply Hr2].
    destruct r2 as [|b [|e' [|g1 [|g2 [|g3 [|g4 r3]]]]]]; try apply Hr2.
    destruct ((b =? 92) && (e' =? 117)); [|apply Hr2].
    destruct (hex4 g1 g2 g3 g4) as [u2|]; [|apply Hr2].
    destruct (is_low_surrogate u2); [|apply Hr2].
    apply push_not_recursion, IH. cbn [length] in Hlen. lia.
Qed.

Lemma scan_number_not_recursion (neg : bool) (s : str) :
  scan_number neg s <> Raise RecursionError.
Proof.
  unfold scan_number. destruct s as [|c r]; [discriminate|].
  destruct (c =? 48); [destruct (float_follows r); discriminate|].
  destruct (is_digit c); [|discriminate].
  destruct (scan_digits _ _) as [n rest]. destruct (float_follows rest); discriminate.
Qed.

Lemma expect_not_recursion (lit : str) (v : json) (s : str) :
  expect lit v s <> Raise RecursionError.
Proof. unfold expect. destruct (strip_prefix lit s); discriminate. Qed.

(** The budget [json_loads] passes is enough for any text: the decoder
    never runs out of it. *)
Lemma decoder_fuel (fuel : nat) :
  (forall s, (2 * length s + 1 <= fuel)%nat ->
     scan_once fuel s <> Raise RecursionError)
  /\ (forall s acc, (2 * length s + 1 <= fuel)%nat ->
        parse_members fuel s acc <> Raise RecursionError)
  /\ (forall s acc, (2 * length s + 2 <= fuel)%nat ->
        parse_elements fuel s acc <> Raise RecursionError).
Proof.
  induction fuel as [|fuel (IHs & IHm & IHe)]; [repeat split; intros; lia|].
  destruct (decoder_consumes fuel) as (Cs & Cm & Ce).
  split; [|split].
  - intros s Hfuel. destruct s as [|c r]; [discriminate|]. cbn [scan_once length] in *.
    destruct (c =? 34).
    { pose proof (scanstring_not_recursion (length r) r (le_n _)) as Hs.
      destruct (scanstring r) as [[x rest']|e]; congruence. }
    destruct (c =? 123).
    { pose proof (skip_ws_length r) as Hws.
      destruct (skip_ws r) as [|c0 r1] eqn:Hr0; [discriminate|].
      destruct (c0 =? 125); [discriminate|]. apply IHm. lia. }
    destruct (c =? 91).
    { pose proof (skip_ws_length r) as Hws.
      destruct (skip_ws r) as [|c0 r1] eqn:Hr0; [discriminate|].
      destruct (c0 =? 93); [discriminate|]. apply IHe. lia. }
    destruct (c =? 110); [apply expect_not_recursion|].
    destruct (c =? 116); [apply expect_not_recursion|].
    destruct (c =? 102); [apply expect_not_recursion|].
    destruct (c =? 78); [destruct (strip_prefix _ r); discriminate|].
    destruct (c =? 73); [destruct (strip_prefix _ r); discriminate|].
    destruct (c =? 45).
    { destruct (strip_prefix _ r); [discriminate|apply scan_number_not_recursion]. }
    apply scan_number_not_recursion.
  - intros s acc Hfuel. destruct s as [|c r]; [discriminate|].
    cbn [parse_members length] in *. destruct (c =? 34); [|discriminate].
    pose proof (scanstring_not_recursion (length r) r (le_n _)) as Hnr.
    destruct (scanstring r) as [[key r1]|e] eqn:Hs; [|congruence].
    apply (scanstring_shorter (length r)) in Hs; [|apply le_n].
    pose proof (skip_ws_length r1) as Hw1.
    destruct (skip_ws r1) as [|c1 r2]; [discriminate|].
    destruct (c1 =? 58); [|discriminate].
    pose proof (skip_ws_length r2) as Hw2. cbn [length] in *.
    assert (Hv' : scan_once fuel (skip_ws r2) <> Raise RecursionError) by (apply IHs; lia).
    destruct (scan_once fuel (skip_ws r2)) as [[value r3]|e] eqn:Hv; [|congruence].
    apply Cs in Hv.
    pose proof (skip_ws_length r3) as Hw3.
    destruct (skip_ws r3) as [|c3 r4]; [discriminate|].
    cbn [length] in *.
    destruct (c3 =? 125); [discriminate|].
    destruct (c3 =? 44); [|discriminate].
    apply IHm. pose proof (skip_ws_length r4). lia.
  - intros s acc Hfuel. cbn [parse_elements].
    assert (Hv' : scan_once fuel s <> Raise RecursionError) by (apply IHs; lia).
    destruct (scan_once fuel s) as [[value r1]|e] eqn:Hv; [|congruence].
    apply Cs in Hv.
    pose proof (skip_ws_length r1) as Hw1.
    destruct (skip_ws r1) as [|c1 r2]; [discriminate|].
    cbn [length] in *.
    destruct (c1 =? 93); [discriminate|].
    destruct (c1 =? 44); [|discriminate].
    apply IHe. pose proof (skip_ws_length r2). lia.
Qed.

Lemma json_loads_total (s : str) : json_loads s <> Raise RecursionError.
Proof.
  unfold json_loads. destruct (starts_with_bom s); [discriminate|].
  pose proof (skip_ws_length s) as Hws.
  assert (Hs : scan_once (2 * length s + 2) (skip_ws s) <> Raise RecursionError).
  { apply (proj1 (decoder_fuel _)). lia. }
  destruct (scan_once _ _) as [[v rest]|e]; [|congruence].
  destruct (skip_ws rest); discriminate.
Qed.

Section CheckpointFile.

Context `{Platform}.

(** C4 (as amended). For every checkpoint whose timestamp and
    identifiers hold no lone surrogate code point, [save_state] succeeds
    and [load_state] then returns the very state that was saved: the same
    timestamp and the same identifiers (in the same order, hence the same
    set). *)
Theorem checkpoint_round_trip (c : checkpoint) (s : pstate) :
  encodable_checkpoint c ->
  exists s1,
    save_state (checkpoint_state c) s = (s1, Done tt)
    /\ load_state s1 = (s1, Done (checkpoint_state c))
    /\ state_checkpoint (checkpoint_state c) = Some c.
Proof.
  intros Henc.
  pose proof (checkpoint_chunks_clean c Henc) as Hclean.
  unfold save_state. rewrite iterencode_checkpoint, (write_chunks_clean _ [] Hclean).
  cbn [app lift]. eexists. split; [reflexivity|].
  split; [|apply state_checkpoint_state].
  unfold load_state, read_state. cbn [st_disk lift].
  rewrite (universal_newlines_clean _ (concat_clean _ Hclean)).
  now rewrite json_loads_checkpoint.
Qed.

End CheckpointFile.

Lemma checkpoint_round_trip_witness :
  encodable_checkpoint sample_checkpoint
  /\ exists s1,
       save_state (checkpoint_state sample_checkpoint) empty_disk = (s1, Done tt)
       /\ load_state s1 = (s1, Done (checkpoint_state sample_checkpoint))
       /\ state_checkpoint (checkpoint_state sample_checkpoint)
          = Some sample_checkpoint.
Proof.
  assert (Henc : encodable_checkpoint sample_checkpoint).
  { split; [reflexivity|]. repeat constructor. }
  split; [exact Henc|].
  exact (checkpoint_round_trip sample_checkpoint empty_disk Henc).
Defined.

(** C4, as stated, fails: a checkpoint whose identifier holds a lone
    surrogate cannot be saved, and the file it leaves does not load. *)
Lemma checkpoint_round_trip_counterexample :
  let '(s1, saved) := save_state (checkpoint_state surrogate_checkpoint) empty_disk in
  saved = Threw UnicodeEncodeError
  /\ snd (load_state s1) = Threw JSONDecodeError
  /\ snd (load_state s1) <> Done (checkpoint_state surrogate_checkpoint).
Proof.
  vm_compute. repeat split; discriminate.
Qed.

(* ================================================================== *)
(** * Reasoning about the script: weakest preconditions, pagination *)

Section Logic.

Context `{Platform}.
Local Open Scope script_scope.

Lemma wp_ret {A} (a : A) Q E s : wp (ret a) Q E s = Q a s.
Proof. reflexivity. Qed.

Lemma wp_bind {A B} (m : M A) (f : A -> M B) Q E s :
  wp (bind m f) Q E s = wp m (fun a => wp (f a) Q E) E s.
Proof. unfold wp, bind. destruct (m s) as [s' [a|e|]]; reflexivity. Qed.

Lemma wp_lift {A} (r : result A) Q E s :
  wp (lift r) Q E s = match r with Ok a => Q a s | Raise e => E (Some e) s end.
Proof. destruct r; reflexivity. Qed.

Lemma wp_spin {A} (Q : A -> pstate -> Prop) E s : wp spin Q E s = E None s.
Proof. reflexivity. Qed.

Lemma wp_mono {A} (m : M A) (Q Q' : A -> pstate -> Prop) (E E' : option exn -> pstate -> Prop) s :
  (forall a s', Q a s' -> Q' a s') ->
  (forall o s', E o s' -> E' o s') ->
  wp m Q E s -> wp m Q' E' s.
Proof.
  unfold wp. intros HQ HE. destruct (m s) as [s' [a|e|]]; auto.
Qed.

Lemma wp_foldM {A B} (f : B -> A -> M B) (I : B -> pstate -> Prop) E (l : list A) :
  (forall b x s, In x l -> I b s -> wp (f b x) I E s) ->
  forall b s, I b s -> wp (foldM f l b) I E s.
Proof.
  induction l as [|x l IH]; intros Hf b s Hb; cbn [foldM].
  - exact Hb.
  - rewrite wp_bind. eapply wp_mono; [| |apply Hf; [now left|exact Hb]].
    + intros b' s' Hb'. apply IH; [|exact Hb']. intros; apply Hf; [now right|assumption].
    + auto.
Qed.

Lemma wp_emit ev Q E s : wp (emit ev) Q E s = Q tt (logged s [ev] (st_world s)).
Proof. reflexivity. Qed.

Lemma wp_http ep rq Q E s :
  wp (http ep rq) Q E s =
  let '(w, rs) := http_send (st_world s) rq in
  match rs with
  | Ok r => Q r (logged s [EvHttp ep rq rs] w)
  | Raise e => E (Some e) (logged s [EvHttp ep rq rs] w)
  end.
Proof. unfold wp, http. destruct (http_send _ _) as [w [r|e]]; reflexivity. Qed.

Lemma wp_now Q E s :
  wp now Q E s =
  let '(w, t) := clock (st_world s) in Q (utc t) (logged s [EvClock t] w).
Proof. unfold wp, now. destruct (clock _) as [w t]; reflexivity. Qed.

Lemma wp_run {A} (m : M A) Q E s :
  wp m Q E s ->
  match snd (m s) with
  | Done a => Q a (fst (m s))
  | Threw e => E (Some e) (fst (m s))
  | Running => E None (fst (m s))
  end.
Proof. unfold wp. destruct (m s) as [s' [a|e|]]; auto. Qed.


Lemma query_loop_pages (pages : list page) :
  forall fuel url payload results s,
    pages <> [] ->
    serves (st_world s) url payload pages ->
    (length pages <= fuel)%nat ->
    wp (query_loop fuel url payload results)
       (fun res s' =>
          res = results ++ concat (map fst pages)
          /\ st_disk s' = st_disk s
          /\ exists delta,
               st_log s' = st_log s ++ delta
               /\ length delta = length pages
               /\ http_requests delta = cursor_requests url payload pages)
       (fun _ _ => False) s.
Proof.
  induction pages as [|pg rest IH]; intros fuel url payload results s Hne Hserves Hfuel;
    [congruence|].
  destruct fuel as [|fuel]; [cbn in Hfuel; lia|].
  cbn [serves] in Hserves.
  destruct Hserves as (w' & rs & Hsend & (Hstatus & data & hm & Hjson & Hres & Hmore & Htruthy & Hcur) & Hrest).
  cbn [query_loop].
  rewrite wp_bind, wp_http, Hsend. cbn iota.
  rewrite wp_bind, wp_lift, Hstatus.
  rewrite wp_bind, wp_lift, Hjson.
  rewrite wp_bind, wp_lift, Hres.
  rewrite wp_bind, wp_lift. cbn [py_iter].
  rewrite wp_bind, wp_lift, Hmore. rewrite Htruthy.
  destruct rest as [|pg' rest].
  - cbn [negb]. rewrite wp_ret. cbn [map concat logged st_log st_disk cursor_requests].
    rewrite app_nil_r. repeat split. eexists. repeat split.
  - cbn [negb]. rewrite wp_bind, wp_lift, Hcur.
    eapply wp_mono; [| |apply IH; [discriminate|exact Hrest|cbn in Hfuel |- *; lia]].
    + cbn [logged st_log st_disk]. intros res s' (-> & Hdisk & delta & Hlog & Hlen & Hreq).
      repeat split.
      * cbn [map concat]. now rewrite <- app_assoc.
      * exact Hdisk.
      * eexists. rewrite Hlog, <- app_assoc. split; [reflexivity|].
        cbn [app length]. rewrite Hlen. split; [reflexivity|].
        cbn [http_requests flat_map app]. fold (http_requests delta).
        rewrite Hreq. reflexivity.
    + auto.
Qed.

(** C8. When the successive queries are answered with [n] pages, all but
    the last with [has_more], the record-fetching client sends exactly
    [n] requests, each carrying the [next_cursor] of the page before, and
    returns the results of the pages concatenated in request order. *)
Theorem pagination_traversal
    (fuel : nat) (db_id : str) (after_iso : json) (pages : list page) (s : pstate) :
  pages <> [] ->
  serves (st_world s) (query_url db_id) (query_payload after_iso) pages ->
  (length pages <= fuel)%nat ->
  exists s' requests,
    query_new_db_pages fuel db_id after_iso s = (s', Done (concat (map fst pages)))
    /\ http_requests (st_log s') = http_requests (st_log s) ++ requests
    /\ requests = cursor_requests (query_url db_id) (query_payload after_iso) pages
    /\ length requests = length pages.
Proof.
  intros Hne Hserves Hfuel.
  pose proof (query_loop_pages pages fuel _ _ [] s Hne Hserves Hfuel) as Hloop.
  unfold query_new_db_pages, bind. unfold wp in Hloop.
  destruct (query_loop fuel _ _ [] s) as [s1 [res| |]]; try contradiction.
  destruct Hloop as (-> & Hdisk & delta & Hlog & Hlen & Hreq).
  cbn [emit ret app]. eexists. eexists. split; [reflexivity|].
  cbn [st_log]. rewrite Hlog. unfold http_requests at 1.
  rewrite !flat_map_app. cbn [flat_map app]. rewrite app_nil_r.
  fold (http_requests (st_log s)). fold (http_requests delta).
  rewrite Hreq. split; [reflexivity|]. split; [reflexivity|].
  clear. generalize (query_payload after_iso) as payload.
  induction pages as [|pg rest IH]; intros payload; [reflexivity|].
  cbn [cursor_requests length]. now rewrite IH.
Qed.




End Logic.

(* ================================================================== *)
(** * The source client only talks to Notion *)

Ltac stop_here :=
  split; [reflexivity|]; eexists; split; [cbn [logged st_log]; reflexivity|];
  split; [reflexivity|].

Ltac lift_or tac :=
  rewrite wp_bind, wp_lift;
  match goal with
  | |- match ?r with Ok _ => _ | Raise _ => _ end => destruct r; [|tac]
  end.

Section Frames.
Context `{Platform}.
Local Open Scope script_scope.

Lemma wp_conj {A} (m : M A) Q1 Q2 E1 E2 s :
  wp m Q1 E1 s -> wp m Q2 E2 s ->
  wp m (fun a s' => Q1 a s' /\ Q2 a s') (fun o s' => E1 o s' /\ E2 o s') s.
Proof. unfold wp. destruct (m s) as [s' [a|e|]]; auto. Qed.

Lemma clean_app (a b : list event) : clean a -> clean b -> clean (a ++ b).
Proof. unfold clean. intros; apply Forall_app; auto. Qed.

Lemma clean_nil : clean [].
Proof. constructor. Qed.

Lemma clean_one (ev : event) : failed_event ev = false -> clean [ev].
Proof. unfold clean. repeat constructor. assumption. Qed.

Lemma stopped_clean (o : option exn) (log : list event) : clean log -> stopped o log.
Proof. now left. Qed.

Lemma stopped_app (o : option exn) (a b : list event) :
  clean a -> stopped o b -> stopped o (a ++ b).
Proof.
  intros Ha [Hb | (pre & ev & e & -> & Hpre & Hev & ->)].
  - left. now apply clean_app.
  - right. exists (a ++ pre), ev, e. rewrite app_assoc. repeat split; auto.
    now apply clean_app.
Qed.

Lemma stopped_last (e : exn) (pre : list event) (ev : event) :
  clean pre -> failed_event ev = true -> stopped (Some e) (pre ++ [ev]).
Proof. intros. right. exists pre, ev, e. auto. Qed.

Lemma extends_refl (P : list event -> Prop) s : P [] -> extends P s s.
Proof. intros HP. split; [reflexivity|]. exists []. now rewrite app_nil_r. Qed.

Lemma extends_step (P P' : list event -> Prop) (evs : list event) w s s' :
  forallb neutral evs = true ->
  extends P (logged s evs w) s' ->
  (forall delta, P delta -> P' (evs ++ delta)) ->
  extends P' s s'.
Proof.
  intros Hn [Hdisk (delta & Hlog & Hneutral & HP)] Himp.
  split; [exact Hdisk|]. exists (evs ++ delta).
  cbn [logged st_log] in Hlog. rewrite Hlog, <- app_assoc.
  split; [reflexivity|]. split; [|now apply Himp].
  now rewrite forallb_app, Hn, Hneutral.
Qed.


(** One checked exchange with Notion, then the rest of the loop body. *)
Lemma query_loop_frame (fuel : nat) :
  forall url payload results s,
    wp (query_loop fuel url payload results)
       (fun _ s' => extends clean s s')
       (fun o s' => extends (stopped o) s s') s.
Proof.
  induction fuel as [|fuel IH]; intros url payload results s; cbn [query_loop].
  - rewrite wp_spin. apply extends_refl. left. apply clean_nil.
  - rewrite wp_bind, wp_http.
    destruct (http_send (st_world s) (query_request url payload)) as [w [r|e]] eqn:Hsend.
    2:{ stop_here. apply (stopped_last e []); [apply clean_nil|reflexivity]. }
    rewrite wp_bind, wp_lift.
    destruct (raise_for_status r) as [[]|e] eqn:Hst.
    2:{ stop_here. apply (stopped_last e []); [apply clean_nil|]. cbn. now rewrite Hst. }
    assert (Hev : clean [EvHttp Notion (query_request url payload) (Ok r)])
      by (apply clean_one; cbn; now rewrite Hst).
    rewrite wp_bind, wp_lift. destruct (resp_json r) as [data|e].
    2:{ stop_here. now left. }
    rewrite wp_bind, wp_lift. destruct (py_get data _ _) as [rr|e].
    2:{ stop_here. now left. }
    rewrite wp_bind, wp_lift. destruct (py_iter rr) as [items|e].
    2:{ stop_here. now left. }
    rewrite wp_bind, wp_lift. destruct (py_get data _ _) as [hm|e].
    2:{ stop_here. now left. }
    destruct (negb (truthy hm)).
    { rewrite wp_ret. stop_here. exact Hev. }
    rewrite wp_bind, wp_lift. destruct (py_get data _ _) as [nc|e].
    2:{ stop_here. now left. }
    eapply wp_mono; [| |apply IH].
    + intros ? s' Hext. eapply extends_step; [|exact Hext|]; [reflexivity|].
      intros delta Hd. now apply clean_app.
    + intros o s' Hext. eapply extends_step; [|exact Hext|]; [reflexivity|].
      intros delta Hd. now apply stopped_app.
Qed.



Lemma list_loop_frame (fuel : nat) :
  forall page_id url after_dt out s,
    wp (list_loop fuel page_id url after_dt out)
       (fun _ s' => extends clean s s')
       (fun o s' => extends (stopped o) s s') s.
Proof.
  induction fuel as [|fuel IH]; intros page_id url after_dt out s; cbn [list_loop].
  - rewrite wp_spin. apply extends_refl. left. apply clean_nil.
  - rewrite wp_bind, wp_http.
    destruct (http_send (st_world s) (list_request url)) as [w [r|e]] eqn:Hsend.
    2:{ stop_here. apply (stopped_last e []); [apply clean_nil|reflexivity]. }
    rewrite wp_bind, wp_lift.
    destruct (raise_for_status r) as [[]|e] eqn:Hst.
    2:{ stop_here. apply (stopped_last e []); [apply clean_nil|]. cbn. now rewrite Hst. }
    assert (Hev : clean [EvHttp Notion (list_request url) (Ok r)])
      by (apply clean_one; cbn; now rewrite Hst).
    do 5 (lift_or ltac:(stop_here; now left)).
    destruct (negb (truthy _)).
    { rewrite wp_ret. stop_here. exact Hev. }
    lift_or ltac:(stop_here; now left).
    eapply wp_mono; [| |apply IH].
    + intros ? s' Hext. eapply extends_step; [|exact Hext|]; [reflexivity|].
      intros delta Hd. now apply clean_app.
    + intros o s' Hext. eapply extends_step; [|exact Hext|]; [reflexivity|].
      intros delta Hd. now apply stopped_app.
Qed.

Lemma extends_fetched (ph : phase) (items : list json) s s' :
  extends clean s s' ->
  extends clean s (logged s' [EvFetched ph items] (st_world s')).
Proof.
  intros [Hdisk (delta & Hlog & Hn & Hc)]. split; [exact Hdisk|].
  exists (delta ++ [EvFetched ph items]). cbn [logged st_log].
  rewrite Hlog, <- app_assoc. split; [reflexivity|].
  rewrite forallb_app, Hn. split; [reflexivity|].
  apply clean_app; [exact Hc|]. now apply clean_one.
Qed.

Lemma query_new_db_pages_frame fuel db_id after_iso s :
  wp (query_new_db_pages fuel db_id after_iso)
     (fun _ s' => extends clean s s')
     (fun o s' => extends (stopped o) s s') s.
Proof.
  unfold query_new_db_pages. rewrite wp_bind.
  eapply wp_mono; [| |apply query_loop_frame]; [|auto].
  intros results s' Hext. rewrite wp_bind, wp_emit, wp_ret.
  now apply extends_fetched.
Qed.

Lemma list_new_blocks_frame fuel page_id after_dt s :
  wp (list_new_blocks fuel page_id after_dt)
     (fun _ s' => extends clean s s')
     (fun o s' => extends (stopped o) s s') s.
Proof.
  unfold list_new_blocks. rewrite wp_bind.
  eapply wp_mono; [| |apply list_loop_frame]; [|auto].
  intros results s' Hext. rewrite wp_bind, wp_emit, wp_ret.
  now apply extends_fetched.
Qed.

End Frames.

(* ================================================================== *)
(** * The invariant of a run *)

Section Invariant.
Context `{Platform}.
Local Open Scope script_scope.

Variable d : option str.
Variable seen0 : list hkey.

#[local] Abbreviation Tidy := (tidy d seen0).
#[local] Abbreviation Settled := (settled d seen0).
#[local] Abbreviation Halted := (halted d seen0).

Lemma hkey_eqb_eq (a b : hkey) : hkey_eqb a b = true <-> a = b.
Proof.
  destruct a, b; cbn; split; try discriminate; try reflexivity.
  - intros E. apply Z.eqb_eq in E. now subst.
  - intros [= ->]. apply Z.eqb_refl.
  - intros E. apply str_eqb_eq in E. now subst.
  - intros [= ->]. apply str_eqb_refl.
Qed.

Lemma key_in_false (k : hkey) (seen : pyset) :
  key_in k seen = false -> ~ In k (set_keys seen).
Proof.
  unfold key_in. intros Hex Hin.
  assert (existsb (hkey_eqb k) (set_keys seen) = true); [|congruence].
  apply existsb_exists. exists k. split; [exact Hin|]. now apply hkey_eqb_eq.
Qed.

Lemma flat_map_neutral {B} (f : event -> list B) (delta : list event) :
  (forall ev, neutral ev = true -> f ev = []) ->
  forallb neutral delta = true -> flat_map f delta = [].
Proof.
  intros Hf. induction delta as [|ev delta IH]; [reflexivity|].
  cbn [forallb flat_map]. intros Hn. apply andb_true_iff in Hn as [Hev Hn].
  now rewrite (Hf ev Hev), IH.
Qed.

Lemma neutral_formatted delta log :
  forallb neutral delta = true -> formatted_items (log ++ delta) = formatted_items log.
Proof.
  intros Hn. unfold formatted_items. rewrite flat_map_app, (flat_map_neutral _ delta), app_nil_r; auto.
  intros [| [] | | |]; cbn; congruence.
Qed.

Lemma neutral_notified delta log :
  forallb neutral delta = true -> notified_keys (log ++ delta) = notified_keys log.
Proof. intros Hn. unfold notified_keys. now rewrite neutral_formatted. Qed.

Lemma neutral_posted delta log :
  forallb neutral delta = true -> posted_requests (log ++ delta) = posted_requests log.
Proof.
  intros Hn. unfold posted_requests. rewrite flat_map_app, (flat_map_neutral _ delta), app_nil_r; auto.
  intros [| [] | | |]; cbn; congruence.
Qed.

Lemma neutral_expected delta log :
  forallb neutral delta = true -> expected_requests (log ++ delta) = expected_requests log.
Proof.
  intros Hn. unfold expected_requests. rewrite flat_map_app, (flat_map_neutral _ delta), app_nil_r; auto.
  intros [| [] | | |]; cbn; congruence.
Qed.

Lemma neutral_saves delta log :
  forallb neutral delta = true -> saves (log ++ delta) = saves log.
Proof.
  intros Hn. unfold saves. rewrite flat_map_app, (flat_map_neutral _ delta), app_nil_r; auto.
  intros [| [] | | |]; cbn; congruence.
Qed.

Lemma tidy_extends (P : list event -> Prop) s s' :
  Tidy s -> extends P s s' -> Tidy s'.
Proof.
  intros (Hd & Hs & Hky & Hnd & Hfr & Hpost) [Hdisk (delta & Hlog & Hn & _)].
  unfold tidy. rewrite Hlog, neutral_saves, neutral_notified, neutral_expected,
    neutral_posted, neutral_formatted by exact Hn.
  repeat split; auto. congruence.
Qed.

Lemma settled_extends seen s s' :
  Settled seen s -> extends clean s s' -> Settled seen s'.
Proof.
  intros (Ht & Hc & He & Hi0 & Hi) Hext.
  split; [now apply (tidy_extends clean s)|].
  destruct Hext as [Hdisk (delta & Hlog & Hn & Hcd)].
  rewrite Hlog, neutral_notified, neutral_expected, neutral_posted by exact Hn.
  repeat split; auto. now apply clean_app.
Qed.

Lemma halted_extends seen o s s' :
  Settled seen s -> extends (stopped o) s s' -> Halted o s'.
Proof.
  intros (Ht & Hc & He & Hi0 & Hi) Hext.
  split; [now apply (tidy_extends (stopped o) s)|].
  destruct Hext as [Hdisk (delta & Hlog & Hn & Hcd)].
  rewrite Hlog. now apply stopped_app.
Qed.

Lemma settled_halted seen o s : Settled seen s -> Halted o s.
Proof. intros (Ht & Hc & _). split; [exact Ht|now left]. Qed.

Lemma notify_settled ph seen item s :
  Settled seen s -> wp (notify ph seen item) Settled Halted s.
Proof.
  intros Hs. pose proof Hs as ((Hd & Hsv & Hky & Hnd & Hfr & Hpost) & Hc & He & Hi0 & Hi).
  unfold notify.
  rewrite wp_bind, wp_lift. destruct (py_get item (u8 "id") JNull) as [id|e] eqn:Hid;
    [|now apply (settled_halted seen)].
  rewrite wp_bind, wp_lift. unfold set_contains, set_add.
  destruct (key_of id) as [k|] eqn:Hk; [|now apply (settled_halted seen)].
  destruct (key_in k seen) eqn:Hin; [exact Hs|].
  apply key_in_false in Hin.
  assert (Hkey : item_key item = Some k) by (unfold item_key; now rewrite Hid).
  assert (Hfi : forall tl, forallb (fun ev => match ev with EvFormat _ _ => false | _ => true end) tl = true ->
            formatted_items ((st_log s ++ [EvFormat ph item]) ++ tl)
            = formatted_items (st_log s) ++ [item]).
  { intros tl Htl. unfold formatted_items. rewrite !flat_map_app. cbn [flat_map app].
    rewrite <- app_assoc. f_equal. cbn [app]. f_equal.
    induction tl as [|ev tl IH]; [reflexivity|]. cbn [forallb] in Htl.
    apply andb_true_iff in Htl as [Hev Htl]. cbn [flat_map]. rewrite IH by exact Htl.
    destruct ev; try discriminate; reflexivity. }
  assert (Hnk : forall tl, forallb (fun ev => match ev with EvFormat _ _ => false | _ => true end) tl = true ->
            notified_keys ((st_log s ++ [EvFormat ph item]) ++ tl) = notified_keys (st_log s) ++ [k]).
  { intros tl Htl. unfold notified_keys. rewrite (Hfi tl Htl), flat_map_app. cbn. now rewrite Hkey. }
  assert (Hky' : forall tl, forallb (fun ev => match ev with EvFormat _ _ => false | _ => true end) tl = true ->
            map item_key (formatted_items ((st_log s ++ [EvFormat ph item]) ++ tl))
            = map Some (notified_keys ((st_log s ++ [EvFormat ph item]) ++ tl))).
  { intros tl Htl. rewrite (Hnk tl Htl), (Hfi tl Htl), !map_app, Hky. cbn. now rewrite Hkey. }
  assert (Hnd' : NoDup (notified_keys (st_log s) ++ [k])).
  { apply NoDup_app; [exact Hnd|repeat constructor; intros []|].
    intros x Hx [<-|[]]. auto. }
  assert (Hfr' : forall x, In x (notified_keys (st_log s) ++ [k]) -> ~ In x seen0).
  { intros x Hx. apply in_app_or in Hx as [Hx|[<-|[]]]; auto. }
  rewrite wp_bind, wp_emit.
  rewrite wp_bind, wp_lift. destruct (format_item ph item) as [blocks|e] eqn:Hfmt.
  2:{ split; [|left; apply clean_app; [exact Hc|now apply clean_one]].
      unfold tidy. cbn [logged st_log st_disk].
      rewrite <- (app_nil_r (st_log s ++ [EvFormat ph item])), Hky', Hnk by reflexivity.
      rewrite app_nil_r.
      unfold saves, expected_requests, posted_requests. rewrite !flat_map_app. cbn [flat_map app].
      rewrite Hfmt, !app_nil_r. repeat split; auto. }
  set (rq := slack_request (post_text ph) blocks).
  assert (Hlog2 : forall rs,
    saves ((st_log s ++ [EvFormat ph item]) ++ [EvHttp Slack rq rs]) = []
    /\ expected_requests ((st_log s ++ [EvFormat ph item]) ++ [EvHttp Slack rq rs])
       = posted_requests ((st_log s ++ [EvFormat ph item]) ++ [EvHttp Slack rq rs])).
  { intros rs. unfold saves, expected_requests, posted_requests.
    rewrite !flat_map_app. cbn [flat_map app]. rewrite Hfmt, !app_nil_r.
    fold (saves (st_log s)). fold (expected_requests (st_log s)).
    fold (posted_requests (st_log s)). rewrite Hsv, He. auto. }
  assert (Htidy2 : forall rs w,
    Tidy (logged (logged s [EvFormat ph item] (st_world s)) [EvHttp Slack rq rs] w)).
  { intros rs w. destruct (Hlog2 rs) as (E2 & E3).
    unfold tidy. cbn [logged st_log st_disk]. rewrite Hky', Hnk, E2, E3 by reflexivity.
    repeat split; auto. exists []. now rewrite app_nil_r. }
  assert (Hc1 : clean (st_log s ++ [EvFormat ph item]))
    by (apply clean_app; [exact Hc|now apply clean_one]).
  rewrite wp_bind. unfold slack_post. rewrite wp_bind, wp_http. fold rq.
  destruct (http_send (st_world (logged s [EvFormat ph item] (st_world s))) rq)
    as [w [r|e]] eqn:Hsend.
  2:{ split; [apply Htidy2|]. cbn [logged st_log]. now apply stopped_last. }
  rewrite wp_lift. destruct (raise_for_status r) as [[]|e] eqn:Hst.
  2:{ split; [apply Htidy2|]. cbn [logged st_log]. apply stopped_last; [exact Hc1|].
      cbn. now rewrite Hst. }
  rewrite wp_lift. destruct (Hlog2 (Ok r)) as (E2 & E3).
  pose proof (Hnk [EvHttp Slack rq (Ok r)] eq_refl) as E1.
  split; [apply Htidy2|]. cbn [logged st_log].
  assert (Hkeys : set_keys (seen ++ [id]) = set_keys seen ++ [k]).
  { unfold set_keys. rewrite flat_map_app. cbn. now rewrite Hk. }
  rewrite E1, Hkeys. repeat split.
  - apply clean_app; [exact Hc1|]. apply clean_one. cbn. now rewrite Hst.
  - exact E3.
  - intros x Hx. apply in_or_app. left. now apply Hi0.
  - intros x Hx. apply in_or_app. apply in_app_or in Hx as [Hx|Hx]; auto.
Qed.

Lemma notify_all_settled ph items seen s :
  Settled seen s -> wp (foldM (notify ph) items seen) Settled Halted s.
Proof.
  intros Hs. apply (wp_foldM (notify ph) Settled Halted); [|exact Hs].
  intros b x s' _. apply notify_settled.
Qed.

Lemma scan_databases_settled fuel iso seen s :
  Settled seen s -> wp (scan_databases fuel iso seen) Settled Halted s.
Proof.
  intros Hs. unfold scan_databases.
  apply (wp_foldM _ Settled Halted); [|exact Hs].
  intros b dbid s1 _ Hb. rewrite wp_bind.
  eapply wp_mono; [| |apply query_new_db_pages_frame].
  - intros pages s2 Hext. apply notify_all_settled. now apply (settled_extends b s1).
  - intros o s2 Hext. now apply (halted_extends b o s1).
Qed.

Lemma scan_pages_settled fuel iso seen s :
  Settled seen s -> wp (scan_pages fuel iso seen) Settled Halted s.
Proof.
  intros Hs. unfold scan_pages. destruct PAGE_IDS as [|pgid rest] eqn:Hids; [exact Hs|].
  rewrite wp_bind.
  assert (Hafter : wp (if truthy iso
                       then dt <- lift (dtparse iso) ;; ret (Some dt)
                       else ret None)
                      (fun _ s' => Settled seen s') Halted s).
  { destruct (truthy iso); [|exact Hs].
    rewrite wp_bind, wp_lift. destruct (dtparse iso); [exact Hs|].
    now apply (settled_halted seen). }
  eapply wp_mono; [| |exact Hafter]; [|auto].
  intros after_dt s1 Hs1.
  apply (wp_foldM _ Settled Halted); [|exact Hs1].
  intros b pg s2 _ Hb. rewrite wp_bind.
  eapply wp_mono; [| |apply list_new_blocks_frame].
  - intros blks s3 Hext. apply notify_all_settled. now apply (settled_extends b s2).
  - intros o s3 Hext. now apply (halted_extends b o s2).
Qed.

End Invariant.

Section Runs.
Context `{Platform}.
Local Open Scope script_scope.

Lemma halted_verdict d seen0 o s : halted d seen0 o s -> verdict d seen0 o s.
Proof.
  intros ((Hd & Hsv & Hky & Hnd & Hfr & Hpost) & Hst).
  unfold verdict. repeat split; auto.
Qed.

Lemma extends_clock s t w : extends clean s (logged s [EvClock t] w).
Proof.
  split; [reflexivity|]. exists [EvClock t]. repeat split. now apply clean_one.
Qed.

Lemma poll_settled d seen0 fuel state s :
  (forall ids seen,
     py_get state (u8 "seen_ids") (JArr []) = Ok ids ->
     py_set ids = Ok seen -> set_keys seen = seen0) ->
  tidy d seen0 s -> clean (st_log s) ->
  expected_requests (st_log s) = posted_requests (st_log s) ->
  notified_keys (st_log s) = [] ->
  wp (poll fuel state) (settled d seen0) (halted d seen0) s.
Proof.
  intros Hseen Ht Hc He Hnk. unfold poll.
  assert (Hh : forall o, halted d seen0 o s) by (intros o; split; [exact Ht|now left]).
  lift_or ltac:(apply Hh).
  rewrite wp_bind, wp_lift. destruct (py_get state (u8 "seen_ids") (JArr [])) as [ids|e] eqn:Hids;
    [|apply Hh].
  rewrite wp_bind, wp_lift. destruct (py_set ids) as [seen|e] eqn:Hset; [|apply Hh].
  assert (Hs : settled d seen0 seen s).
  { split; [exact Ht|]. rewrite Hnk, <- (Hseen ids seen eq_refl Hset).
    repeat split; auto using incl_refl. intros x []. }
  rewrite wp_bind.
  match goal with
  | |- wp ?m _ _ _ => assert (Hiso : wp m (fun _ s' => settled d seen0 seen s') (halted d seen0) s)
  end.
  { destruct (negb (truthy _)); [|exact Hs].
    rewrite wp_bind, wp_now. destruct (clock (st_world s)) as [w t].
    rewrite wp_ret. apply (settled_extends d seen0 seen s); [exact Hs|apply extends_clock]. }
  eapply wp_mono; [| |exact Hiso]; [|auto].
  intros iso s1 Hs1. rewrite wp_bind.
  eapply wp_mono; [| |apply (scan_databases_settled d seen0); exact Hs1]; [|auto].
  intros seen1 s2 Hs2. now apply scan_pages_settled.
Qed.

Lemma wp_load_state Q E s :
  wp load_state Q E s =
  match read_state (st_disk s) with Ok st => Q st s | Raise e => E (Some e) s end.
Proof. unfold wp, load_state, lift. destruct (read_state _); reflexivity. Qed.

Lemma wp_save_state state Q E s :
  wp (save_state state) Q E s =
  let '(written, r) := write_chunks (iterencode state 0) [] in
  let s' := {| st_world := st_world s; st_disk := Some written;
               st_log := st_log s ++ [EvSave state] |} in
  match r with Ok a => Q a s' | Raise e => E (Some e) s' end.
Proof.
  unfold wp, save_state, lift. destruct (write_chunks _ _) as [written [a|e]]; reflexivity.
Qed.

Lemma settled_verdict d seen0 seen o s tl :
  settled d seen0 seen s ->
  forallb (fun ev => match ev with EvClock _ | EvSave _ => true | _ => false end) tl = true ->
  forall w disk,
    verdict d seen0 o {| st_world := w; st_disk := disk; st_log := st_log s ++ tl |}.
Proof.
  intros ((Hd & Hsv & Hky & Hnd & Hfr & Hpost) & Hc & He & Hi0 & Hi) Htl w disk.
  assert (Hf : formatted_items (st_log s ++ tl) = formatted_items (st_log s)
               /\ expected_requests (st_log s ++ tl) = expected_requests (st_log s)
               /\ posted_requests (st_log s ++ tl) = posted_requests (st_log s)
               /\ clean tl).
  { unfold formatted_items, expected_requests, posted_requests, clean.
    rewrite !flat_map_app.
    induction tl as [|ev tl IH]; [rewrite !app_nil_r; repeat split; constructor|].
    cbn [forallb] in Htl. apply andb_true_iff in Htl as [Hev Htl].
    destruct (IH Htl) as (E1 & E2 & E3 & E4).
    destruct ev; try discriminate; cbn [flat_map app]; repeat split; auto. }
  destruct Hf as (E1 & E2 & E3 & E4).
  assert (Hcl : clean (st_log s ++ tl)) by now apply clean_app.
  unfold verdict, notified_keys. cbn [st_log st_disk]. rewrite E1, E2, E3.
  split; [exact Hky|]. split; [exact Hnd|]. split; [exact Hfr|].
  split; [exists []; rewrite app_nil_r; exact He|].
  split; [now left|]. intros Hn. contradiction.
Qed.

Lemma main_verdict fuel seen0 s :
  st_log s = [] ->
  (forall state ids seen,
     read_state (st_disk s) = Ok state ->
     py_get state (u8 "seen_ids") (JArr []) = Ok ids ->
     py_set ids = Ok seen -> set_keys seen = seen0) ->
  wp (main fuel)
     (fun _ s' => verdict (st_disk s) seen0 None s')
     (fun o s' => verdict (st_disk s) seen0 o s') s.
Proof.
  intros Hlog Hseen. unfold main.
  assert (Ht : tidy (st_disk s) seen0 s).
  { unfold tidy. rewrite Hlog. cbn. repeat split; auto using NoDup_nil.
    now exists []. }
  assert (Hc : clean (st_log s)) by (rewrite Hlog; constructor).
  rewrite wp_bind, wp_load_state.
  destruct (read_state (st_disk s)) as [state|e] eqn:Hread.
  2:{ apply halted_verdict. split; [exact Ht|now left]. }
  rewrite wp_bind.
  eapply wp_mono;
    [| |apply (poll_settled (st_disk s) seen0 fuel state s); auto; try (rewrite Hlog; reflexivity)].
  3:{ intros ids seen. now apply Hseen. }
  2:{ intros o s1. apply halted_verdict. }
  intros seen s1 Hs1. rewrite wp_bind. unfold update_state, now_iso.
  rewrite !wp_bind, wp_now. destruct (clock (st_world s1)) as [w t].
  rewrite wp_ret.
  lift_or ltac:(apply (settled_verdict _ _ seen); [exact Hs1|reflexivity]).
  rewrite wp_lift.
  match goal with |- match ?r with _ => _ end => destruct r as [st|e] end.
  2:{ apply (settled_verdict _ _ seen); [exact Hs1|reflexivity]. }
  rewrite wp_save_state. destruct (write_chunks _ _) as [written [[]|e]];
    cbn [logged st_log st_world st_disk]; rewrite <- app_assoc;
    apply (settled_verdict _ _ seen); try exact Hs1; reflexivity.
Qed.

End Runs.

(* ================================================================== *)
(** * Runs: deduplication and failures *)

Section RunFacts.
Context `{Platform}.
Local Open Scope script_scope.

Lemma run_verdict fuel w disk seen0 :
  (forall state ids seen,
     read_state disk = Ok state ->
     py_get state (u8 "seen_ids") (JArr []) = Ok ids ->
     py_set ids = Ok seen -> set_keys seen = seen0) ->
  verdict disk seen0 (outcome_exn (snd (run fuel w disk))) (fst (run fuel w disk)).
Proof.
  intros Hseen. unfold run.
  set (s0 := {| st_world := w; st_disk := disk; st_log := [] |}).
  pose proof (main_verdict fuel seen0 s0 eq_refl Hseen) as Hwp.
  unfold wp in Hwp. destruct (main fuel s0) as [s' [a|e|]]; exact Hwp.
Qed.

(** Some [seen0] always fits: the loaded set, or anything when loading
    fails. *)
Lemma run_verdict_any fuel w disk :
  exists seen0,
    verdict disk seen0 (outcome_exn (snd (run fuel w disk))) (fst (run fuel w disk)).
Proof.
  destruct (loaded_seen disk) as [seen|e] eqn:Hload.
  - exists (set_keys seen). apply run_verdict. intros state ids seen' Hr Hi Hs.
    unfold loaded_seen in Hload. rewrite Hr in Hload. cbn [rbind] in Hload.
    rewrite Hi in Hload. cbn [rbind] in Hload. congruence.
  - exists []. apply run_verdict. intros state ids seen' Hr Hi Hs.
    unfold loaded_seen in Hload. rewrite Hr in Hload. cbn [rbind] in Hload.
    rewrite Hi in Hload. cbn [rbind] in Hload. congruence.
Qed.

Lemma stopped_failure o log :
  stopped o log -> existsb failed_event log = true ->
  (exists e, o = Some e) /\ ~ clean log.
Proof.
  intros Hst Hex. apply existsb_exists in Hex as (ev & Hin & Hev).
  assert (Hnc : ~ clean log).
  { intros Hc. unfold clean in Hc. rewrite Forall_forall in Hc.
    specialize (Hc ev Hin). congruence. }
  split; [|exact Hnc].
  destruct Hst as [Hc | (pre & ev' & e & _ & _ & _ & ->)]; [contradiction|eauto].
Qed.

Lemma stopped_last_event o log pre ev post :
  stopped o log -> log = pre ++ ev :: post -> failed_event ev = true -> post = [].
Proof.
  intros Hst Hlog Hev.
  destruct Hst as [Hc | (pre' & ev' & e & Hlog' & Hc & _ & _)].
  - unfold clean in Hc. rewrite Forall_forall in Hc.
    rewrite (Hc ev) in Hev; [discriminate|]. rewrite Hlog. apply in_elt.
  - destruct post as [|x post] using rev_ind; [reflexivity|]. exfalso.
    rewrite Hlog' in Hlog. rewrite app_comm_cons, app_assoc in Hlog.
    apply app_inj_tail in Hlog as [-> _].
    unfold clean in Hc. rewrite Forall_forall in Hc.
    rewrite (Hc ev) in Hev; [discriminate|]. apply in_elt.
Qed.

Lemma failed_status (r : response) :
  failed (Ok r) = true <-> (400 <= status_code r < 600)%Z.
Proof.
  unfold failed, raise_for_status.
  destruct (400 <=? status_code r)%Z eqn:E1; destruct (status_code r <? 600)%Z eqn:E2;
    cbn; split; try discriminate; try reflexivity; lia.
Qed.

(** C1. In a run that starts with the seen set [seen], every item handed
    to the formatter has an identifier, these identifiers are pairwise
    distinct and none of them is in [seen]; the requests sent to the
    webhook are, in order, the first of those the formatted items call
    for.  So an item whose identifier is in [seen_ids], loaded or added
    during the run, is neither formatted nor posted again. *)
Theorem seen_items_are_skipped fuel w disk seen :
  loaded_seen disk = Ok seen ->
  let log := st_log (fst (run fuel w disk)) in
  map item_key (formatted_items log) = map Some (notified_keys log)
  /\ NoDup (notified_keys log)
  /\ (forall k, In k (notified_keys log) -> ~ In k (set_keys seen))
  /\ exists rest, expected_requests log = posted_requests log ++ rest.
Proof.
  intros Hload log.
  assert (Hv : verdict disk (set_keys seen) (outcome_exn (snd (run fuel w disk)))
                       (fst (run fuel w disk))).
  { apply run_verdict. intros state ids seen' Hr Hi Hs.
    unfold loaded_seen in Hload. rewrite Hr in Hload. cbn [rbind] in Hload.
    rewrite Hi in Hload. cbn [rbind] in Hload. congruence. }
  destruct Hv as (Hky & Hnd & Hfr & Hpost & _). auto.
Qed.

Lemma poll_raises fuel w disk state s1 e :
  read_state disk = Ok state ->
  poll fuel state {| st_world := w; st_disk := disk; st_log := [] |} = (s1, Threw e) ->
  run fuel w disk = (s1, Threw e)
  /\ st_disk s1 = disk /\ saves (st_log s1) = [].
Proof.
  intros Hread Hpoll.
  set (s0 := {| st_world := w; st_disk := disk; st_log := [] |}) in *.
  split.
  - unfold run, main, bind, load_state, lift. fold s0. cbn [st_disk s0].
    rewrite Hread. now rewrite Hpoll.
  - set (seen0 := match py_get state (u8 "seen_ids") (JArr []) with
                  | Ok ids => match py_set ids with
                              | Ok seen => set_keys seen
                              | Raise _ => []
                              end
                  | Raise _ => []
                  end).
    assert (Hwp : wp (poll fuel state) (settled disk seen0) (halted disk seen0) s0).
    { apply poll_settled; try reflexivity; try (now constructor).
      - intros ids seen Hi Hs. unfold seen0. now rewrite Hi, Hs.
      - unfold tidy. cbn. repeat split; auto using NoDup_nil. now exists []. }
    unfold wp in Hwp. rewrite Hpoll in Hwp.
    destruct Hwp as ((Hd & Hsv & _) & _). auto.
Qed.

(** C3. When an exchange with Notion or with the webhook fails during a
    run, or anything else raises while the script fetches and posts, the
    run ends with an exception before [save_state] is called and the
    checkpoint file is what it was before the run. *)
Theorem failed_run_keeps_checkpoint fuel w disk :
  existsb failed_event (st_log (fst (run fuel w disk))) = true
  \/ (exists state s1 e,
        read_state disk = Ok state
        /\ poll fuel state {| st_world := w; st_disk := disk; st_log := [] |}
           = (s1, Threw e)) ->
  st_disk (fst (run fuel w disk)) = disk
  /\ saves (st_log (fst (run fuel w disk))) = []
  /\ exists e, snd (run fuel w disk) = Threw e.
Proof.
  intros [Hfail | (state & s1 & e & Hread & Hpoll)].
  - destruct (run_verdict_any fuel w disk) as (seen0 & Hv).
    destruct Hv as (_ & _ & _ & _ & Hst & Hdisk).
    destruct (stopped_failure _ _ Hst Hfail) as [[e He] Hnc].
    destruct (Hdisk Hnc) as [Hd Hs]. repeat split; auto.
    exists e. destruct (snd (run fuel w disk)); cbn in He; congruence.
  - destruct (poll_raises fuel w disk state s1 e Hread Hpoll) as (Hrun & Hd & Hs).
    rewrite Hrun. cbn [fst snd]. eauto.
Qed.

(** C9 (as amended). [slack_post] sends one request; it raises when the
    transport fails or the status is 4xx or 5xx, and returns normally for
    any other status.  In a run a failed exchange is the last event: the
    run ends there with an exception, nothing is sent again. *)
Theorem webhook_error_is_fatal :
  (forall text blocks s,
     exists w rs,
       http_send (st_world s) (slack_request text blocks) = (w, rs)
       /\ slack_post text blocks s
          = (logged s [EvHttp Slack (slack_request text blocks) rs] w,
             match rs with
             | Raise e => Threw e
             | Ok r => if failed rs then Threw HTTPError else Done tt
             end))
  /\ (forall r, failed (Ok r) = true <-> (400 <= status_code r < 600)%Z)
  /\ (forall fuel w disk pre ev post,
        st_log (fst (run fuel w disk)) = pre ++ ev :: post ->
        failed_event ev = true ->
        post = [] /\ exists e, snd (run fuel w disk) = Threw e).
Proof.
  split; [|split; [exact failed_status|]].
  - intros text blocks s.
    destruct (http_send (st_world s) (slack_request text blocks)) as [w rs] eqn:Hsend.
    exists w, rs. split; [reflexivity|].
    unfold slack_post, bind, http. rewrite Hsend.
    destruct rs as [r|e]; [|reflexivity].
    unfold lift, failed. destruct (raise_for_status r) as [[]|e] eqn:Hst; [reflexivity|].
    revert Hst. unfold raise_for_status.
    destruct ((400 <=? status_code r)%Z && (status_code r <? 600)%Z);
      [intros [= <-]; reflexivity|discriminate].
  - intros fuel w disk pre ev post Hlog Hev.
    destruct (run_verdict_any fuel w disk) as (seen0 & Hv).
    destruct Hv as (_ & _ & _ & _ & Hst & _).
    split; [now apply (stopped_last_event _ _ pre ev post Hst)|].
    assert (Hex : existsb failed_event (st_log (fst (run fuel w disk))) = true).
    { apply existsb_exists. exists ev. split; [|exact Hev]. rewrite Hlog. apply in_elt. }
    destruct (stopped_failure _ _ Hst Hex) as [[e He] _].
    exists e. destruct (snd (run fuel w disk)); cbn in He; congruence.
Qed.

End RunFacts.

Lemma seen_items_are_skipped_witness :
  loaded_seen seen_disk = Ok [JStr (u8 "r-1")]
  /\ let log := st_log (fst (run (H := sample_platform) 5 (sample_world 200) seen_disk)) in
     map item_key (formatted_items log) = map Some (notified_keys log)
     /\ NoDup (notified_keys log)
     /\ (forall k, In k (notified_keys log) -> ~ In k (set_keys [JStr (u8 "r-1")]))
     /\ exists rest, expected_requests (H := sample_platform) log = posted_requests log ++ rest.
Proof.
  split; [vm_compute; reflexivity|].
  apply (seen_items_are_skipped (H := sample_platform)). vm_compute. reflexivity.
Defined.

Example sample_run_notifies :
  let log := st_log (fst (run (H := sample_platform) 5 (sample_world 200) seen_disk)) in
  notified_keys log
  = [KStr (u8 "r-2"); KStr (u8 "r-3"); KStr (u8 "r-4"); KStr (u8 "r-5");
     KStr (u8 "r-6"); KStr (u8 "b-1")]
  /\ length (fetched_items log) = 9%nat
  /\ length (posted_requests log) = 6%nat.
Proof. vm_compute. auto. Qed.

Lemma failed_run_keeps_checkpoint_witness :
  (existsb failed_event
     (st_log (fst (run (H := sample_platform) 5 (sample_world 500) seen_disk))) = true
   \/ (exists state s1 e,
         read_state seen_disk = Ok state
         /\ poll (H := sample_platform) 5 state (start (sample_world 500) seen_disk)
            = (s1, Threw e)))
  /\ st_disk (fst (run (H := sample_platform) 5 (sample_world 500) seen_disk)) = seen_disk
  /\ saves (st_log (fst (run (H := sample_platform) 5 (sample_world 500) seen_disk))) = []
  /\ exists e, snd (run (H := sample_platform) 5 (sample_world 500) seen_disk) = Threw e.
Proof.
  assert (Hfail : existsb failed_event
            (st_log (fst (run (H := sample_platform) 5 (sample_world 500) seen_disk)))
          = true) by (vm_compute; reflexivity).
  split; [left; exact Hfail|].
  exact (failed_run_keeps_checkpoint (H := sample_platform) 5 (sample_world 500)
           seen_disk (or_introl Hfail)).
Defined.

(** C9, as stated, fails: a 304 answer is not a 2xx answer, yet
    [slack_post] returns normally and the run goes on to its end. *)
Lemma non_2xx_counterexample :
  let s := start (sample_world 304) None in
  let rq := slack_request (H := sample_platform) (u8 "Notion") [divider] in
  exists w r,
    sim_send (sample_world 304) rq = (w, Ok r)
    /\ status_code r = 304%Z
    /\ ~ (200 <= status_code r < 300)%Z
    /\ snd (slack_post (H := sample_platform) (u8 "Notion") [divider] s) = Done tt
    /\ snd (run (H := sample_platform) 5 (sample_world 304) None) = Done tt.
Proof.
  eexists. eexists. split; [reflexivity|]. split; [reflexivity|].
  split; [cbn; lia|]. split; vm_compute; reflexivity.
Qed.

Lemma webhook_error_is_fatal_witness :
  let s := start (sample_world 500) None in
  snd (slack_post (H := sample_platform) (u8 "Notion") [divider] s) = Threw HTTPError
  /\ length (st_log (fst (slack_post (H := sample_platform) (u8 "Notion") [divider] s)))
     = 1%nat
  /\ (forall pre ev post,
        st_log (fst (run (H := sample_platform) 5 (sample_world 500) seen_disk))
        = pre ++ ev :: post ->
        failed_event ev = true ->
        post = []
        /\ exists e,
             snd (run (H := sample_platform) 5 (sample_world 500) seen_disk) = Threw e).
Proof.
  destruct (webhook_error_is_fatal (H := sample_platform)) as (Hpost & _ & Hrun).
  split; [|split].
  - destruct (Hpost (u8 "Notion") [divider] (start (sample_world 500) None))
      as (w & rs & Hsend & Heq).
    cbv zeta. rewrite Heq. injection Hsend as _ <-. reflexivity.
  - destruct (Hpost (u8 "Notion") [divider] (start (sample_world 500) None))
      as (w & rs & _ & Heq).
    cbv zeta. rewrite Heq. reflexivity.
  - intros pre ev post. apply Hrun.
Defined.

(* ================================================================== *)
(** * The first run *)

Section FirstRun.
Context `{Platform}.
Local Open Scope script_scope.

Variable t0 : Z.
Let a : datetime := utc t0.

#[local] Abbreviation All_after := (all_after t0).
#[local] Abbreviation Event_after := (event_after (utc t0)).

Lemma all_after_logged s evs w :
  All_after s -> Forall Event_after evs -> All_after (logged s evs w).
Proof.
  intros [[rest Hhd] Hs] Hevs. unfold all_after. cbn [logged st_log]. split.
  - exists (rest ++ evs). now rewrite Hhd.
  - now apply Forall_app.
Qed.

Lemma all_after_items (log : list event) :
  Forall Event_after log ->
  Forall (created_after a) (fetched_items log)
  /\ Forall (created_after a) (formatted_items log).
Proof.
  induction 1 as [|ev log Hev _ [IH1 IH2]]; [split; constructor|].
  unfold fetched_items, formatted_items. cbn [flat_map].
  fold (fetched_items log). fold (formatted_items log).
  destruct ev; cbn [Event_after] in Hev; cbn [app]; split; auto.
  now apply Forall_app.
Qed.

Lemma dict_get_set_other (k k' : str) (v : json) (dct : pydict) :
  str_eqb k k' = false -> dict_get k (dict_set k' v dct) = dict_get k dct.
Proof.
  intros Hne. induction dct as [|[k0 v0] dct IH]; cbn [dict_set dict_get].
  - now rewrite Hne.
  - destruct (str_eqb k' k0) eqn:E0; cbn [dict_get].
    + apply str_eqb_eq in E0. subst k0. now rewrite Hne.
    + now rewrite IH.
Qed.

Lemma payload_after_cursor (nc : json) (payload : pydict) :
  payload_after (JObj (dict_set (u8 "start_cursor") nc payload))
  = payload_after (JObj payload).
Proof. unfold payload_after. now rewrite dict_get_set_other. Qed.

Lemma payload_after_query (x : json) :
  truthy x = true -> payload_after (JObj (query_payload x)) = Some x.
Proof. intros Hx. unfold query_payload. now rewrite Hx. Qed.

Ltac lift_keep tac :=
  rewrite wp_bind, wp_lift;
  match goal with
  | |- match ?r with Ok _ => _ | Raise _ => _ end => destruct r eqn:?; [|tac]
  end.

Lemma query_loop_after (fuel : nat) (x : json) :
  filter_honoured -> dtparse x = Ok a ->
  forall url payload results s,
    payload_after (JObj payload) = Some x ->
    Forall (created_after a) results ->
    All_after s ->
    wp (query_loop fuel url payload results)
       (fun res s' => Forall (created_after a) res /\ All_after s')
       (fun _ s' => All_after s') s.
Proof.
  intros Hhon Hx.
  induction fuel as [|fuel IH]; intros url payload results s Hpay Hres Hs; cbn [query_loop].
  - exact Hs.
  - rewrite wp_bind, wp_http.
    destruct (http_send (st_world s) (query_request url payload)) as [w [r|e]] eqn:Hsend.
    2:{ apply all_after_logged; [exact Hs|repeat constructor]. }
    assert (Hs1 : All_after (logged s [EvHttp Notion (query_request url payload) (Ok r)] w))
      by (apply all_after_logged; [exact Hs|repeat constructor]).
    lift_keep ltac:(exact Hs1).
    rewrite wp_bind, wp_lift. destruct (resp_json r) as [data|e] eqn:Hdata; [|exact Hs1].
    rewrite wp_bind, wp_lift.
    destruct (py_get data (u8 "results") (JArr [])) as [rr|e] eqn:Hrr; [|exact Hs1].
    rewrite wp_bind, wp_lift. destruct (py_iter rr) as [items|e] eqn:Hiter; [|exact Hs1].
    lift_keep ltac:(exact Hs1).
    assert (Hitems : Forall (created_after a) items).
    { apply (Hhon _ _ _ _ x a data rr items Hsend); auto. }
    assert (Hall : Forall (created_after a) (results ++ items)) by now apply Forall_app.
    destruct (negb (truthy _)); [now split|].
    lift_keep ltac:(exact Hs1).
    apply IH; auto. now rewrite payload_after_cursor.
Qed.

Lemma is_new_block_after (blk : json) :
  is_new_block (Some a) blk = Ok true -> created_after a blk.
Proof.
  unfold is_new_block, created_after.
  destruct (py_get blk (u8 "created_time") JNull) as [ct|]; [|discriminate].
  cbn [rbind]. destruct (dtparse ct) as [c|] eqn:Hc; [|discriminate].
  cbn [rbind]. intros Hgt. eauto.
Qed.

Lemma keep_new_blocks_after (blks : list json) :
  forall out out',
    Forall (created_after a) out ->
    keep_new_blocks (Some a) blks out = Ok out' ->
    Forall (created_after a) out'.
Proof.
  induction blks as [|blk blks IH]; intros out out' Hout; cbn [keep_new_blocks].
  - now intros [= <-].
  - destruct (is_new_block (Some a) blk) as [[|]|] eqn:Hnew; cbn [rbind];
      [|now apply IH|discriminate].
    apply IH. apply Forall_app. split; [exact Hout|].
    repeat constructor. now apply is_new_block_after.
Qed.

Lemma list_loop_after (fuel : nat) :
  forall page_id url out s,
    Forall (created_after a) out ->
    All_after s ->
    wp (list_loop fuel page_id url (Some a) out)
       (fun res s' => Forall (created_after a) res /\ All_after s')
       (fun _ s' => All_after s') s.
Proof.
  induction fuel as [|fuel IH]; intros page_id url out s Hout Hs; cbn [list_loop].
  - exact Hs.
  - rewrite wp_bind, wp_http.
    destruct (http_send (st_world s) (list_request url)) as [w [r|e]] eqn:Hsend.
    2:{ apply all_after_logged; [exact Hs|repeat constructor]. }
    assert (Hs1 : All_after (logged s [EvHttp Notion (list_request url) (Ok r)] w))
      by (apply all_after_logged; [exact Hs|repeat constructor]).
    do 4 (lift_keep ltac:(exact Hs1)).
    rewrite wp_bind, wp_lift.
    destruct (keep_new_blocks (Some a) _ out) as [out'|e] eqn:Hkeep; [|exact Hs1].
    pose proof (keep_new_blocks_after _ _ _ Hout Hkeep) as Hout'.
    lift_keep ltac:(exact Hs1).
    destruct (negb (truthy _)); [now split|].
    lift_keep ltac:(exact Hs1).
    now apply IH.
Qed.

Lemma notify_after ph seen item s :
  created_after a item -> All_after s ->
  wp (notify ph seen item) (fun _ s' => All_after s') (fun _ s' => All_after s') s.
Proof.
  intros Hitem Hs. unfold notify.
  do 2 (lift_keep ltac:(exact Hs)).
  match goal with |- wp (if ?b then _ else _) _ _ _ => destruct b end; [exact Hs|].
  rewrite wp_bind, wp_emit.
  assert (Hs1 : All_after (logged s [EvFormat ph item] (st_world s)))
    by (apply all_after_logged; [exact Hs|repeat constructor; exact Hitem]).
  lift_keep ltac:(exact Hs1).
  rewrite wp_bind. unfold slack_post. rewrite wp_bind, wp_http.
  match goal with |- context [http_send ?w ?rq] => destruct (http_send w rq) as [w' [r|e]] end.
  2:{ apply all_after_logged; [exact Hs1|repeat constructor]. }
  assert (Hs2 : forall rq, All_after (logged (logged s [EvFormat ph item] (st_world s))
                                        [EvHttp Slack rq (Ok r)] w'))
    by (intros rq; apply all_after_logged; [exact Hs1|repeat constructor]).
  rewrite wp_lift. destruct (raise_for_status r); [|apply Hs2].
  rewrite wp_lift. destruct (set_add _ _); apply Hs2.
Qed.

Lemma notify_all_after ph items seen s :
  Forall (created_after a) items -> All_after s ->
  wp (foldM (notify ph) items seen) (fun _ s' => All_after s') (fun _ s' => All_after s') s.
Proof.
  intros Hitems Hs.
  apply (wp_foldM (notify ph) (fun _ s' => All_after s') (fun _ s' => All_after s')); [|exact Hs].
  intros b item s' Hin Hs'. apply notify_after; [|exact Hs'].
  rewrite Forall_forall in Hitems. now apply Hitems.
Qed.


Lemma scan_databases_after fuel iso seen s :
  filter_honoured -> truthy iso = true -> dtparse iso = Ok a ->
  All_after s ->
  wp (scan_databases fuel iso seen) (fun _ s' => All_after s') (fun _ s' => All_after s') s.
Proof.
  intros Hhon Htr Hiso Hs. unfold scan_databases.
  apply (wp_foldM _ (fun _ s' => All_after s') (fun _ s' => All_after s')); [|exact Hs].
  intros b dbid s1 _ Hs1. unfold query_new_db_pages. rewrite !wp_bind.
  eapply wp_mono;
    [| |apply (query_loop_after fuel iso Hhon Hiso); auto using payload_after_query].
  - intros pages s2 [Hpages Hs2]. rewrite wp_bind, wp_emit, wp_ret.
    apply notify_all_after; [exact Hpages|].
    apply all_after_logged; [exact Hs2|]. repeat constructor. exact Hpages.
  - auto.
Qed.

Lemma scan_pages_after fuel iso seen s :
  truthy iso = true -> dtparse iso = Ok a ->
  All_after s ->
  wp (scan_pages fuel iso seen) (fun _ s' => All_after s') (fun _ s' => All_after s') s.
Proof.
  intros Htr Hiso Hs. unfold scan_pages. destruct PAGE_IDS as [|pgid rest]; [exact Hs|].
  rewrite Htr, Hiso, wp_bind, wp_bind, wp_lift, wp_ret.
  apply (wp_foldM _ (fun _ s' => All_after s') (fun _ s' => All_after s')); [|exact Hs].
  intros b pg s1 _ Hs1. unfold list_new_blocks. rewrite !wp_bind.
  eapply wp_mono; [| |apply list_loop_after; auto].
  - intros blks s2 [Hblks Hs2]. rewrite wp_bind, wp_emit, wp_ret.
    apply notify_all_after; [exact Hblks|].
    apply all_after_logged; [exact Hs2|]. repeat constructor. exact Hblks.
  - auto.
Qed.

End FirstRun.

Section FirstRunTheorem.
Context `{Platform}.
Local Open Scope script_scope.

Lemma all_after_tail t0 s tl w disk :
  all_after t0 s ->
  forallb (fun ev => match ev with EvClock _ | EvSave _ => true | _ => false end) tl = true ->
  all_after t0 {| st_world := w; st_disk := disk; st_log := st_log s ++ tl |}.
Proof.
  intros [[rest Hhd] Hs] Htl. split; cbn [st_log].
  - exists (rest ++ tl). now rewrite Hhd.
  - apply Forall_app. split; [exact Hs|].
    induction tl as [|ev tl IH]; constructor.
    + cbn [forallb] in Htl. apply andb_true_iff in Htl as [Hev _].
      destruct ev; try discriminate; exact I.
    + apply IH. cbn [forallb] in Htl. now apply andb_true_iff in Htl as [_ Htl].
Qed.

Lemma main_first_run fuel w :
  let t0 := snd (clock w) in
  isoformat (utc t0) <> [] ->
  dtparse (JStr (isoformat (utc t0))) = Ok (utc t0) ->
  filter_honoured ->
  wp (main fuel) (fun _ s' => all_after t0 s') (fun _ s' => all_after t0 s')
     {| st_world := w; st_disk := None; st_log := [] |}.
Proof.
  intros t0 Hne Hparse Hhon.
  unfold main. rewrite wp_bind, wp_load_state. cbn [st_disk read_state].
  rewrite wp_bind. unfold poll.
  change (py_get EMPTY_STATE (u8 "last_checked") JNull) with (Ok JNull).
  change (py_get EMPTY_STATE (u8 "seen_ids") (JArr [])) with (Ok (JArr [])).
  rewrite wp_bind, wp_lift, wp_bind, wp_lift.
  change (py_set (JArr [])) with (Ok (@nil json)).
  rewrite wp_bind, wp_lift. cbn [truthy negb]. rewrite !wp_bind, wp_now. cbn [st_world].
  subst t0. destruct (clock w) as [w1 t]. cbn [snd] in *. rewrite wp_ret.
  set (s1 := logged _ [EvClock t] w1).
  assert (Hs1 : all_after t s1).
  { split; [now exists []|]. repeat constructor. }
  assert (Htr : truthy (JStr (isoformat (utc t))) = true).
  { cbn. destruct (isoformat (utc t)); [congruence|reflexivity]. }
  rewrite wp_bind.
  eapply wp_mono; [| |apply (scan_databases_after t); eauto]; [|auto].
  intros seen1 s2 Hs2. cbn beta.
  eapply wp_mono; [| |apply (scan_pages_after t); eauto]; [|auto].
  intros seen2 s3 Hs3. cbn beta.
  rewrite wp_bind. unfold update_state, now_iso.
  rewrite !wp_bind, wp_now. destruct (clock (st_world s3)) as [w4 t4].
  rewrite wp_ret.
  lift_or ltac:(apply (all_after_tail t s3 [EvClock t4]); [exact Hs3|reflexivity]).
  rewrite wp_lift.
  match goal with |- match ?r with _ => _ end => destruct r as [st|e] end.
  2:{ apply (all_after_tail t s3 [EvClock t4]); [exact Hs3|reflexivity]. }
  rewrite wp_save_state. destruct (write_chunks _ _) as [written [[]|e]];
    cbn [logged st_log st_world st_disk]; rewrite <- app_assoc;
    apply (all_after_tail t s3); try exact Hs3; reflexivity.
Qed.

(** C2. On a first run (no checkpoint file) the boundary is the clock
    reading [t0] taken before anything is requested: when the remote end
    honours the [created_time] filter, every item the source client
    returns and every item notified was created after [t0]. *)
Theorem first_run_boundary (fuel : nat) (w : world) :
  let t0 := snd (clock w) in
  isoformat (utc t0) <> [] ->
  dtparse (JStr (isoformat (utc t0))) = Ok (utc t0) ->
  filter_honoured ->
  let log := st_log (fst (run fuel w None)) in
  (exists rest, log = EvClock t0 :: rest)
  /\ Forall (created_after (utc t0)) (fetched_items log)
  /\ Forall (created_after (utc t0)) (formatted_items log).
Proof.
  intros t0 Hne Hparse Hhon log.
  pose proof (main_first_run fuel w Hne Hparse Hhon) as Hwp.
  assert (Hall : all_after t0 (fst (run fuel w None))).
  { unfold run. unfold wp in Hwp. fold t0 in Hwp.
    destruct (main fuel _) as [s' [x|e|]]; exact Hwp. }
  destruct Hall as [Hhd Hall]. split; [exact Hhd|].
  now apply all_after_items.
Qed.

End FirstRunTheorem.

Lemma in_firstn {A} (n : nat) (l : list A) (x : A) : In x (firstn n l) -> In x l.
Proof.
  revert l. induction n as [|n IH]; intros [|y l]; cbn; try tauto.
  intros [->|Hin]; auto.
Qed.

Lemma in_skipn {A} (n : nat) (l : list A) (x : A) : In x (skipn n l) -> In x l.
Proof.
  revert l. induction n as [|n IH]; intros [|y l]; cbn; try tauto.
  intros Hin. right. now apply IH.
Qed.

Lemma created_after_b_sound (x item : json) (a : datetime) :
  created_after_b x item = true ->
  sample_dtparse x = Ok a ->
  created_after (H := sample_platform) a item.
Proof.
  unfold created_after_b, created_after. intros Hb Hx.
  destruct (py_get item (u8 "created_time") JNull) as [ct|]; [|discriminate].
  destruct (sample_dtparse ct) as [c|] eqn:Hc; [|discriminate].
  rewrite Hx in Hb. destruct (dt_gt c a) as [b|] eqn:Hgt; [|discriminate].
  subst b. exists ct, c. auto.
Qed.

Lemma sim_query_honest (records : list json) (payload x : json) (a : datetime) :
  payload_after payload = Some x ->
  sample_dtparse x = Ok a ->
  forall data r items,
    resp_json (sim_query records payload) = Ok data ->
    py_get data (u8 "results") (JArr []) = Ok r ->
    py_iter r = Ok items ->
    Forall (created_after (H := sample_platform) a) items.
Proof.
  intros Hpay Hx data r items. unfold sim_query. rewrite Hpay.
  unfold list_response. cbn [resp_json]. intros [= <-].
  change (py_get (obj ?l) (u8 "results") (JArr []))
    with (Ok (JArr (firstn 2 (skipn (payload_cursor payload)
                                (filter (created_after_b x) records))))).
  intros [= <-]. cbn [py_iter]. intros [= <-].
  apply Forall_forall. intros item Hin.
  apply (in_firstn 2), in_skipn, filter_In in Hin as [_ Hb].
  now apply (created_after_b_sound x).
Qed.

Lemma not_found_items data r items :
  resp_json not_found = Ok data ->
  py_get data (u8 "results") (JArr []) = Ok r ->
  py_iter r = Ok items -> items = [].
Proof.
  cbn [not_found resp_json]. intros [= <-].
  change (py_get (obj ?l) (u8 "results") (JArr [])) with (Ok (JArr [])).
  intros [= <-]. cbn. now intros [= <-].
Qed.

Lemma sample_filter_honoured : filter_honoured (H := sample_platform).
Proof.
  intros w rq w' rs x a data r items Hsend Hpost Hafter Hx Hdata Hr Hiter.
  cbn [http_send sample_platform] in Hsend. unfold sim_send in Hsend.
  rewrite Hpost in Hsend. unfold request_after in Hafter.
  cbn [dtparse sample_platform] in Hx.
  destruct (str_eqb (rq_url rq) SAMPLE_WEBHOOK).
  { injection Hsend as _ <-. discriminate Hdata. }
  destruct (find_by_url query_url (rq_url rq) (sim_dbs w)) as [records|];
    destruct (rq_json rq) as [payload|]; try discriminate Hafter;
    injection Hsend as _ <-.
  - now apply (sim_query_honest records payload x a Hafter Hx data r items).
  - rewrite (not_found_items data r items Hdata Hr Hiter). constructor.
Qed.

Lemma first_run_boundary_witness :
  let t0 := snd (clock (Platform := sample_platform) (sample_world 200)) in
  isoformat (Platform := sample_platform) (utc t0) <> []
  /\ dtparse (Platform := sample_platform) (JStr (isoformat (Platform := sample_platform) (utc t0))) = Ok (utc t0)
  /\ filter_honoured (H := sample_platform)
  /\ let log := st_log (fst (run (H := sample_platform) 5 (sample_world 200) None)) in
     (exists rest, log = EvClock t0 :: rest)
     /\ Forall (created_after (H := sample_platform) (utc t0)) (fetched_items log)
     /\ Forall (created_after (H := sample_platform) (utc t0)) (formatted_items log).
Proof.
  assert (H1 : isoformat (Platform := sample_platform) (utc T0) <> [])
    by (vm_compute; discriminate).
  assert (H2 : dtparse (Platform := sample_platform)
                 (JStr (isoformat (Platform := sample_platform) (utc T0))) = Ok (utc T0))
    by (vm_compute; reflexivity).
  split; [exact H1|]. split; [exact H2|]. split; [exact sample_filter_honoured|].
  exact (first_run_boundary (H := sample_platform) 5 (sample_world 200)
           H1 H2 sample_filter_honoured).
Defined.

Lemma sample_serves :
  serves (H := sample_platform) (sample_world 200) (query_url (u8 "db-1"))
         (query_payload BOUNDARY) sample_pages.
Proof.
  cbn [serves sample_pages].
  eexists; eexists; split; [reflexivity|]; split;
    [split; [reflexivity|]; eexists; eexists; repeat split; reflexivity|].
  eexists; eexists; split; [reflexivity|]; split;
    [split; [reflexivity|]; eexists; eexists; repeat split; reflexivity|].
  eexists; eexists; split; [reflexivity|]; split;
    [split; [reflexivity|]; eexists; eexists; repeat split; reflexivity|].
  exact I.
Defined.

Lemma pagination_traversal_witness :
  sample_pages <> []
  /\ serves (H := sample_platform) (sample_world 200) (query_url (u8 "db-1"))
            (query_payload BOUNDARY) sample_pages
  /\ (length sample_pages <= 3)%nat
  /\ exists s' requests,
       query_new_db_pages (H := sample_platform) 3 (u8 "db-1") BOUNDARY empty_disk
       = (s', Done (concat (map fst sample_pages)))
       /\ http_requests (st_log s') = http_requests (st_log empty_disk) ++ requests
       /\ requests = cursor_requests (H := sample_platform) (query_url (u8 "db-1"))
                       (query_payload BOUNDARY) sample_pages
       /\ length requests = 3%nat.
Proof.
  split; [discriminate|]. split; [exact sample_serves|]. split; [apply le_n|].
  exact (pagination_traversal (H := sample_platform) 3 (u8 "db-1") BOUNDARY sample_pages
           empty_disk ltac:(discriminate) sample_serves (le_n 3)).
Defined.
(* ================================================================== *)
(** * The formatter at the edges *)

Section FormatterEdges.

#[local] Arguments firstn : simpl never.

Variable py_repr : json -> str.

Lemma page_title_scan_skipped (vs rest : list json) :
  Forall skipped_prop vs ->
  page_title_scan (vs ++ rest) = page_title_scan rest.
Proof.
  induction 1 as [|v vs [Hd Hs] _ IH]; simpl; [reflexivity|].
  destruct v as [| | | | |d]; try discriminate Hd.
  unfold is_title_prop in Hs. cbn [py_get rbind] in Hs |- *.
  destruct (py_eq_str _ (u8 "title")).
  - destruct Hs as [Hs | (rich & [= <-] & Hf)]; [discriminate|].
    rewrite Hf. exact IH.
  - exact IH.
Qed.

Lemma shown_title_length (s : str) :
  (1 <= length (shown_title s) <= 120)%nat.
Proof.
  unfold shown_title.
  pose proof (firstn_le_length 120 s) as Hle.
  assert (Hc : (length (firstn 120 s) <= 120)%nat).
  { rewrite length_firstn. lia. }
  destruct (firstn 120 s) as [|c t]; [vm_compute; lia|].
  simpl in *. lia.
Qed.

Lemma page_title_scan_length (vs : list json) (t : str) :
  page_title_scan vs = Ok t -> (1 <= length t <= 120)%nat.
Proof.
  induction vs as [|v vs IH]; simpl.
  - intros [= <-]. vm_compute. lia.
  - destruct (py_get v (u8 "type") JNull) as [ty|]; [|discriminate].
    cbn [rbind]. destruct (py_eq_str ty (u8 "title")); [|exact IH].
    destruct (py_get v (u8 "title") (JArr [])) as [rich|]; [|discriminate].
    cbn [rbind]. destruct (truthy rich); [|exact IH].
    destruct (plain_texts rich) as [s|]; [|discriminate].
    cbn [rbind]. intros E.
    assert (t = shown_title s) as ->.
    { unfold shown_title. destruct (firstn 120 s); congruence. }
    apply shown_title_length.
Qed.

(** X1. Whatever the record, a title that [page_title] returns is never
    empty and never longer than 120 characters. *)
Theorem page_title_length (page : json) (title : str) :
  page_title page = Ok title ->
  (1 <= length title <= 120)%nat.
Proof.
  unfold page_title.
  destruct (py_get page (u8 "properties") (JObj [])) as [props|]; [|discriminate].
  cbn [rbind]. destruct (py_values props) as [vs|]; [|discriminate].
  cbn [rbind]. apply page_title_scan_length.
Qed.

(** X2. The first title-type property with a non-empty title decides the
    title: title-type properties before it whose title is missing or empty
    are passed over, and the properties after it are never looked at,
    whatever they hold. *)
Theorem first_filled_title_decides
    (page : json) (kvs props before after : pydict) (name : str)
    (v : json) (runs : list json) (texts : list str) :
  page = JObj kvs ->
  dict_get (u8 "properties") kvs = Some (JObj props) ->
  props = before ++ (name, v) :: after ->
  Forall skipped_prop (map snd before) ->
  is_title_prop v = true ->
  py_get v (u8 "title") (JArr []) = Ok (JArr runs) ->
  runs <> [] ->
  Forall2 run_text runs texts ->
  page_title page = Ok (shown_title (concat texts)).
Proof.
  intros -> Hprops -> Hskip Ht Hg Hne Hruns.
  unfold page_title. cbn [py_get rbind]. rewrite Hprops.
  cbn [py_values rbind]. rewrite map_app.
  rewrite (page_title_scan_skipped _ _ Hskip). simpl.
  unfold is_title_prop in Ht.
  destruct (py_get v (u8 "type") JNull) as [ty|]; [|discriminate].
  cbn [rbind]. rewrite Ht, Hg. cbn [rbind].
  destruct runs as [|r runs]; [congruence|]. cbn [truthy].
  rewrite (plain_texts_runs _ _ Hruns). cbn [rbind]. unfold shown_title.
  destruct (firstn 120 (concat texts)); reflexivity.
Qed.

(** X3. When every property is passed over (none is of type title, or
    those that are have a missing or empty title), the title is the
    placeholder. *)
Theorem empty_titles_give_placeholder (page : json) (props : pydict) :
  py_get page (u8 "properties") (JObj []) = Ok (JObj props) ->
  Forall skipped_prop (map snd props) ->
  page_title page = Ok NO_TITLE.
Proof.
  intros Hprops Hskip. unfold page_title. rewrite Hprops.
  cbn [py_values rbind].
  pose proof (page_title_scan_skipped _ [] Hskip) as E.
  rewrite app_nil_r in E. exact E.
Qed.

Lemma block_txt_length (data : json) (txt : str) :
  block_txt data = Ok txt -> (length txt <= 200)%nat.
Proof.
  assert (Hcut : forall s : str, (length (firstn 200 s) <= 200)%nat).
  { intros s. rewrite length_firstn. lia. }
  unfold block_txt. destruct data as [| | | | |d]; try (intros [= <-]; simpl; lia).
  destruct (in_and_truthy (u8 "rich_text") d).
  - destruct (py_item d (u8 "rich_text")) as [rt|]; [|discriminate].
    cbn [rbind]. destruct (plain_texts rt) as [s|]; [|discriminate].
    cbn [rbind]. intros [= <-]. apply Hcut.
  - destruct (in_and_truthy (u8 "text") d); [|intros [= <-]; simpl; lia].
    destruct (py_item d (u8 "text")) as [rt|]; [|discriminate].
    cbn [rbind]. destruct (plain_texts rt) as [s|]; [|discriminate].
    cbn [rbind]. intros [= <-]. apply Hcut.
Qed.

(** X4. Whatever the content unit, the preview of a payload that
    [format_block_item] returns is never empty and never longer than 200
    characters. *)
Theorem preview_length (block : json) (blocks : list json) :
  format_block_item py_repr block = Ok blocks ->
  exists shown,
    payload_preview blocks = Some (preview_section shown)
    /\ (1 <= length shown <= 200)%nat.
Proof.
  unfold format_block_item.
  destruct (py_get block (u8 "type") JNull) as [btype|]; [|discriminate].
  cbn [rbind].
  destruct (py_get block (u8 "created_time") (JStr [])) as [created|]; [|discriminate].
  cbn [rbind].
  destruct (py_get_dyn block btype (JObj [])) as [data|]; [|discriminate].
  cbn [rbind].
  destruct (block_txt data) as [txt|] eqn:Htxt; [|discriminate].
  cbn [rbind]. intros [= <-]. exists (preview txt). split; [reflexivity|].
  apply block_txt_length in Htxt. unfold preview.
  destruct txt as [|c txt]; [vm_compute; lia|]. simpl in *. lia.
Qed.

(** X5. When ["rich_text"] is missing or empty and ["text"] holds runs,
    the preview is taken from ["text"]: its runs concatenated and capped
    at 200 characters. *)
Theorem preview_falls_back_to_text
    (block : json) (d : pydict) (runs : list json) (texts : list str) :
  block_data block d ->
  field_empty (u8 "rich_text") d ->
  dict_get (u8 "text") d = Some (JArr runs) ->
  runs <> [] ->
  Forall2 run_text runs texts ->
  exists blocks,
    format_block_item py_repr block = Ok blocks
    /\ payload_preview blocks
       = Some (preview_section (preview (firstn 200 (concat texts)))).
Proof.
  intros (kvs & ty & -> & Hty & Hdata) Hrich Hget Hne Hruns.
  unfold format_block_item. cbn [py_get rbind]. rewrite Hty.
  cbn [py_get_dyn rbind]. rewrite Hdata. cbn [rbind].
  unfold block_txt. unfold field_empty in Hrich. rewrite Hrich.
  unfold in_and_truthy, py_item. rewrite Hget.
  destruct runs as [|r runs]; [congruence|]. cbn [truthy rbind].
  rewrite (plain_texts_runs _ _ Hruns). cbn [rbind].
  eexists. split; reflexivity.
Qed.

Lemma plain_texts_wf (runs : list json) :
  forallb wf_run runs = true -> exists s, plain_texts (JArr runs) = Ok s.
Proof.
  intros Hwf. destruct (wf_runs_texts _ Hwf) as [texts Ht].
  exists (concat texts). now apply plain_texts_runs.
Qed.

Lemma block_txt_total (data : json) :
  wf_payload data = true -> exists txt, block_txt data = Ok txt.
Proof.
  destruct data as [| | | | |d]; try (intros _; now exists []).
  unfold wf_payload, block_txt, wf_runs_field, py_item.
  destruct (in_and_truthy (u8 "rich_text") d).
  - destruct (dict_get (u8 "rich_text") d) as [[| | | |runs|]|]; try discriminate.
    intros Hwf. destruct (plain_texts_wf _ Hwf) as [s Hs]. cbn [rbind].
    rewrite Hs. cbn [rbind]. eauto.
  - destruct (in_and_truthy (u8 "text") d); [|intros _; now exists []].
    destruct (dict_get (u8 "text") d) as [[| | | |runs|]|]; try discriminate.
    intros Hwf. destruct (plain_texts_wf _ Hwf) as [s Hs]. cbn [rbind].
    rewrite Hs. cbn [rbind]. eauto.
Qed.

(** X6. A content unit is formatted without failure whenever it is a dict
    whose type is hashable and whose preview field, if any, is a list of
    runs with string texts; the type-specific entry may be missing, null
    or anything that is not a dict, and the payload always has four
    blocks. *)
Theorem format_block_item_total (block : json) :
  wf_unit block = true ->
  exists blocks,
    format_block_item py_repr block = Ok blocks
    /\ length blocks = 4%nat.
Proof.
  destruct block as [| | | | |kvs]; try discriminate.
  unfold wf_unit, format_block_item. cbn [py_get rbind].
  destruct (py_get_dyn (JObj kvs) _ (JObj [])) as [data|]; [|discriminate].
  intros Hwf. destruct (block_txt_total _ Hwf) as [txt Htxt]. cbn [rbind].
  rewrite Htxt. cbn [rbind].
  eexists. split; reflexivity.
Qed.

(** X17. A property that is not a dict (null, a string, a list) makes
    [page_title] fail with [AttributeError] when the scan reaches it,
    that is, when no property before it has a filled title. *)
Theorem malformed_property_fails
    (page : json) (props before after : pydict) (name : str) (v : json) :
  py_get page (u8 "properties") (JObj []) = Ok (JObj props) ->
  props = before ++ (name, v) :: after ->
  Forall skipped_prop (map snd before) ->
  is_dict v = false ->
  page_title page = Raise AttributeError.
Proof.
  intros Hprops -> Hskip Hv. unfold page_title. rewrite Hprops.
  cbn [py_values rbind]. rewrite map_app.
  rewrite (page_title_scan_skipped _ _ Hskip). cbn [map page_title_scan].
  destruct v; try discriminate Hv; reflexivity.
Qed.

End FormatterEdges.

Lemma page_title_length_witness :
  page_title hello_page = Ok (u8 "Hello World")
  /\ (1 <= length (u8 "Hello World") <= 120)%nat.
Proof.
  split; [reflexivity|].
  exact (page_title_length hello_page (u8 "Hello World") eq_refl).
Defined.

Lemma first_filled_title_decides_witness :
  page_title empty_title_page = Ok (u8 "Second").
Proof.
  refine (first_filled_title_decides empty_title_page _ _
            [(u8 "Old name", title_property [])]
            [(u8 "Broken", JNull)] (u8 "Name")
            (title_property [u8 "Second"]) (map text_run [u8 "Second"])
            [u8 "Second"] eq_refl eq_refl eq_refl _ eq_refl eq_refl _ _).
  - constructor; [|constructor]. split; [reflexivity|]. right.
    exists (JArr []). split; reflexivity.
  - discriminate.
  - repeat constructor.
Defined.

Lemma empty_titles_give_placeholder_witness :
  page_title blank_title_page = Ok (u8 "(제목 없음)").
Proof.
  refine (empty_titles_give_placeholder blank_title_page
            [(u8 "Status", select_property); (u8 "Name", title_property [])]
            eq_refl _).
  constructor; [split; [reflexivity|left; reflexivity]|].
  constructor; [|constructor]. split; [reflexivity|]. right.
  exists (JArr []). split; reflexivity.
Defined.

Lemma preview_length_witness :
  exists blocks shown,
    format_block_item sample_repr both_fields_block = Ok blocks
    /\ payload_preview blocks = Some (preview_section shown)
    /\ (1 <= length shown <= 200)%nat.
Proof.
  eexists.
  destruct (preview_length sample_repr both_fields_block _ eq_refl) as (shown & Hp & Hlen).
  exists shown. split; [reflexivity|]. split; [exact Hp|exact Hlen].
Defined.

Lemma text_block_data :
  block_data text_block
    [(u8 "rich_text", JArr []); (u8 "text", JArr [text_run (u8 "from text")])].
Proof.
  exists (match text_block with JObj d => d | _ => [] end), (u8 "paragraph").
  repeat split; reflexivity.
Defined.

Lemma preview_falls_back_to_text_witness :
  exists blocks,
    format_block_item sample_repr text_block = Ok blocks
    /\ payload_preview blocks = Some (preview_section (u8 "from text")).
Proof.
  refine (preview_falls_back_to_text sample_repr text_block _
            [text_run (u8 "from text")] [u8 "from text"]
            text_block_data eq_refl eq_refl _ _).
  - discriminate.
  - repeat constructor.
Defined.

Lemma format_block_item_total_witness :
  wf_unit null_payload_block = true
  /\ exists blocks,
       format_block_item sample_repr null_payload_block = Ok blocks
       /\ length blocks = 4%nat.
Proof.
  split; [reflexivity|].
  exact (format_block_item_total sample_repr null_payload_block eq_refl).
Defined.

Lemma malformed_property_fails_witness :
  page_title broken_page = Raise AttributeError.
Proof.
  refine (malformed_property_fails broken_page _ [(u8 "Status", select_property)]
            [(u8 "Name", title_property [u8 "Late"])] (u8 "Broken") JNull
            eq_refl eq_refl _ eq_refl).
  constructor; [|constructor]. split; [reflexivity|left; reflexivity].
Defined.


(* ================================================================== *)
(** * The identifier lists of the configuration *)

Lemma py_split_cons (sep : char) (s : str) :
  exists h t, py_split sep s = h :: t.
Proof.
  destruct s as [|c r]; simpl; [eauto|].
  destruct (c =? sep); [eauto|]. destruct (py_split sep r); eauto.
Qed.

Lemma py_split_app (sep : char) (s1 s2 : str) :
  py_split sep (s1 ++ sep :: s2) = py_split sep s1 ++ py_split sep s2.
Proof.
  induction s1 as [|c s1 IH]; simpl.
  - now rewrite N.eqb_refl.
  - destruct (c =? sep); [now rewrite IH|].
    rewrite IH. destruct (py_split_cons sep s1) as (h & t & ->). reflexivity.
Qed.

Lemma py_split_whole (sep : char) (s : str) :
  existsb (N.eqb sep) s = false -> py_split sep s = [s].
Proof.
  induction s as [|c s IH]; simpl; [reflexivity|].
  intros E. apply orb_false_iff in E as [Ec Es].
  rewrite N.eqb_sym, Ec, (IH Es). reflexivity.
Qed.

Lemma py_split_parts (sep : char) (s part : str) :
  In part (py_split sep s) -> ~ In sep part /\ incl part s.
Proof.
  revert part; induction s as [|c s IH]; simpl; intros part.
  - intros [<-|[]]. split; [intros []|intros x []].
  - destruct (c =? sep) eqn:Ec.
    + intros [<-|Hin]; [split; [intros []|intros x []]|].
      destruct (IH _ Hin) as [Hn Hi]. split; [exact Hn|].
      intros x Hx. right. now apply Hi.
    + destruct (py_split_cons sep s) as (h & t & E). rewrite E in *.
      intros [<-|Hin].
      * destruct (IH h (or_introl eq_refl)) as [Hn Hi]. split.
        -- intros [->|Hh]; [now rewrite N.eqb_refl in Ec|now apply Hn].
        -- intros x [<-|Hx]; [now left|right; now apply Hi].
      * destruct (IH part (or_intror Hin)) as [Hn Hi]. split; [exact Hn|].
        intros x Hx. right. now apply Hi.
Qed.

Lemma py_lstrip_split (s : str) :
  exists pad, s = pad ++ py_lstrip s /\ forallb py_isspace pad = true.
Proof.
  induction s as [|c s (pad & E & Hpad)]; simpl.
  - now exists [].
  - destruct (py_isspace c) eqn:Hc.
    + exists (c :: pad). simpl. rewrite Hc, Hpad. split; [now f_equal|reflexivity].
    + now exists [].
Qed.

Lemma py_lstrip_head (s : str) : starts_space (py_lstrip s) = false.
Proof.
  induction s as [|c s IH]; simpl; [reflexivity|].
  destruct (py_isspace c) eqn:Hc; [exact IH|]. simpl. exact Hc.
Qed.

Lemma py_lstrip_pad (pad s : str) :
  forallb py_isspace pad = true -> py_lstrip (pad ++ s) = py_lstrip s.
Proof.
  induction pad as [|c pad IH]; simpl; [reflexivity|].
  intros E. apply andb_true_iff in E as [-> E]. now apply IH.
Qed.

Lemma py_lstrip_id (s : str) : starts_space s = false -> py_lstrip s = s.
Proof.
  destruct s as [|c s]; simpl; [reflexivity|]. now intros ->.
Qed.

Lemma forallb_rev {A} (f : A -> bool) (l : list A) :
  forallb f (rev l) = forallb f l.
Proof.
  induction l as [|x l IH]; simpl; [reflexivity|].
  rewrite forallb_app, IH. simpl. rewrite andb_true_r. apply andb_comm.
Qed.

Lemma py_lstrip_blank (pad : str) :
  forallb py_isspace pad = true -> py_lstrip pad = [].
Proof.
  intros E. rewrite <- (app_nil_r pad). now rewrite py_lstrip_pad.
Qed.

Lemma py_strip_blank (pad : str) :
  forallb py_isspace pad = true -> py_strip pad = [].
Proof.
  intros E. unfold py_strip. now rewrite (py_lstrip_blank _ E).
Qed.

Lemma py_strip_padded (before id after : str) :
  forallb py_isspace before = true ->
  forallb py_isspace after = true ->
  starts_space id = false ->
  starts_space (rev id) = false ->
  py_strip (before ++ id ++ after) = id.
Proof.
  intros Hb Ha Hh Hl. unfold py_strip.
  rewrite (py_lstrip_pad _ _ Hb).
  destruct id as [|c id].
  - simpl. rewrite (py_lstrip_blank _ Ha). simpl. reflexivity.
  - rewrite (py_lstrip_id ((c :: id) ++ after)) by exact Hh.
    rewrite rev_app_distr, py_lstrip_pad by (now rewrite forallb_rev).
    rewrite (py_lstrip_id _ Hl). apply rev_involutive.
Qed.

Lemma py_strip_stripped (s : str) :
  starts_space (py_strip s) = false
  /\ starts_space (rev (py_strip s)) = false
  /\ incl (py_strip s) s.
Proof.
  unfold py_strip.
  destruct (py_lstrip_split s) as (p1 & E1 & _).
  set (t := py_lstrip s) in *.
  destruct (py_lstrip_split (rev t)) as (p2 & E2 & _).
  set (u := py_lstrip (rev t)) in *.
  assert (Et : t = rev u ++ rev p2).
  { rewrite <- rev_app_distr, <- E2. symmetry. apply rev_involutive. }
  split; [|split].
  - pose proof (py_lstrip_head s) as Hh. fold t in Hh. rewrite Et in Hh.
    destruct (rev u); [reflexivity|exact Hh].
  - rewrite rev_involutive. apply py_lstrip_head.
  - intros x Hx. rewrite E1. apply in_or_app. right.
    rewrite Et. apply in_or_app. now left.
Qed.

Lemma existsb_false_not_in (c : char) (s : str) :
  existsb (N.eqb c) s = false <-> ~ In c s.
Proof.
  split.
  - intros E Hin. assert (existsb (N.eqb c) s = true); [|congruence].
    apply existsb_exists. exists c. split; [exact Hin|apply N.eqb_refl].
  - intros Hn. destruct (existsb (N.eqb c) s) eqn:E; [|reflexivity].
    apply existsb_exists in E as (x & Hx & Ex). apply N.eqb_eq in Ex.
    subst. contradiction.
Qed.

(** X7. Every identifier of [DB_IDS] and [PAGE_IDS] is non-empty, holds
    no comma and has no whitespace at either end, whatever the value of
    the environment variable. *)
Theorem id_list_clean (value : option str) :
  forallb is_id (id_list value) = true.
Proof.
  unfold id_list. apply forallb_forall. intros id Hin.
  apply in_map_iff in Hin as (part & <- & Hin).
  apply filter_In in Hin as [Hin Hne].
  destruct (py_split_parts _ _ _ Hin) as [Hcomma _].
  destruct (py_strip_stripped part) as (Hh & Hl & Hsub).
  assert (Hc : existsb (N.eqb COMMA) (py_strip part) = false).
  { apply existsb_false_not_in. intros Hc. apply Hcomma. now apply Hsub. }
  unfold is_id. now rewrite Hne, Hh, Hl, Hc.
Qed.

Lemma id_list_app (s1 s2 : str) :
  id_list (Some (s1 ++ COMMA :: s2)) = id_list (Some s1) ++ id_list (Some s2).
Proof.
  unfold id_list, environ_get.
  now rewrite py_split_app, filter_app, map_app.
Qed.

Lemma isspace_not_comma (pad : str) :
  forallb py_isspace pad = true -> existsb (N.eqb COMMA) pad = false.
Proof.
  induction pad as [|c pad IH]; cbn [existsb forallb]; [reflexivity|].
  intros E. apply andb_true_iff in E as [Hc E]. rewrite (IH E), orb_false_r.
  destruct (COMMA =? c) eqn:Ec; [|reflexivity].
  apply N.eqb_eq in Ec. subst c. discriminate Hc.
Qed.

Lemma id_list_entry (e : entry) :
  wf_entry e = true -> id_list (Some (entry_text e)) = entry_ids e.
Proof.
  destruct e as [pad|before id after]; cbn [entry_text entry_ids wf_entry];
    intros Hwf; unfold id_list, environ_get.
  - rewrite (py_split_whole _ _ (isspace_not_comma _ Hwf)). cbn [filter map].
    now rewrite (py_strip_blank _ Hwf).
  - apply andb_true_iff in Hwf as [Hwf Ha].
    apply andb_true_iff in Hwf as [Hb Hid].
    unfold is_id in Hid.
    apply andb_true_iff in Hid as [Hid Hl].
    apply andb_true_iff in Hid as [Hid Hh].
    apply andb_true_iff in Hid as [Hne Hc].
    apply negb_true_iff in Hl, Hh, Hc.
    rewrite py_split_whole.
    + cbn [filter map]. rewrite (py_strip_padded _ _ _ Hb Ha Hh Hl).
      rewrite Hne. cbn [map]. now rewrite (py_strip_padded _ _ _ Hb Ha Hh Hl).
    + rewrite !existsb_app.
      apply orb_false_iff; split; [now apply isspace_not_comma|].
      apply orb_false_iff; split; [exact Hc|now apply isspace_not_comma].
Qed.

(** X8. The variable is read as a comma-separated list: the identifiers
    come out in the order written, whitespace around an identifier is
    dropped, and entries that are empty or blank are left out (so an
    unset or empty variable gives no identifier at all). *)
Theorem id_list_of_entries (entries : list entry) :
  forallb wf_entry entries = true ->
  id_list (Some (join_comma (map entry_text entries)))
  = flat_map entry_ids entries
  /\ id_list None = [].
Proof.
  intros Hwf. split; [|reflexivity].
  induction entries as [|e entries IH]; [reflexivity|].
  simpl in Hwf. apply andb_true_iff in Hwf as [He Hes].
  destruct entries as [|e' entries].
  - simpl. rewrite app_nil_r. now apply id_list_entry.
  - change (join_comma (map entry_text (e :: e' :: entries)))
      with (entry_text e ++ COMMA :: join_comma (map entry_text (e' :: entries))).
    rewrite id_list_app, (id_list_entry _ He), (IH Hes). reflexivity.
Qed.

Lemma id_list_of_entries_witness :
  id_list (Some (u8 " db-1 ,db-2,, ")) = [u8 "db-1"; u8 "db-2"].
Proof.
  exact (proj1 (id_list_of_entries
                  [Named (u8 " ") (u8 "db-1") (u8 " ");
                   Named [] (u8 "db-2") []; Blank []; Blank (u8 " ")]
                  eq_refl)).
Defined.

(* ================================================================== *)
(** * Completed runs: what is notified and what is saved *)

Ltac lift_done :=
  rewrite wp_bind, wp_lift;
  match goal with
  | |- match ?r with Ok _ => _ | Raise _ => _ end => destruct r eqn:?; [|exact I]
  end.

Section Exchanges.
Context `{Platform}.
Local Open Scope script_scope.

Lemma grows_refl (R : event -> Prop) s : grows R s s.
Proof. split; [reflexivity|]. exists []. now rewrite app_nil_r. Qed.

Lemma grows_one (R : event -> Prop) s ev w : R ev -> grows R s (logged s [ev] w).
Proof. intros HR. split; [reflexivity|]. exists [ev]. split; [reflexivity|]. now constructor. Qed.

Lemma grows_step (R : event -> Prop) s ev w s' :
  R ev -> grows R (logged s [ev] w) s' -> grows R s s'.
Proof.
  intros HR [Hd (delta & Hlog & Hall)]. split; [exact Hd|].
  exists (ev :: delta). cbn [logged st_log] in Hlog. rewrite Hlog, <- app_assoc.
  split; [reflexivity|]. now constructor.
Qed.

Lemma grows_trans (R : event -> Prop) s1 s2 s3 :
  grows R s1 s2 -> grows R s2 s3 -> grows R s1 s3.
Proof.
  intros [Hd1 (d1 & Hl1 & Ha1)] [Hd2 (d2 & Hl2 & Ha2)]. split; [congruence|].
  exists (d1 ++ d2). rewrite Hl2, Hl1, <- app_assoc. split; [reflexivity|].
  now apply Forall_app.
Qed.

Lemma grows_weaken (R R' : event -> Prop) s s' :
  (forall ev, R ev -> R' ev) -> grows R s s' -> grows R' s s'.
Proof.
  intros Himp [Hd (delta & Hlog & Hall)]. split; [exact Hd|].
  exists delta. split; [exact Hlog|]. eapply Forall_impl; eauto.
Qed.

Lemma dict_set_twice (k : str) (v v' : json) (dct : pydict) :
  dict_set k v' (dict_set k v dct) = dict_set k v' dct.
Proof.
  induction dct as [|[k0 v0] dct IH]; cbn [dict_set].
  - now rewrite str_eqb_refl.
  - destruct (str_eqb k k0) eqn:E; cbn [dict_set]; rewrite E; [reflexivity|].
    now rewrite IH.
Qed.

Lemma paged_next (base payload : pydict) (cursor : json) :
  paged base payload -> paged base (dict_set (u8 "start_cursor") cursor payload).
Proof.
  intros [->|[c ->]]; right; exists cursor; [reflexivity|apply dict_set_twice].
Qed.

Lemma paged_after (base payload : pydict) :
  paged base payload -> payload_after (JObj payload) = payload_after (JObj base).
Proof. intros [->|[c ->]]; [reflexivity|apply payload_after_cursor]. Qed.

(** The loop of [query_new_db_pages] sends queries to its URL only, all
    with the payload of the first and, from the second on, a continuation
    token. *)
Lemma query_loop_exchanges (fuel : nat) (base : pydict) :
  forall url payload results s,
    paged base payload ->
    wp (query_loop fuel url payload results)
       (fun _ s' => grows (query_exchange url base) s s')
       (fun _ s' => grows (query_exchange url base) s s') s.
Proof.
  induction fuel as [|fuel IH]; intros url payload results s Hp; cbn [query_loop].
  - rewrite wp_spin. apply grows_refl.
  - rewrite wp_bind, wp_http.
    assert (Hev : forall rs, query_exchange url base
                    (EvHttp Notion (query_request url payload) rs))
      by (intros rs; exists payload, rs; auto).
    destruct (http_send (st_world s) (query_request url payload)) as [w [r|e]] eqn:Hsend.
    2:{ now apply grows_one. }
    pose proof (grows_one _ s _ w (Hev (Ok r))) as Hg.
    do 5 (lift_or ltac:(exact Hg)).
    destruct (negb (truthy _)); [rewrite wp_ret; exact Hg|].
    lift_or ltac:(exact Hg).
    eapply wp_mono; [| |apply IH; apply paged_next; exact Hp].
    + intros ? s' Hs'. eapply grows_step; [apply (Hev (Ok r))|exact Hs'].
    + intros ? s' Hs'. eapply grows_step; [apply (Hev (Ok r))|exact Hs'].
Qed.

(** The loop of [list_new_blocks] only lists the children of its page. *)
Lemma list_loop_exchanges (fuel : nat) :
  forall page_id url after_dt out s,
    listing_url page_id url ->
    wp (list_loop fuel page_id url after_dt out)
       (fun _ s' => grows (listing_exchange page_id) s s')
       (fun _ s' => grows (listing_exchange page_id) s s') s.
Proof.
  induction fuel as [|fuel IH]; intros page_id url after_dt out s Hurl; cbn [list_loop].
  - rewrite wp_spin. apply grows_refl.
  - rewrite wp_bind, wp_http.
    assert (Hev : forall rs, listing_exchange page_id (EvHttp Notion (list_request url) rs))
      by (intros rs; exists url, rs; auto).
    destruct (http_send (st_world s) (list_request url)) as [w [r|e]] eqn:Hsend.
    2:{ now apply grows_one. }
    pose proof (grows_one _ s _ w (Hev (Ok r))) as Hg.
    do 6 (lift_or ltac:(exact Hg)).
    destruct (negb (truthy _)); [rewrite wp_ret; exact Hg|].
    lift_or ltac:(exact Hg).
    eapply wp_mono; [| |apply IH; right; eauto].
    + intros ? s' Hs'. eapply grows_step; [apply (Hev (Ok r))|exact Hs'].
    + intros ? s' Hs'. eapply grows_step; [apply (Hev (Ok r))|exact Hs'].
Qed.

Lemma exchanges_silent (delta : list event) :
  Forall (fun ev => exchange ev = true) delta ->
  fetched_items delta = [] /\ formatted_items delta = []
  /\ posted_requests delta = [] /\ saves delta = [].
Proof.
  induction 1 as [|ev delta Hev _ (E1 & E2 & E3 & E4)]; [repeat split|].
  destruct ev as [| [|] | | |]; try discriminate Hev.
  unfold fetched_items, formatted_items, posted_requests, saves in *.
  cbn [flat_map app]. auto.
Qed.

Lemma query_exchange_exchange url base ev :
  query_exchange url base ev -> exchange ev = true.
Proof. now intros (payload & rs & -> & _). Qed.

Lemma listing_exchange_exchange page_id ev :
  listing_exchange page_id ev -> exchange ev = true.
Proof. now intros (url & rs & -> & _). Qed.

End Exchanges.

Section Ledger.
Context `{Platform}.
Local Open Scope script_scope.

Lemma wp_foldM_prefix {A B} (f : B -> A -> M B)
    (I : list A -> B -> pstate -> Prop) E (l : list A) :
  (forall pre x post b s,
     l = pre ++ x :: post -> I pre b s -> wp (f b x) (I (pre ++ [x])) E s) ->
  forall b s, I [] b s -> wp (foldM f l b) (I l) E s.
Proof.
  intros Hf.
  assert (Hgen : forall rest pre b s,
             l = pre ++ rest -> I pre b s -> wp (foldM f rest b) (I l) E s).
  { induction rest as [|x rest IH]; intros pre b s Hl Hb; cbn [foldM].
    - rewrite app_nil_r in Hl. subst pre. exact Hb.
    - rewrite wp_bind. eapply wp_mono; [| |apply (Hf pre x rest); assumption].
      + intros b' s' Hb'. apply (IH (pre ++ [x])); [|exact Hb'].
        now rewrite <- app_assoc.
      + auto. }
  intros b s Hb. now apply (Hgen l []).
Qed.

Lemma fresh_items_app (a b : list json) :
  forall seen,
    fresh_items seen (a ++ b)
    = fresh_items seen a
      ++ fresh_items (seen ++ item_keys (fresh_items seen a)) b.
Proof.
  induction a as [|item a IH]; intros seen; cbn [app fresh_items].
  - unfold item_keys. cbn. now rewrite app_nil_r.
  - destruct (item_key item) as [k|] eqn:Hk; [|apply IH].
    destruct (existsb (hkey_eqb k) seen); [apply IH|].
    rewrite IH. cbn [app]. f_equal. f_equal.
    unfold item_keys. cbn [flat_map]. rewrite Hk. cbn [app].
    now rewrite <- app_assoc.
Qed.

Lemma fresh_items_snoc (seen : list hkey) (done : list json) (item : json) (k : hkey) :
  item_key item = Some k ->
  fresh_items seen (done ++ [item])
  = fresh_items seen done
    ++ (if existsb (hkey_eqb k) (seen ++ item_keys (fresh_items seen done))
        then [] else [item]).
Proof.
  intros Hk. rewrite fresh_items_app. f_equal. cbn [fresh_items].
  rewrite Hk. now destruct (existsb _ _).
Qed.

Variable d : option str.
Variable seen0 : list hkey.

#[local] Abbreviation Balanced := (balanced d seen0).

Lemma notify_ledger ph fetched done seen item s :
  ledger d seen0 fetched done seen s ->
  wp (notify ph seen item)
     (fun seen' s' => ledger d seen0 fetched (done ++ [item]) seen' s')
     (fun _ _ => True) s.
Proof.
  intros (Hd & Hsv & Hfe & Hkeys & Hfo & Hpo & Hid & Hha). unfold notify.
  rewrite wp_bind, wp_lift.
  destruct (py_get item (u8 "id") JNull) as [id|e] eqn:Hget; [|exact I].
  rewrite wp_bind, wp_lift. unfold set_contains, set_add.
  destruct (key_of id) as [k|] eqn:Hk; [|exact I].
  assert (Hkey : item_key item = Some k) by (unfold item_key; now rewrite Hget).
  assert (Hid' : Forall (fun item => item_key item <> None) (done ++ [item])).
  { apply Forall_app. split; [exact Hid|]. repeat constructor. congruence. }
  pose proof (fresh_items_snoc seen0 done item k Hkey) as Hsnoc.
  rewrite <- Hfo in Hsnoc.
  change (item_keys (formatted_items (st_log s))) with (notified_keys (st_log s)) in Hsnoc.
  rewrite <- Hkeys in Hsnoc. fold (key_in k seen) in Hsnoc.
  destruct (key_in k seen) eqn:Hin.
  - rewrite wp_ret. rewrite app_nil_r in Hsnoc.
    unfold ledger. rewrite Hsnoc. repeat split; auto.
  - rewrite wp_bind, wp_emit.
    rewrite wp_bind, wp_lift.
    destruct (format_item ph item) as [blocks|e] eqn:Hfmt; [|exact I].
    rewrite wp_bind. unfold slack_post. rewrite wp_bind, wp_http.
    set (rq := slack_request (post_text ph) blocks).
    destruct (http_send _ rq) as [w [r|e]]; [|exact I].
    rewrite wp_lift. destruct (raise_for_status r) as [[]|e]; [|exact I].
    rewrite wp_lift. unfold ledger. cbn [logged st_log st_disk].
    unfold saves, fetched_items, notified_keys, formatted_items, posted_requests.
    rewrite !flat_map_app. cbn [flat_map app]. rewrite !app_nil_r.
    fold (saves (st_log s)). fold (fetched_items (st_log s)).
    fold (formatted_items (st_log s)). fold (posted_requests (st_log s)).
    fold (notified_keys (st_log s)).
    cbn [flat_map app]. rewrite Hkey. cbn [app].
    split; [exact Hd|]. split; [exact Hsv|]. split; [exact Hfe|].
    split.
    { unfold set_keys. rewrite flat_map_app. fold (set_keys seen).
      cbn [flat_map]. rewrite Hk, Hkeys. cbn [app]. now rewrite <- app_assoc. }
    split; [now rewrite Hsnoc|].
    split; [|split; [exact Hid'|]].
    + apply Forall2_app; [exact Hpo|]. repeat constructor.
      exists ph, blocks. auto.
    + apply Forall_app. split; [exact Hha|]. repeat constructor. congruence.
Qed.

Lemma notify_all_ledger ph fetched done items seen s :
  ledger d seen0 fetched done seen s ->
  wp (foldM (notify ph) items seen)
     (fun seen' s' => ledger d seen0 fetched (done ++ items) seen' s')
     (fun _ _ => True) s.
Proof.
  intros Hs.
  apply (wp_foldM_prefix (notify ph)
           (fun pre seen' s' => ledger d seen0 fetched (done ++ pre) seen' s')).
  - intros pre x post b s' _ Hb. rewrite app_assoc. now apply notify_ledger.
  - now rewrite app_nil_r.
Qed.


Lemma balanced_fetched ph items seen s s' :
  Balanced seen s ->
  grows (fun ev => exchange ev = true) s s' ->
  ledger d seen0 (fetched_items (st_log s) ++ items) (fetched_items (st_log s))
         seen (logged s' [EvFetched ph items] (st_world s')).
Proof.
  intros (Hd & Hsv & _ & Hkeys & Hfo & Hpo & Hid & Hha) [Hdisk (delta & Hlog & Hall)].
  destruct (exchanges_silent _ Hall) as (E1 & E2 & E3 & E4).
  unfold ledger. cbn [logged st_log st_disk]. rewrite Hlog.
  unfold saves, fetched_items, notified_keys, formatted_items, posted_requests in *.
  rewrite !flat_map_app. rewrite E1, E2, E3, E4. cbn [flat_map app].
  rewrite !app_nil_r. repeat split; auto. congruence.
Qed.

Lemma ledger_balanced fetched seen s :
  ledger d seen0 fetched fetched seen s -> Balanced seen s.
Proof.
  intros Hl. pose proof Hl as (_ & _ & Hfe & _). unfold balanced. now rewrite Hfe.
Qed.

Lemma balanced_clock seen s t w :
  Balanced seen s -> Balanced seen (logged s [EvClock t] w).
Proof.
  intros (Hd & Hsv & _ & Hkeys & Hfo & Hpo & Hid & Hha).
  unfold balanced, ledger. cbn [logged st_log st_disk].
  unfold saves, fetched_items, notified_keys, formatted_items, posted_requests in *.
  rewrite !flat_map_app. cbn [flat_map app]. rewrite !app_nil_r.
  repeat split; auto.
Qed.

Lemma scan_databases_ledger fuel iso seen s :
  Balanced seen s ->
  wp (scan_databases fuel iso seen) Balanced (fun _ _ => True) s.
Proof.
  intros Hs. unfold scan_databases.
  apply (wp_foldM _ Balanced (fun _ _ => True)); [|exact Hs].
  intros b dbid s1 _ Hs1. unfold query_new_db_pages. rewrite !wp_bind.
  eapply wp_mono; [| |apply (query_loop_exchanges fuel (query_payload iso)); now left];
    [|auto].
  intros pages s2 Hg. rewrite wp_bind, wp_emit, wp_ret.
  eapply wp_mono; [| |apply notify_all_ledger]; [| |apply (balanced_fetched Pages pages b s1 s2 Hs1)].
  - intros seen' s3 Hl. now apply ledger_balanced in Hl.
  - auto.
  - eapply grows_weaken; [|exact Hg]. intros ev. apply query_exchange_exchange.
Qed.

Lemma scan_pages_ledger fuel iso seen s :
  Balanced seen s ->
  wp (scan_pages fuel iso seen) Balanced (fun _ _ => True) s.
Proof.
  intros Hs. unfold scan_pages. destruct PAGE_IDS as [|pgid rest]; [exact Hs|].
  rewrite wp_bind.
  match goal with
  | |- wp ?m _ _ _ => assert (Hdt : wp m (fun _ s' => s' = s) (fun _ _ => True) s)
  end.
  { destruct (truthy iso); [|reflexivity].
    rewrite wp_bind, wp_lift. destruct (dtparse iso); [reflexivity|exact I]. }
  eapply wp_mono; [| |exact Hdt]; [|auto].
  intros after_dt s' ->.
  apply (wp_foldM _ Balanced (fun _ _ => True)); [|exact Hs].
  intros b pg s1 _ Hs1. unfold list_new_blocks. rewrite !wp_bind.
  eapply wp_mono; [| |apply list_loop_exchanges; now left]; [|auto].
  intros blks s2 Hg. rewrite wp_bind, wp_emit, wp_ret.
  eapply wp_mono; [| |apply notify_all_ledger]; [| |apply (balanced_fetched Blocks blks b s1 s2 Hs1)].
  - intros seen' s3 Hl. now apply ledger_balanced in Hl.
  - auto.
  - eapply grows_weaken; [|exact Hg]. intros ev. apply listing_exchange_exchange.
Qed.

Lemma set_add_all_hashable (items : list json) :
  forall acc seen,
    Forall (fun v => key_of v <> None) acc ->
    set_add_all items acc = Ok seen ->
    Forall (fun v => key_of v <> None) seen.
Proof.
  induction items as [|v items IH]; intros acc seen Hacc; cbn [set_add_all].
  - now intros [= <-].
  - unfold set_add. destruct (key_of v) as [k|] eqn:Hk; [|discriminate].
    cbn [rbind]. apply IH. destruct (key_in k acc); [exact Hacc|].
    apply Forall_app. split; [exact Hacc|]. repeat constructor. congruence.
Qed.

Lemma py_set_hashable (ids : json) (seen : pyset) :
  py_set ids = Ok seen -> Forall (fun v => key_of v <> None) seen.
Proof.
  unfold py_set. destruct (py_iter ids) as [items|]; [|discriminate].
  cbn [rbind]. now apply set_add_all_hashable.
Qed.

Lemma poll_ledger fuel state s :
  st_log s = [] -> st_disk s = d ->
  (forall ids seen,
     py_get state (u8 "seen_ids") (JArr []) = Ok ids ->
     py_set ids = Ok seen -> set_keys seen = seen0) ->
  wp (poll fuel state) Balanced (fun _ _ => True) s.
Proof.
  intros Hlog Hdisk Hseen. unfold poll.
  rewrite wp_bind, wp_lift. destruct (py_get state (u8 "last_checked") JNull) as [lc|e]; [|exact I].
  rewrite wp_bind, wp_lift.
  destruct (py_get state (u8 "seen_ids") (JArr [])) as [ids|e] eqn:Hids; [|exact I].
  rewrite wp_bind, wp_lift. destruct (py_set ids) as [seen|e] eqn:Hset; [|exact I].
  assert (Hs : Balanced seen s).
  { unfold balanced, ledger. rewrite Hlog. cbn.
    rewrite (Hseen ids seen eq_refl Hset), app_nil_r. repeat split; auto.
    now apply (py_set_hashable ids). }
  rewrite wp_bind.
  match goal with
  | |- wp ?m _ _ _ => assert (Hiso : wp m (fun _ s' => Balanced seen s') (fun _ _ => True) s)
  end.
  { destruct (negb (truthy _)); [|exact Hs].
    rewrite wp_bind, wp_now. destruct (clock (st_world s)) as [w t].
    rewrite wp_ret. now apply balanced_clock. }
  eapply wp_mono; [| |exact Hiso]; [|auto].
  intros iso s1 Hs1. rewrite wp_bind.
  eapply wp_mono; [| |apply scan_databases_ledger; exact Hs1]; [|auto].
  intros seen1 s2 Hs2. now apply scan_pages_ledger.
Qed.

End Ledger.

Section Closing.
Context `{Platform}.
Local Open Scope script_scope.

Lemma write_chunks_done (chunks : list str) :
  forall written text,
    write_chunks chunks written = (text, Ok tt) ->
    text = written ++ concat chunks /\ Forall (fun c => encodable c = true) chunks.
Proof.
  induction chunks as [|c chunks IH]; intros written text; cbn [write_chunks concat].
  - intros [= <-]. now rewrite app_nil_r.
  - destruct (encodable c) eqn:Hc; [|discriminate].
    intros Hw. destruct (IH _ _ Hw) as [-> Hall].
    rewrite <- app_assoc. split; [reflexivity|]. now constructor.
Qed.

Lemma main_closing fuel d0 seen0 s :
  st_log s = [] ->
  read_state (st_disk s) = Ok (JObj d0) ->
  (forall ids seen,
     py_get (JObj d0) (u8 "seen_ids") (JArr []) = Ok ids ->
     py_set ids = Ok seen -> set_keys seen = seen0) ->
  wp (main fuel) (fun _ s' => closing d0 seen0 s') (fun _ _ => True) s.
Proof.
  intros Hlog Hread Hseen. unfold main.
  rewrite wp_bind, wp_load_state, Hread. rewrite wp_bind.
  eapply wp_mono; [| |apply (poll_ledger (st_disk s) seen0 fuel (JObj d0) s); auto]; [|auto].
  intros seen s1 (Hd & Hsv & _ & Hkeys & Hfo & Hpo & Hid & Hha).
  rewrite wp_bind. unfold update_state, now_iso.
  rewrite !wp_bind, wp_now. destruct (clock (st_world s1)) as [w t].
  rewrite wp_ret, wp_bind, wp_lift. cbn [py_setitem]. rewrite wp_lift.
  rewrite wp_save_state.
  destruct (write_chunks _ _) as [written [[]|e]] eqn:Hw; [|exact I].
  apply write_chunks_done in Hw as [-> Henc].
  exists (st_log s1), t, seen. cbn [logged st_log st_disk].
  rewrite <- app_assoc. repeat split; auto.
Qed.

Lemma loaded_dict disk seen0 :
  loaded_seen disk = Ok seen0 -> exists d0, read_state disk = Ok (JObj d0).
Proof.
  unfold loaded_seen. destruct (read_state disk) as [[| | | | |d0]|]; try discriminate.
  eauto.
Qed.

Lemma closing_run fuel w disk d0 seen0 :
  read_state disk = Ok (JObj d0) ->
  loaded_seen disk = Ok seen0 ->
  snd (run fuel w disk) = Done tt ->
  closing d0 (set_keys seen0) (fst (run fuel w disk)).
Proof.
  intros Hread Hload Hrun.
  set (s0 := {| st_world := w; st_disk := disk; st_log := [] |}).
  assert (Hwp : wp (main fuel) (fun _ s' => closing d0 (set_keys seen0) s')
                   (fun _ _ => True) s0).
  { apply main_closing; [reflexivity|exact Hread|].
    intros ids seen Hi Hs. unfold loaded_seen in Hload.
    rewrite Hread in Hload. cbn [rbind] in Hload. rewrite Hi in Hload.
    cbn [rbind] in Hload. congruence. }
  unfold wp in Hwp. unfold run in *. fold s0 in Hrun |- *.
  destruct (main fuel s0) as [s' o]. cbn [fst snd] in *. now subst o.
Qed.

Lemma closing_items d0 s log t seen :
  st_log s = log ++ [EvClock t; EvSave (saved_state d0 t seen)] ->
  fetched_items (st_log s) = fetched_items log
  /\ formatted_items (st_log s) = formatted_items log
  /\ posted_requests (st_log s) = posted_requests log.
Proof.
  intros ->. unfold fetched_items, formatted_items, posted_requests.
  rewrite !flat_map_app. cbn [flat_map app]. now rewrite !app_nil_r.
Qed.

(** X9. In a run that completes, the items notified are exactly the
    items the source client returned whose identifier was neither loaded
    from the checkpoint nor carried by an item returned earlier in the
    run, in the order they were returned; each of them gets one webhook
    request, the one its payload calls for, and every item returned has
    an identifier. *)
Theorem completed_run_notifies_fresh_items fuel w disk seen0 :
  loaded_seen disk = Ok seen0 ->
  snd (run fuel w disk) = Done tt ->
  let log := st_log (fst (run fuel w disk)) in
  formatted_items log = fresh_items (set_keys seen0) (fetched_items log)
  /\ Forall2 posted_for (formatted_items log) (posted_requests log)
  /\ Forall (fun item => item_key item <> None) (fetched_items log).
Proof.
  intros Hload Hrun log. destruct (loaded_dict _ _ Hload) as [d0 Hread].
  destruct (closing_run _ _ _ _ _ Hread Hload Hrun)
    as (log0 & t & seen & Hlog & _ & _ & Hfo & Hpo & Hid & _).
  subst log.
  destruct (closing_items d0 _ log0 t seen Hlog) as (-> & -> & ->).
  auto.
Qed.


End Closing.

Section NextRun.
Context `{Platform}.
Local Open Scope script_scope.

Lemma is_surrogate_escape (c : char) :
  is_surrogate c = true -> escape_char c = [c].
Proof.
  unfold is_surrogate, escape_char. intros Hc.
  apply andb_true_iff in Hc as [Hlo _]. apply N.leb_le in Hlo.
  repeat match goal with
         | |- context [c =? ?n] =>
           destruct (N.eqb_spec c n); [lia|]
         end.
  destruct (N.ltb_spec c 32); [lia|reflexivity].
Qed.

Lemma encodable_app (a b : str) :
  encodable (a ++ b) = encodable a && encodable b.
Proof. unfold encodable. apply forallb_app. Qed.

Lemma encodable_escaped (s : str) :
  encodable (flat_map escape_char s) = true -> encodable s = true.
Proof.
  induction s as [|c s IH]; [reflexivity|].
  cbn [flat_map]. rewrite encodable_app. intros E.
  apply andb_true_iff in E as [Ec Es].
  unfold encodable in *. cbn [forallb]. rewrite (IH Es), andb_true_r.
  destruct (is_surrogate c) eqn:Hc; [|reflexivity].
  rewrite (is_surrogate_escape c Hc) in Ec. cbn [forallb] in Ec.
  now rewrite Hc in Ec.
Qed.

Lemma encodable_basestring (s : str) :
  encodable (encode_basestring s) = true -> encodable s = true.
Proof.
  unfold encode_basestring.
  change (QUOTE :: flat_map escape_char s ++ [QUOTE])
    with ([QUOTE] ++ flat_map escape_char s ++ [QUOTE]).
  rewrite !encodable_app. intros E.
  apply andb_true_iff in E as [_ E]. apply andb_true_iff in E as [E _].
  now apply encodable_escaped.
Qed.

Lemma encodable_behind (pre s : str) :
  encodable (pre ++ encode_basestring s) = true -> encodable s = true.
Proof.
  rewrite encodable_app. intros E. apply andb_true_iff in E as [_ E].
  now apply encodable_basestring.
Qed.

Lemma chunks_encodable_checkpoint (c : checkpoint) :
  Forall (fun chunk => encodable chunk = true) (checkpoint_chunks c) ->
  encodable_checkpoint c.
Proof.
  unfold checkpoint_chunks. intros Hall.
  apply Forall_app in Hall as [Hhead Htail].
  apply Forall_app in Htail as [Hids _]. split.
  - destruct (last_checked c) as [t|] eqn:Ht; [|exact I].
    rewrite !Forall_cons_iff in Hhead.
    destruct Hhead as (_ & _ & _ & _ & Hts & _).
    unfold timestamp_text in Hts. rewrite Ht in Hts.
    now apply encodable_basestring.
  - destruct (seen_ids c) as [|id rest]; [constructor|].
    cbn [ids_chunks] in Hids. apply Forall_cons_iff in Hids as [Hid Hrest].
    apply Forall_app in Hrest as [Hrest _]. constructor.
    + now apply encodable_behind in Hid.
    + rewrite Forall_map in Hrest. eapply Forall_impl; [|exact Hrest].
      intros i Hi. now apply encodable_behind in Hi.
Qed.

Lemma read_state_checkpoint (c : checkpoint) :
  encodable_checkpoint c ->
  read_state (Some (json_dumps (checkpoint_state c))) = Ok (checkpoint_state c).
Proof.
  intros Henc. pose proof (checkpoint_chunks_clean c Henc) as Hclean.
  unfold read_state, json_dumps. rewrite iterencode_checkpoint.
  rewrite (universal_newlines_clean _ (concat_clean _ Hclean)).
  apply json_loads_checkpoint.
Qed.

Lemma set_keys_member (seen : pyset) (k : hkey) :
  In k (set_keys seen) <-> exists v, In v seen /\ key_of v = Some k.
Proof.
  unfold set_keys. rewrite in_flat_map. split.
  - intros (v & Hv & Hk). exists v. split; [exact Hv|].
    destruct (key_of v); [|contradiction]. destruct Hk as [->|[]]. reflexivity.
  - intros (v & Hv & Hk). exists v. split; [exact Hv|]. rewrite Hk. now left.
Qed.

Lemma key_of_string (v : json) (id : str) :
  key_of v = Some (KStr id) <-> v = JStr id.
Proof.
  split; [|now intros ->].
  destruct v as [| [|] | | | |]; cbn; try discriminate. now intros [= ->].
Qed.

Lemma key_in_true (k : hkey) (seen : pyset) :
  key_in k seen = true -> In k (set_keys seen).
Proof.
  unfold key_in. intros Hex. apply existsb_exists in Hex as (x & Hx & E).
  apply hkey_eqb_eq in E. now subst.
Qed.

Lemma set_add_all_strings (ids : list str) :
  forall acc, exists seen,
    set_add_all (map JStr ids) acc = Ok seen
    /\ forall k, In k (set_keys seen) <-> In k (set_keys acc) \/ In k (map KStr ids).
Proof.
  induction ids as [|id ids IH]; intros acc; cbn [map set_add_all].
  - exists acc. split; [reflexivity|]. intros k. cbn. tauto.
  - unfold set_add. cbn [key_of rbind].
    destruct (IH (if key_in (KStr id) acc then acc else acc ++ [JStr id]))
      as (seen & Hseen & Hmem).
    exists seen. split; [exact Hseen|]. intros k. rewrite Hmem.
    destruct (key_in (KStr id) acc) eqn:Hin.
    + apply key_in_true in Hin. cbn [In]. split; [tauto|].
      intros [Hk|[<-|Hk]]; auto.
    + unfold set_keys. rewrite flat_map_app. cbn [flat_map key_of app].
      rewrite in_app_iff. cbn [In]. tauto.
Qed.

Lemma loaded_seen_checkpoint (disk : option str) (c : checkpoint) :
  read_state disk = Ok (checkpoint_state c) ->
  exists seen,
    loaded_seen disk = Ok seen
    /\ forall k, In k (set_keys seen) <-> In k (map KStr (seen_ids c)).
Proof.
  intros Hread. unfold loaded_seen. rewrite Hread. cbn [rbind].
  change (py_get (checkpoint_state c) (u8 "seen_ids") (JArr []))
    with (Ok (JArr (map JStr (seen_ids c)))).
  cbn [rbind py_set py_iter].
  destruct (set_add_all_strings (seen_ids c) []) as (seen & Hseen & Hmem).
  exists seen. split; [exact Hseen|]. intros k. rewrite Hmem. cbn. tauto.
Qed.

Lemma strings_listed (l : list json) :
  Forall (fun v => exists id, v = JStr id) l ->
  exists ids, l = map JStr ids.
Proof.
  induction 1 as [|v l [id ->] _ [ids ->]]; [now exists []|].
  now exists (id :: ids).
Qed.

(** Where a completed run leaves the checkpoint, when it started from a
    checkpoint and every identifier it notified is a string. *)
Lemma closing_checkpoint (c : checkpoint) (seen0 : list hkey) (s : pstate) :
  (forall l v, In v (set_order l) <-> In v l) ->
  (forall k, In k seen0 <-> In k (map KStr (seen_ids c))) ->
  closing (match checkpoint_state c with JObj d0 => d0 | _ => [] end) seen0 s ->
  forallb string_key (notified_keys (st_log s)) = true ->
  exists t ids,
    (exists log st, st_log s = log ++ [EvClock t; EvSave st])
    /\ read_state (st_disk s)
       = Ok (checkpoint_state {| last_checked := Some (isoformat (utc t));
                                 seen_ids := ids |})
    /\ forall id, In id ids <->
                  In id (seen_ids c) \/ In (KStr id) (notified_keys (st_log s)).
Proof.
  intros Horder Hseen0 (log & t & seen & Hlog & _ & Hkeys & _ & _ & _ & Hha & Henc & Hdisk) Hstr.
  assert (Hnk : notified_keys (st_log s) = notified_keys log).
  { rewrite Hlog. unfold notified_keys, formatted_items.
    rewrite !flat_map_app. cbn [flat_map app]. now rewrite !app_nil_r. }
  rewrite Hnk in *. clear Hnk.
  assert (Hall : Forall (fun v => exists id, v = JStr id) (set_order seen)).
  { apply Forall_forall. intros v Hv. apply (proj1 (Horder _ _)) in Hv.
    rewrite Forall_forall in Hha. specialize (Hha v Hv).
    destruct (key_of v) as [k|] eqn:Hk; [|congruence].
    assert (Hin : In k (set_keys seen)) by (apply set_keys_member; eauto).
    rewrite Hkeys in Hin. apply in_app_or in Hin as [Hin|Hin].
    - apply (proj1 (Hseen0 _)), in_map_iff in Hin as (id & <- & _).
      exists id. now apply key_of_string.
    - rewrite forallb_forall in Hstr. specialize (Hstr k Hin).
      destruct k as [| |id]; try discriminate. exists id. now apply key_of_string. }
  destruct (strings_listed _ Hall) as [ids Hids].
  set (c1 := {| last_checked := Some (isoformat (utc t)); seen_ids := ids |}).
  assert (Hst : saved_state (match checkpoint_state c with JObj d0 => d0 | _ => [] end) t seen
                = checkpoint_state c1).
  { unfold saved_state, checkpoint_state, c1. cbn [last_checked seen_ids].
    rewrite Hids. reflexivity. }
  rewrite Hst in Henc, Hdisk. rewrite iterencode_checkpoint in Henc.
  exists t, ids. split; [rewrite Hlog; eauto|]. split.
  - rewrite Hdisk. apply read_state_checkpoint.
    now apply chunks_encodable_checkpoint.
  - intros id. split.
    + intros Hin.
      assert (Hv : In (JStr id) seen).
      { apply (proj1 (Horder seen _)). rewrite Hids. now apply in_map. }
      assert (Hk : In (KStr id) (set_keys seen)).
      { apply set_keys_member. exists (JStr id). auto. }
      rewrite Hkeys in Hk. apply in_app_or in Hk as [Hk|Hk]; [left|now right].
      apply (proj1 (Hseen0 _)), in_map_iff in Hk as (id' & [= ->] & Hid'). exact Hid'.
    + intros Hin.
      assert (Hk : In (KStr id) (set_keys seen)).
      { rewrite Hkeys. apply in_or_app. destruct Hin as [Hin|Hin]; [left|now right].
        apply (proj2 (Hseen0 _)). now apply in_map. }
      apply set_keys_member in Hk as (v & Hv & Hkv).
      apply key_of_string in Hkv. subst v.
      apply (proj2 (Horder _ _)) in Hv. rewrite Hids in Hv.
      apply in_map_iff in Hv as (id' & [= ->] & Hid'). exact Hid'.
Qed.

(** X11. A completed run that started from a checkpoint (or from no
    file) and notified items with string identifiers leaves a checkpoint
    the script reads back: its timestamp is the reading of the clock
    taken at the end of the run, and its identifiers are those of the
    checkpoint it started from together with those notified. *)
Theorem completed_run_leaves_checkpoint fuel w disk (c : checkpoint) :
  (forall l v, In v (set_order l) <-> In v l) ->
  read_state disk = Ok (checkpoint_state c) ->
  snd (run fuel w disk) = Done tt ->
  let s1 := fst (run fuel w disk) in
  forallb string_key (notified_keys (st_log s1)) = true ->
  exists t ids,
    (exists log st, st_log s1 = log ++ [EvClock t; EvSave st])
    /\ read_state (st_disk s1)
       = Ok (checkpoint_state {| last_checked := Some (isoformat (utc t));
                                 seen_ids := ids |})
    /\ forall id, In id ids <->
                  In id (seen_ids c) \/ In (KStr id) (notified_keys (st_log s1)).
Proof.
  intros Horder Hread Hrun s1 Hstr.
  destruct (loaded_seen_checkpoint disk c Hread) as (seen0 & Hload & Hmem).
  apply (closing_checkpoint c (set_keys seen0)); auto.
  now apply (closing_run fuel w disk).
Qed.

(** X12. Nothing is notified twice across runs: after a completed run
    that started from a checkpoint and notified items with string
    identifiers, the next run, whatever it fetches and however it ends,
    notifies no identifier of the first run and none of the checkpoint
    the first run started from. *)
Theorem next_run_skips_notified fuel w disk (c : checkpoint) fuel' w' :
  (forall l v, In v (set_order l) <-> In v l) ->
  read_state disk = Ok (checkpoint_state c) ->
  snd (run fuel w disk) = Done tt ->
  let s1 := fst (run fuel w disk) in
  forallb string_key (notified_keys (st_log s1)) = true ->
  forall k,
    In k (notified_keys (st_log (fst (run fuel' w' (st_disk s1))))) ->
    ~ In k (notified_keys (st_log s1)) /\ ~ In k (map KStr (seen_ids c)).
Proof.
  intros Horder Hread Hrun s1 Hstr k Hk.
  destruct (loaded_seen_checkpoint disk c Hread) as (seen0 & Hload & Hmem).
  destruct (closing_checkpoint c (set_keys seen0) s1 Horder Hmem
              (closing_run fuel w disk _ seen0 Hread Hload Hrun) Hstr)
    as (t & ids & _ & Hread1 & Hids).
  destruct (loaded_seen_checkpoint _ _ Hread1) as (seen1 & Hload1 & Hmem1).
  cbn [seen_ids] in Hmem1.
  assert (Hv : verdict (st_disk s1) (set_keys seen1)
                 (outcome_exn (snd (run fuel' w' (st_disk s1))))
                 (fst (run fuel' w' (st_disk s1)))).
  { apply run_verdict. intros state ids' seen' Hr Hi Hs.
    unfold loaded_seen in Hload1. rewrite Hr in Hload1. cbn [rbind] in Hload1.
    rewrite Hi in Hload1. cbn [rbind] in Hload1. congruence. }
  destruct Hv as (_ & _ & Hfresh & _).
  specialize (Hfresh k Hk).
  split; intros Hin; apply Hfresh, (proj2 (Hmem1 _)).
  - rewrite forallb_forall in Hstr. pose proof (Hstr k Hin) as Hs.
    destruct k as [| |id]; try discriminate.
    apply in_map, (proj2 (Hids _)). now right.
  - apply in_map_iff in Hin as (id & <- & Hid).
    apply in_map, (proj2 (Hids _)). now left.
Qed.

End NextRun.

Section Unreadable.
Context `{Platform}.
Local Open Scope script_scope.


End Unreadable.


Lemma sample_run_completes :
  snd (run (H := sample_platform) 5 (sample_world 200) seen_disk) = Done tt.
Proof. vm_compute. reflexivity. Defined.

Lemma completed_run_notifies_fresh_items_witness :
  let log := st_log (fst (run (H := sample_platform) 5 (sample_world 200) seen_disk)) in
  formatted_items log
  = fresh_items (set_keys [JStr (u8 "r-1")]) (fetched_items log)
  /\ Forall2 (posted_for (H := sample_platform))
             (formatted_items log) (posted_requests log)
  /\ Forall (fun item => item_key item <> None) (fetched_items log).
Proof.
  refine (completed_run_notifies_fresh_items (H := sample_platform)
            5 (sample_world 200) seen_disk [JStr (u8 "r-1")] _ sample_run_completes).
  vm_compute. reflexivity.
Defined.


Lemma sample_set_order :
  forall l v, In v (set_order (Platform := sample_platform) l) <-> In v l.
Proof. intros l v. reflexivity. Defined.

Lemma completed_run_leaves_checkpoint_witness :
  let s1 := fst (run (H := sample_platform) 5 (sample_world 200) seen_disk) in
  exists t ids,
    (exists log st, st_log s1 = log ++ [EvClock t; EvSave st])
    /\ read_state (st_disk s1)
       = Ok (checkpoint_state
               {| last_checked := Some (isoformat (Platform := sample_platform) (utc t));
                  seen_ids := ids |})
    /\ forall id, In id ids <->
                  In id [u8 "r-1"] \/ In (KStr id) (notified_keys (st_log s1)).
Proof.
  refine (completed_run_leaves_checkpoint (H := sample_platform)
            5 (sample_world 200) seen_disk
            {| last_checked := Some (u8 "2024-05-01T10:03:00+00:00");
               seen_ids := [u8 "r-1"] |}
            sample_set_order _ sample_run_completes _); vm_compute; reflexivity.
Defined.

Lemma next_run_skips_notified_witness :
  let s1 := fst (run (H := sample_platform) 5 (sample_world 200) seen_disk) in
  snd (run (H := sample_platform) 5 (sample_world 200) seen_disk) = Done tt
  /\ forallb string_key (notified_keys (st_log s1)) = true
  /\ forall k,
       In k (notified_keys
               (st_log (fst (run (H := sample_platform) 5 (sample_world 500)
                               (st_disk s1))))) ->
       ~ In k (notified_keys (st_log s1)) /\ ~ In k (map KStr [u8 "r-1"]).
Proof.
  assert (Hstr : forallb string_key
                   (notified_keys
                      (st_log (fst (run (H := sample_platform) 5 (sample_world 200)
                                      seen_disk)))) = true)
    by (vm_compute; reflexivity).
  split; [exact sample_run_completes|]. split; [exact Hstr|].
  refine (next_run_skips_notified (H := sample_platform)
            5 (sample_world 200) seen_disk
            {| last_checked := Some (u8 "2024-05-01T10:03:00+00:00");
               seen_ids := [u8 "r-1"] |} 5 (sample_world 500)
            sample_set_order _ sample_run_completes Hstr).
  vm_compute. reflexivity.
Defined.


(* ================================================================== *)
(** * Requests, boundary and block listing *)

Section Addressing.
Context `{Platform}.
Local Open Scope script_scope.

Variable boundary : json.

#[local] Abbreviation Sound := (fun s : pstate => Forall (addressed boundary) (st_log s)).

Lemma sound_logged s evs w :
  Sound s -> Forall (addressed boundary) evs -> Sound (logged s evs w).
Proof. intros Hs Hevs. cbn [logged st_log]. now apply Forall_app. Qed.

Lemma sound_grows (R : event -> Prop) s s' :
  (forall ev, R ev -> addressed boundary ev) ->
  Sound s -> grows R s s' -> Sound s'.
Proof.
  intros Himp Hs [_ (delta & Hlog & Hall)]. rewrite Hlog.
  apply Forall_app. split; [exact Hs|]. eapply Forall_impl; eauto.
Qed.

Lemma notify_addressed ph seen item s :
  Sound s ->
  wp (notify ph seen item) (fun _ s' => Sound s') (fun _ s' => Sound s') s.
Proof.
  intros Hs. unfold notify.
  do 2 (lift_or ltac:(exact Hs)).
  match goal with |- wp (if ?b then _ else _) _ _ _ => destruct b end; [exact Hs|].
  rewrite wp_bind, wp_emit.
  assert (Hs1 : Sound (logged s [EvFormat ph item] (st_world s)))
    by (apply sound_logged; [exact Hs|repeat constructor]).
  rewrite wp_bind, wp_lift.
  destruct (format_item ph item) as [blocks|e] eqn:Hfmt; [|exact Hs1].
  rewrite wp_bind. unfold slack_post. rewrite wp_bind, wp_http.
  assert (Hs2 : forall rs w',
             Sound (logged (logged s [EvFormat ph item] (st_world s))
                      [EvHttp Slack (slack_request (post_text ph) blocks) rs] w')).
  { intros rs w'. apply sound_logged; [exact Hs1|]. repeat constructor.
    exists ph, item, blocks. auto. }
  destruct (http_send _ _) as [w' [r|e]]; [|apply Hs2].
  rewrite wp_lift. destruct (raise_for_status r); [|apply Hs2].
  rewrite wp_lift. destruct (set_add _ _); apply Hs2.
Qed.

Lemma notify_all_addressed ph items seen s :
  Sound s ->
  wp (foldM (notify ph) items seen) (fun _ s' => Sound s') (fun _ s' => Sound s') s.
Proof.
  intros Hs.
  apply (wp_foldM (notify ph) (fun _ s' => Sound s') (fun _ s' => Sound s')); [|exact Hs].
  intros b item s' _ Hs'. now apply notify_addressed.
Qed.

Lemma scan_databases_addressed fuel seen s :
  Sound s ->
  wp (scan_databases fuel boundary seen) (fun _ s' => Sound s') (fun _ s' => Sound s') s.
Proof.
  intros Hs. unfold scan_databases.
  apply (wp_foldM _ (fun _ s' => Sound s') (fun _ s' => Sound s')); [|exact Hs].
  intros b dbid s1 Hin Hs1. unfold query_new_db_pages. rewrite !wp_bind.
  assert (Himp : forall ev,
             query_exchange (query_url dbid) (query_payload boundary) ev ->
             addressed boundary ev).
  { intros ev Hev. pose proof Hev as (payload & rs & -> & _). left. eauto. }
  eapply wp_mono;
    [| |apply (query_loop_exchanges fuel (query_payload boundary)); now left].
  - intros pages s2 Hg. rewrite wp_bind, wp_emit, wp_ret.
    apply notify_all_addressed. apply sound_logged; [|repeat constructor].
    now apply (sound_grows _ s1 s2 Himp).
  - intros o s2 Hg. now apply (sound_grows _ s1 s2 Himp).
Qed.

Lemma scan_pages_addressed fuel seen s :
  Sound s ->
  wp (scan_pages fuel boundary seen) (fun _ s' => Sound s') (fun _ s' => Sound s') s.
Proof.
  intros Hs. unfold scan_pages. destruct PAGE_IDS as [|pgid rest] eqn:Hpages; [exact Hs|].
  rewrite wp_bind.
  match goal with
  | |- wp ?m _ _ _ => assert (Hdt : wp m (fun _ s' => s' = s) (fun _ s' => s' = s) s)
  end.
  { destruct (truthy boundary); [|reflexivity].
    rewrite wp_bind, wp_lift. destruct (dtparse boundary); reflexivity. }
  eapply wp_mono; [| |exact Hdt]; [|now intros ? ? ->].
  intros after_dt s' ->.
  apply (wp_foldM _ (fun _ s' => Sound s') (fun _ s' => Sound s')); [|exact Hs].
  intros b pg s1 Hin Hs1. unfold list_new_blocks. rewrite !wp_bind.
  assert (Himp : forall ev, listing_exchange pg ev -> addressed boundary ev).
  { intros ev Hev. pose proof Hev as (url & rs & -> & _). right.
    exists pg. rewrite Hpages. auto. }
  eapply wp_mono; [| |apply list_loop_exchanges; now left].
  - intros blks s2 Hg. rewrite wp_bind, wp_emit, wp_ret.
    apply notify_all_addressed. apply sound_logged; [|repeat constructor].
    now apply (sound_grows _ s1 s2 Himp).
  - intros o s2 Hg. now apply (sound_grows _ s1 s2 Himp).
Qed.

End Addressing.

Section AddressingTheorem.
Context `{Platform}.
Local Open Scope script_scope.

Lemma main_addressed fuel w disk :
  wp (main fuel)
     (fun _ s' => Forall (addressed (run_boundary w disk)) (st_log s'))
     (fun _ s' => Forall (addressed (run_boundary w disk)) (st_log s'))
     {| st_world := w; st_disk := disk; st_log := [] |}.
Proof.
  set (s0 := {| st_world := w; st_disk := disk; st_log := [] |}).
  assert (Hs0 : Forall (addressed (run_boundary w disk)) (st_log s0)) by constructor.
  unfold main. rewrite wp_bind, wp_load_state. cbn [st_disk s0].
  unfold run_boundary in *.
  destruct (read_state disk) as [state|e]; [|exact Hs0].
  rewrite wp_bind. unfold poll.
  rewrite wp_bind, wp_lift.
  destruct (py_get state (u8 "last_checked") JNull) as [lc|e]; [|exact Hs0].
  do 2 (lift_or ltac:(exact Hs0)).
  rewrite wp_bind.
  set (b := if truthy lc then lc else JStr (isoformat (utc (snd (clock w))))) in *.
  match goal with
  | |- wp ?m _ _ _ =>
    assert (Hiso : wp m (fun iso s' => iso = b /\ Forall (addressed b) (st_log s'))
                        (fun _ s' => Forall (addressed b) (st_log s')) s0)
  end.
  { subst b. destruct (truthy lc); cbn [negb]; [now split|].
    rewrite wp_bind, wp_now. cbn [st_world s0]. destruct (clock w) as [w1 t].
    rewrite wp_ret. split; [reflexivity|]. repeat constructor. }
  eapply wp_mono; [| |exact Hiso]; [|auto].
  intros iso s1 [-> Hs1]. rewrite wp_bind.
  eapply wp_mono; [| |apply scan_databases_addressed; exact Hs1]; [|auto].
  intros seen1 s2 Hs2.
  eapply wp_mono; [| |apply scan_pages_addressed; exact Hs2]; [|auto].
  intros seen2 s3 Hs3.
  rewrite wp_bind. unfold update_state, now_iso.
  rewrite !wp_bind, wp_now. destruct (clock (st_world s3)) as [w4 t4].
  rewrite wp_ret.
  assert (Hs4 : Forall (addressed b) (st_log (logged s3 [EvClock t4] w4)))
    by (apply sound_logged; [exact Hs3|repeat constructor]).
  do 1 (lift_or ltac:(exact Hs4)).
  rewrite wp_lift.
  match goal with |- match ?r with _ => _ end => destruct r as [st|e] end;
    [|exact Hs4].
  rewrite wp_save_state. destruct (write_chunks _ _) as [written [[]|e]];
    cbn [logged st_log st_world st_disk]; (apply Forall_app; split; [exact Hs4|]);
    repeat constructor.
Qed.

Lemma addressed_routed boundary ep rq rs :
  addressed boundary (EvHttp ep rq rs) -> routed ep rq.
Proof.
  destruct ep; cbn [addressed routed].
  - intros (ph & item & blocks & _ & ->). repeat split.
  - intros [(db_id & _ & payload & rs' & [= -> _] & _)
           |(page_id & _ & url & rs' & [= -> _] & Hurl)].
    + repeat split. unfold query_url. cbn [rq_url query_request]. eauto.
    + repeat split. cbn [rq_url list_request].
      destruct Hurl as [->|[cursor ->]]; unfold blocks_url, blocks_url_from; eauto.
Qed.

(** X13. Whatever happens in a run, every request to Notion is a query
    of a configured database with the payload of the boundary of the run
    (page size, ascending sort, filter, and a continuation token from the
    second page on), or a listing of the children of a configured page;
    every request to the webhook is the payload of a formatted item.  The
    Notion headers, which carry the API key, go to addresses under
    [NOTION_BASE] only; a request to the webhook has no headers. *)
Theorem requests_are_addressed fuel w disk :
  let log := st_log (fst (run fuel w disk)) in
  Forall (addressed (run_boundary w disk)) log
  /\ forall ep rq rs, In (EvHttp ep rq rs) log -> routed ep rq.
Proof.
  intros log.
  assert (Hall : Forall (addressed (run_boundary w disk)) log).
  { pose proof (main_addressed fuel w disk) as Hwp. subst log. unfold run.
    unfold wp in Hwp. destruct (main fuel _) as [s' [x|e|]]; exact Hwp. }
  split; [exact Hall|]. intros ep rq rs Hin.
  rewrite Forall_forall in Hall.
  exact (addressed_routed _ _ _ _ (Hall _ Hin)).
Qed.

End AddressingTheorem.

Section Boundary.
Context `{Platform}.
Local Open Scope script_scope.

Variable a : datetime.

#[local] Abbreviation After := (fun s : pstate => Forall (event_after a) (st_log s)).

Lemma after_logged s evs w :
  After s -> Forall (event_after a) evs -> After (logged s evs w).
Proof. intros Hs Hevs. cbn [logged st_log]. now apply Forall_app. Qed.

Lemma after_grows s s' :
  After s -> grows (fun ev => exchange ev = true) s s' -> After s'.
Proof.
  intros Hs [_ (delta & Hlog & Hall)]. rewrite Hlog.
  apply Forall_app. split; [exact Hs|]. eapply Forall_impl; [|exact Hall].
  intros [| [|] | | |]; cbn; try discriminate; auto.
Qed.

Lemma after_items (log : list event) :
  Forall (event_after a) log ->
  Forall (created_after a) (fetched_items log)
  /\ Forall (created_after a) (formatted_items log).
Proof.
  induction 1 as [|ev log Hev _ [IH1 IH2]]; [split; constructor|].
  unfold fetched_items, formatted_items. cbn [flat_map].
  fold (fetched_items log). fold (formatted_items log).
  destruct ev; cbn [event_after] in Hev; cbn [app]; split; auto.
  now apply Forall_app.
Qed.

(** What the loop of [query_new_db_pages] returns was created after the
    instant of its filter. *)
Lemma query_loop_created (fuel : nat) (x : json) :
  filter_honoured -> dtparse x = Ok a ->
  forall url payload results s,
    payload_after (JObj payload) = Some x ->
    Forall (created_after a) results ->
    wp (query_loop fuel url payload results)
       (fun res _ => Forall (created_after a) res) (fun _ _ => True) s.
Proof.
  intros Hhon Hx.
  induction fuel as [|fuel IH]; intros url payload results s Hpay Hres; cbn [query_loop].
  - exact I.
  - rewrite wp_bind, wp_http.
    destruct (http_send (st_world s) (query_request url payload)) as [w [r|e]] eqn:Hsend;
      [|exact I].
    lift_done.
    rewrite wp_bind, wp_lift. destruct (resp_json r) as [data|e] eqn:Hdata; [|exact I].
    rewrite wp_bind, wp_lift.
    destruct (py_get data (u8 "results") (JArr [])) as [rr|e] eqn:Hrr; [|exact I].
    rewrite wp_bind, wp_lift. destruct (py_iter rr) as [items|e] eqn:Hiter; [|exact I].
    lift_done.
    assert (Hitems : Forall (created_after a) items).
    { apply (Hhon _ _ _ _ x a data rr items Hsend); auto. }
    assert (Hall : Forall (created_after a) (results ++ items)) by now apply Forall_app.
    destruct (negb (truthy _)); [exact Hall|].
    lift_done.
    apply IH; auto. now rewrite payload_after_cursor.
Qed.

Lemma is_new_block_created (blk : json) :
  is_new_block (Some a) blk = Ok true -> created_after a blk.
Proof.
  unfold is_new_block, created_after.
  destruct (py_get blk (u8 "created_time") JNull) as [ct|]; [|discriminate].
  cbn [rbind]. destruct (dtparse ct) as [c|] eqn:Hc; [|discriminate].
  cbn [rbind]. intros Hgt. eauto.
Qed.

Lemma keep_new_blocks_created (blks : list json) :
  forall out out',
    Forall (created_after a) out ->
    keep_new_blocks (Some a) blks out = Ok out' ->
    Forall (created_after a) out'.
Proof.
  induction blks as [|blk blks IH]; intros out out' Hout; cbn [keep_new_blocks].
  - now intros [= <-].
  - destruct (is_new_block (Some a) blk) as [[|]|] eqn:Hnew; cbn [rbind];
      [|now apply IH|discriminate].
    apply IH. apply Forall_app. split; [exact Hout|].
    repeat constructor. now apply is_new_block_created.
Qed.

Lemma list_loop_created (fuel : nat) :
  forall page_id url out s,
    Forall (created_after a) out ->
    wp (list_loop fuel page_id url (Some a) out)
       (fun res _ => Forall (created_after a) res) (fun _ _ => True) s.
Proof.
  induction fuel as [|fuel IH]; intros page_id url out s Hout; cbn [list_loop].
  - exact I.
  - rewrite wp_bind, wp_http.
    destruct (http_send (st_world s) (list_request url)) as [w [r|e]]; [|exact I].
    do 4 lift_done.
    rewrite wp_bind, wp_lift.
    destruct (keep_new_blocks (Some a) _ out) as [out'|e] eqn:Hkeep; [|exact I].
    pose proof (keep_new_blocks_created _ _ _ Hout Hkeep) as Hout'.
    lift_done.
    destruct (negb (truthy _)); [exact Hout'|].
    lift_done.
    now apply IH.
Qed.

Lemma notify_created ph seen item s :
  created_after a item -> After s ->
  wp (notify ph seen item) (fun _ s' => After s') (fun _ s' => After s') s.
Proof.
  intros Hitem Hs. unfold notify.
  do 2 (lift_or ltac:(exact Hs)).
  match goal with |- wp (if ?b then _ else _) _ _ _ => destruct b end; [exact Hs|].
  rewrite wp_bind, wp_emit.
  assert (Hs1 : After (logged s [EvFormat ph item] (st_world s)))
    by (apply after_logged; [exact Hs|repeat constructor; exact Hitem]).
  lift_or ltac:(exact Hs1).
  rewrite wp_bind. unfold slack_post. rewrite wp_bind, wp_http.
  match goal with |- context [http_send ?w ?rq] => destruct (http_send w rq) as [w' [r|e]] end.
  2:{ apply after_logged; [exact Hs1|repeat constructor]. }
  assert (Hs2 : forall rq, After (logged (logged s [EvFormat ph item] (st_world s))
                                    [EvHttp Slack rq (Ok r)] w'))
    by (intros rq; apply after_logged; [exact Hs1|repeat constructor]).
  rewrite wp_lift. destruct (raise_for_status r); [|apply Hs2].
  rewrite wp_lift. destruct (set_add _ _); apply Hs2.
Qed.

Lemma notify_all_created ph items seen s :
  Forall (created_after a) items -> After s ->
  wp (foldM (notify ph) items seen) (fun _ s' => After s') (fun _ s' => After s') s.
Proof.
  intros Hitems Hs.
  apply (wp_foldM (notify ph) (fun _ s' => After s') (fun _ s' => After s')); [|exact Hs].
  intros b item s' Hin Hs'. apply notify_created; [|exact Hs'].
  rewrite Forall_forall in Hitems. now apply Hitems.
Qed.

Lemma scan_databases_created fuel iso seen s :
  filter_honoured -> truthy iso = true -> dtparse iso = Ok a ->
  After s ->
  wp (scan_databases fuel iso seen) (fun _ s' => After s') (fun _ s' => After s') s.
Proof.
  intros Hhon Htr Hiso Hs. unfold scan_databases.
  apply (wp_foldM _ (fun _ s' => After s') (fun _ s' => After s')); [|exact Hs].
  intros b dbid s1 _ Hs1. unfold query_new_db_pages. rewrite !wp_bind.
  eapply wp_mono;
    [| |apply (wp_conj _ _ _ _ _ _
                 (query_loop_created fuel iso Hhon Hiso (query_url dbid)
                    (query_payload iso) [] s1 (payload_after_query iso Htr)
                    (Forall_nil _))
                 (query_loop_exchanges fuel (query_payload iso) (query_url dbid)
                    (query_payload iso) [] s1 (or_introl eq_refl)))].
  - intros pages s2 [Hpages Hg]. rewrite wp_bind, wp_emit, wp_ret.
    assert (Hs2 : After s2).
    { apply (after_grows s1); [exact Hs1|]. eapply grows_weaken; [|exact Hg].
      intros ev. apply query_exchange_exchange. }
    apply notify_all_created; [exact Hpages|].
    apply after_logged; [exact Hs2|]. repeat constructor. exact Hpages.
  - intros o s2 [_ Hg]. apply (after_grows s1); [exact Hs1|].
    eapply grows_weaken; [|exact Hg]. intros ev. apply query_exchange_exchange.
Qed.

Lemma scan_pages_created fuel iso seen s :
  truthy iso = true -> dtparse iso = Ok a ->
  After s ->
  wp (scan_pages fuel iso seen) (fun _ s' => After s') (fun _ s' => After s') s.
Proof.
  intros Htr Hiso Hs. unfold scan_pages. destruct PAGE_IDS as [|pgid rest]; [exact Hs|].
  rewrite Htr, Hiso, wp_bind, wp_bind, wp_lift, wp_ret.
  apply (wp_foldM _ (fun _ s' => After s') (fun _ s' => After s')); [|exact Hs].
  intros b pg s1 _ Hs1. unfold list_new_blocks. rewrite !wp_bind.
  eapply wp_mono;
    [| |apply (wp_conj _ _ _ _ _ _
                 (list_loop_created fuel pg (blocks_url pg) [] s1 (Forall_nil _))
                 (list_loop_exchanges fuel pg (blocks_url pg) (Some a) [] s1
                    (or_introl eq_refl)))].
  - intros blks s2 [Hblks Hg]. rewrite wp_bind, wp_emit, wp_ret.
    assert (Hs2 : After s2).
    { apply (after_grows s1); [exact Hs1|]. eapply grows_weaken; [|exact Hg].
      intros ev. apply listing_exchange_exchange. }
    apply notify_all_created; [exact Hblks|].
    apply after_logged; [exact Hs2|]. repeat constructor. exact Hblks.
  - intros o s2 [_ Hg]. apply (after_grows s1); [exact Hs1|].
    eapply grows_weaken; [|exact Hg]. intros ev. apply listing_exchange_exchange.
Qed.

End Boundary.

Section BoundaryTheorem.
Context `{Platform}.
Local Open Scope script_scope.

Lemma main_created fuel w disk a :
  truthy (run_boundary w disk) = true ->
  dtparse (run_boundary w disk) = Ok a ->
  filter_honoured ->
  wp (main fuel)
     (fun _ s' => Forall (event_after a) (st_log s'))
     (fun _ s' => Forall (event_after a) (st_log s'))
     {| st_world := w; st_disk := disk; st_log := [] |}.
Proof.
  intros Htr Hdt Hhon.
  set (s0 := {| st_world := w; st_disk := disk; st_log := [] |}).
  assert (Hs0 : Forall (event_after a) (st_log s0)) by constructor.
  unfold main. rewrite wp_bind, wp_load_state. cbn [st_disk s0].
  unfold run_boundary in *.
  destruct (read_state disk) as [state|e]; [|exact Hs0].
  rewrite wp_bind. unfold poll.
  rewrite wp_bind, wp_lift.
  destruct (py_get state (u8 "last_checked") JNull) as [lc|e]; [|exact Hs0].
  do 2 (lift_or ltac:(exact Hs0)).
  rewrite wp_bind.
  set (b := if truthy lc then lc else JStr (isoformat (utc (snd (clock w))))) in *.
  match goal with
  | |- wp ?m _ _ _ =>
    assert (Hiso : wp m (fun iso s' => iso = b /\ Forall (event_after a) (st_log s'))
                        (fun _ s' => Forall (event_after a) (st_log s')) s0)
  end.
  { subst b. destruct (truthy lc); cbn [negb]; [now split|].
    rewrite wp_bind, wp_now. cbn [st_world s0]. destruct (clock w) as [w1 t].
    rewrite wp_ret. split; [reflexivity|]. repeat constructor. }
  eapply wp_mono; [| |exact Hiso]; [|auto].
  intros iso s1 [-> Hs1]. rewrite wp_bind.
  eapply wp_mono; [| |apply (scan_databases_created a); eauto]; [|auto].
  intros seen1 s2 Hs2.
  eapply wp_mono; [| |apply (scan_pages_created a); eauto]; [|auto].
  intros seen2 s3 Hs3.
  rewrite wp_bind. unfold update_state, now_iso.
  rewrite !wp_bind, wp_now. destruct (clock (st_world s3)) as [w4 t4].
  rewrite wp_ret.
  assert (Hs4 : Forall (event_after a) (st_log (logged s3 [EvClock t4] w4)))
    by (apply after_logged; [exact Hs3|repeat constructor]).
  do 1 (lift_or ltac:(exact Hs4)).
  rewrite wp_lift.
  match goal with |- match ?r with _ => _ end => destruct r as [st|e] end;
    [|exact Hs4].
  rewrite wp_save_state. destruct (write_chunks _ _) as [written [[]|e]];
    cbn [logged st_log st_world st_disk]; (apply Forall_app; split; [exact Hs4|]);
    repeat constructor.
Qed.

(** X14. On every run, first or later, when the remote end honours the
    [created_time] filter, every item the source client returns and every
    item notified was created after the boundary of the run: the stored
    ["last_checked"] when there is one. *)
Theorem items_are_after_boundary fuel w disk a :
  truthy (run_boundary w disk) = true ->
  dtparse (run_boundary w disk) = Ok a ->
  filter_honoured ->
  let log := st_log (fst (run fuel w disk)) in
  Forall (created_after a) (fetched_items log)
  /\ Forall (created_after a) (formatted_items log).
Proof.
  intros Htr Hdt Hhon log. apply after_items.
  pose proof (main_created fuel w disk a Htr Hdt Hhon) as Hwp. subst log. unfold run.
  unfold wp in Hwp. destruct (main fuel _) as [s' [x|e|]]; exact Hwp.
Qed.

End BoundaryTheorem.

Lemma items_are_after_boundary_witness :
  run_boundary (H := sample_platform) (sample_world 200) seen_disk = BOUNDARY
  /\ dtparse (Platform := sample_platform) BOUNDARY = Ok (utc T0)
  /\ let log := st_log (fst (run (H := sample_platform) 5 (sample_world 200) seen_disk)) in
     Forall (created_after (H := sample_platform) (utc T0)) (fetched_items log)
     /\ Forall (created_after (H := sample_platform) (utc T0)) (formatted_items log).
Proof.
  split; [vm_compute; reflexivity|]. split; [vm_compute; reflexivity|].
  refine (items_are_after_boundary (H := sample_platform)
            5 (sample_world 200) seen_disk (utc T0) _ _ sample_filter_honoured);
    vm_compute; reflexivity.
Defined.


Section Selection.
Context `{Platform}.
Local Open Scope script_scope.






End Selection.



